(** * FrostyBlastManager: credentials, approval gate and invoice totals

    A shallow embedding of the parts of the application that decide how
    users log in, how accounts are approved or removed, and how invoice
    totals are computed and stored:

    - the authentication module ([./auth] of the server): [comparePasswords],
      the passport verify callback, the [isAdmin] middleware and the approve
      and reject routes;
    - [server/storage.ts]: the user, invoice and invoice-item operations of
      [DatabaseStorage], and the route handlers that follow the class in the
      same file, [POST /api/invoices] and [DELETE /api/staff/:id];
    - [shared/schema.ts]: the tables and their insert schemas;
    - [client/src/components/invoices/invoice-form.tsx] and the [LineItem]
      component it renders: the edit state of an invoice and its totals.

    JavaScript numbers are IEEE-754 binary64 values, modelled by Rocq's
    primitive floats.  The ECMAScript built-ins the code calls ([parseInt],
    [parseFloat], [String], truthiness) are modelled in [Module JS] on
    strings of ASCII characters.  The PostgreSQL tables are lists of rows in
    the order in which a [select] without [order by] returns them (inserted
    rows last, and updated rows after the rows that were left alone), with
    the constraints that [shared/schema.ts] declares (serial primary keys,
    unique user names and invoice numbers, integer and double precision
    columns). *)

From Stdlib Require Import ZArith List String Ascii Bool Floats Lia DecimalString.
From Stdlib Require Import Permutation.
From Stdlib.Strings Require Import Byte.
Import ListNotations.

Set Warnings "-inexact-float,-register-all".
Local Open Scope Z_scope.

(** ** ECMAScript values and built-ins *)

Module JS.

Definition number := float.

Definition NaN : number := PrimFloat.nan.

(** [isNaN(x)] for a number [x]. *)
Definition isNaN (x : number) : bool := PrimFloat.is_nan x.

(** ToBoolean on a number: [NaN], [+0] and [-0] are falsy. *)
Definition num_truthy (x : number) : bool :=
  negb (PrimFloat.is_nan x || PrimFloat.is_zero x).

(** [x || d] where [x] is a number. *)
Definition num_or (x d : number) : number := if num_truthy x then x else d.

(** The number nearest to the integer [z] (ties to even). *)
Definition of_Z (z : Z) : number := SF2Prim (binary_normalize prec emax z 0 false).

(** The integer a finite integral number denotes; [None] for [NaN], the
    infinities and numbers with a fractional part ([Number.isInteger]). *)
Definition toInteger (x : number) : option Z :=
  match Prim2SF x with
  | S754_zero _ => Some 0
  | S754_finite neg m e =>
      let abs :=
        if 0 <=? e then Some (Zpos m * 2 ^ e)
        else if Zpos m mod 2 ^ (- e) =? 0 then Some (Zpos m / 2 ^ (- e))
        else None in
      option_map (fun a => if neg then - a else a) abs
  | _ => None
  end.

(** The integral part of a finite number, rounding towards zero. *)
Definition truncate (x : number) : option Z :=
  match Prim2SF x with
  | S754_zero _ => Some 0
  | S754_finite neg m e =>
      let abs := if 0 <=? e then Zpos m * 2 ^ e else Zpos m / 2 ^ (- e) in
      Some (if neg then - abs else abs)
  | _ => None
  end.

(** The number nearest to the rational [p / q] ([0 <= p], [0 < q]), negated
    when [neg]: the quotient is taken to at least 55 bits, a sticky bit
    records an inexact division, and [binary_normalize] rounds to nearest,
    ties to even. *)
Definition round_ratio (neg : bool) (p q : Z) : number :=
  if p =? 0 then (if neg then PrimFloat.neg_zero else PrimFloat.zero) else
  let s := Z.max 0 (Z.log2 q - Z.log2 p + 56) in
  let num := p * 2 ^ s in
  let m := 2 * (num / q) + (if num mod q =? 0 then 0 else 1) in
  SF2Prim (binary_normalize prec emax (if neg then - m else m) (- s - 1) false).

(** The number nearest to [m * 10 ^ e]. *)
Definition scale10 (neg : bool) (m e : Z) : number :=
  if 0 <=? e then round_ratio neg (m * 10 ^ e) 1 else round_ratio neg m (10 ^ (- e)).

(** White space and line terminators among the ASCII characters. *)
Definition isWhiteSpace (c : ascii) : bool :=
  let n := Z.of_nat (nat_of_ascii c) in
  ((9 <=? n) && (n <=? 13)) || (n =? 32).

Fixpoint trimStart (s : string) : string :=
  match s with
  | String c r => if isWhiteSpace c then trimStart r else s
  | EmptyString => s
  end.

Definition digitValue (c : ascii) : option Z :=
  let n := Z.of_nat (nat_of_ascii c) in
  if (48 <=? n) && (n <=? 57) then Some (n - 48)
  else if (97 <=? n) && (n <=? 122) then Some (n - 87)
  else if (65 <=? n) && (n <=? 90) then Some (n - 55)
  else None.

Definition radixDigit (radix : Z) (c : ascii) : option Z :=
  match digitValue c with
  | Some d => if d <? radix then Some d else None
  | None => None
  end.

(** The longest prefix of [s] made of digits in [radix]: how many digits
    were read, the value accumulated on top of [acc], and the rest. *)
Fixpoint digits (radix : Z) (s : string) (count acc : Z) : Z * Z * string :=
  match s with
  | String c r =>
      match radixDigit radix c with
      | Some d => digits radix r (count + 1) (acc * radix + d)
      | None => (count, acc, s)
      end
  | EmptyString => (count, acc, s)
  end.

Definition signPrefix (s : string) : bool * string :=
  match s with
  | String "-" r => (true, r)
  | String "+" r => (false, r)
  | _ => (false, s)
  end.

(** [parseInt(s)] with no radix argument. *)
Definition parseInt (s : string) : number :=
  let '(neg, s1) := signPrefix (trimStart s) in
  let '(radix, s2) :=
    match s1 with
    | String "0" (String "x" r) => (16, r)
    | String "0" (String "X" r) => (16, r)
    | _ => (10, s1)
    end in
  let '(count, value, _) := digits radix s2 0 0 in
  if count =? 0 then NaN else round_ratio neg value 1.

(** The value of an optional exponent part at the head of [s]. *)
Definition exponentPart (s : string) : Z :=
  match s with
  | String c r =>
      if (Ascii.eqb c "e" || Ascii.eqb c "E")%bool then
        let '(neg, r1) := signPrefix r in
        let '(count, value, _) := digits 10 r1 0 0 in
        if count =? 0 then 0 else if neg then - value else value
      else 0
  | EmptyString => 0
  end.

(** [parseFloat(s)]: the longest prefix that is a decimal literal. *)
Definition parseFloat (s : string) : number :=
  let '(neg, s1) := signPrefix (trimStart s) in
  if String.prefix "Infinity"%string s1
  then (if neg then PrimFloat.neg_infinity else PrimFloat.infinity) else
  let '(icount, ivalue, s2) := digits 10 s1 0 0 in
  let '(fcount, value, s3) :=
    match s2 with
    | String "." r => digits 10 r 0 ivalue
    | _ => (0, ivalue, s2)
    end in
  if (icount =? 0) && (fcount =? 0) then NaN
  else scale10 neg value (exponentPart s3 - fcount).

(** *** Number::toString, radix 10 *)

(** [p / q < 10 ^ n]. *)
Definition lt_pow10 (p q n : Z) : bool :=
  if 0 <=? n then p <? q * 10 ^ n else p * 10 ^ (- n) <? q.

(** The [n] with [10 ^ (n - 1) <= p / q < 10 ^ n], searched from an estimate. *)
Fixpoint decimalExponent (fuel : nat) (p q n : Z) : Z :=
  match fuel with
  | O => n
  | S fuel' =>
      if lt_pow10 p q (n - 1) then decimalExponent fuel' p q (n - 1)
      else if lt_pow10 p q n then n
      else decimalExponent fuel' p q (n + 1)
  end.

(** [s * 10 ^ (n - k)] reads back as [x]. *)
Definition candidate (x : number) (s n k : Z) : bool :=
  PrimFloat.eqb (scale10 false s (n - k)) x.

(** The shortest digit string [s] (of [k] digits, with decimal exponent [n])
    that reads back as [x = p / q]; the nearer of the two neighbours of
    [p / q] when both do, the even one on a tie. *)
Fixpoint shortest (fuel : nat) (x : number) (p q n k : Z) : Z * Z * Z :=
  let num := if 0 <=? n - k then p else p * 10 ^ (k - n) in
  let den := if 0 <=? n - k then q * 10 ^ (n - k) else q in
  let lo := num / den in
  let rem := num mod den in
  let '(hi, nhi) := if lo + 1 =? 10 ^ k then (10 ^ (k - 1), n + 1) else (lo + 1, n) in
  let oklo := candidate x lo n k in
  let okhi := candidate x hi nhi k in
  let pick_lo := (2 * rem <? den) || ((2 * rem =? den) && Z.even lo) in
  match fuel with
  | O => (lo, n, k)
  | S fuel' =>
      if oklo && (pick_lo || negb okhi) then (lo, n, k)
      else if okhi then (hi, nhi, k)
      else shortest fuel' x p q n (k + 1)
  end.

Definition decimalString (z : Z) : string :=
  NilZero.string_of_uint (N.to_uint (Z.to_N z)).

Fixpoint zeros (n : nat) : string :=
  match n with O => EmptyString | S n' => String "0" (zeros n') end.

Definition formatDigits (s n k : Z) : string :=
  let ds := decimalString s in
  if (k <=? n) && (n <=? 21) then (ds ++ zeros (Z.to_nat (n - k)))%string
  else if (0 <? n) && (n <=? 21) then
    (substring 0 (Z.to_nat n) ds ++ "."
       ++ substring (Z.to_nat n) (Z.to_nat (k - n)) ds)%string
  else if (-6 <? n) && (n <=? 0) then ("0." ++ zeros (Z.to_nat (- n)) ++ ds)%string
  else
    let e := n - 1 in
    let sign := if e <? 0 then "-"%string else "+"%string in
    let es := (sign ++ decimalString (Z.abs e))%string in
    if k =? 1 then (ds ++ "e" ++ es)%string
    else (substring 0 1 ds ++ "." ++ substring 1 (Z.to_nat (k - 1)) ds ++ "e" ++ es)%string.

Definition numberToString (x : number) : string :=
  match Prim2SF x with
  | S754_nan => "NaN"%string
  | S754_zero _ => "0"%string
  | S754_infinity neg => if neg then "-Infinity"%string else "Infinity"%string
  | S754_finite neg m e =>
      let p := if 0 <=? e then Zpos m * 2 ^ e else Zpos m in
      let q := if 0 <=? e then 1 else 2 ^ (- e) in
      let n0 := ((Z.log2 p - Z.log2 q) * 30103) / 100000 in
      let n := decimalExponent 8 p q n0 in
      let '(s, n', k) := shortest 17 (PrimFloat.abs x) p q n 1 in
      ((if neg then "-" else "") ++ formatDigits s n' k)%string
  end.

(** *** Values of a parsed JSON document *)

Inductive value : Type :=
| Undefined
| Null
| Bool (b : bool)
| Number (x : number)
| Str (s : string)
| Array (elements : list value)
| Object (properties : list (string * value)).

(** ToBoolean. *)
Definition truthy (v : value) : bool :=
  match v with
  | Undefined | Null => false
  | Bool b => b
  | Number x => num_truthy x
  | Str s => negb (String.eqb s "")
  | Array _ | Object _ => true
  end.

(** [v || d]. *)
Definition or (v d : value) : value := if truthy v then v else d.

(** [String(v)]. *)
Fixpoint toString (v : value) : string :=
  match v with
  | Undefined => "undefined"%string
  | Null => "null"%string
  | Bool b => if b then "true"%string else "false"%string
  | Number x => numberToString x
  | Str s => s
  | Array elements =>
      (fix join (l : list value) : string :=
         let element (e : value) : string :=
           match e with
           | Undefined | Null => EmptyString
           | _ => toString e
           end in
         match l with
         | [] => EmptyString
         | [e] => element e
         | e :: r => (element e ++ "," ++ join r)%string
         end) elements
  | Object _ => "[object Object]"%string
  end.

(** An own property of an object literal; a later duplicate key wins, as in
    [JSON.parse]. *)
Fixpoint lookup (key : string) (properties : list (string * value)) : value :=
  match properties with
  | [] => Undefined
  | (k, v) :: rest =>
      match lookup key rest with
      | Undefined => if String.eqb k key then v else Undefined
      | later => later
      end
  end.

(** [v.key] for a key that no prototype defines: [None] is the TypeError
    raised on [undefined] and [null]. *)
Definition get (v : value) (key : string) : option value :=
  match v with
  | Undefined | Null => None
  | Object properties => Some (lookup key properties)
  | _ => Some Undefined
  end.

End JS.

(** ** Node buffers *)

Module Buffer.

Definition buffer := list byte.

Definition hexValue (c : ascii) : option N :=
  let n := N_of_ascii c in
  if (48 <=? n)%N && (n <=? 57)%N then Some (n - 48)%N
  else if (97 <=? n)%N && (n <=? 102)%N then Some (n - 87)%N
  else if (65 <=? n)%N && (n <=? 70)%N then Some (n - 55)%N
  else None.

Definition byteOf (n : N) : byte :=
  match Byte.of_N n with
  | Some b => b
  | None => x00
  end.

(** [Buffer.from(s, "hex")]: two digits make a byte; decoding stops at the
    first pair that is not made of hexadecimal digits, and a trailing single
    digit is dropped. *)
Fixpoint fromHex (s : string) : buffer :=
  match s with
  | String a (String b rest) =>
      match hexValue a, hexValue b with
      | Some hi, Some lo => byteOf (16 * hi + lo) :: fromHex rest
      | _, _ => []
      end
  | _ => []
  end.

Definition hexDigit (n : N) : ascii :=
  ascii_of_N (if (n <? 10)%N then n + 48 else n + 87)%N.

(** [buf.toString("hex")]. *)
Fixpoint toHex (b : buffer) : string :=
  match b with
  | [] => EmptyString
  | x :: rest =>
      String (hexDigit (Byte.to_N x / 16)) (String (hexDigit (Byte.to_N x mod 16)) (toHex rest))
  end.

Fixpoint equal (a b : buffer) : bool :=
  match a, b with
  | [], [] => true
  | x :: a', y :: b' => Byte.eqb x y && equal a' b'
  | _, _ => false
  end.

(** [crypto.timingSafeEqual(a, b)]: throws ([None]) when the lengths differ. *)
Definition timingSafeEqual (a b : buffer) : option bool :=
  if (List.length a =? List.length b)%nat then Some (equal a b) else None.

End Buffer.

(** ** Rows of [shared/schema.ts] *)

Module User.
Record t := mk {
  id : Z;
  username : string;
  password : string;
  email : string;
  fullName : string;
  role : string;
  approved : bool;
  createdAt : Z
}.
End User.

(** [Partial<InsertUser>]: the columns an update may set. *)
Module PartialUser.
Record t := mk {
  username : option string;
  password : option string;
  email : option string;
  fullName : option string;
  role : option string;
  approved : option bool
}.
Definition empty : t := mk None None None None None None.
End PartialUser.

Module Invoice.
Record t := mk {
  id : Z;
  invoiceNumber : string;
  jobId : Z;
  customerId : Z;
  amount : JS.number;
  tax : JS.number;
  total : JS.number;
  issueDate : Z;
  dueDate : Z;
  notes : option string;
  paymentTerms : string;
  paymentMethod : string;
  status : string;
  createdBy : Z
}.
Arguments mk id%_Z invoiceNumber%_string (jobId customerId)%_Z (amount tax total)%_float
  (issueDate dueDate)%_Z notes (paymentTerms paymentMethod status)%_string createdBy%_Z.
End Invoice.

(** What [insertInvoiceSchema] yields: the row without its [id]; [notes] and
    [status] may be absent. *)
Module InsertInvoice.
Record t := mk {
  invoiceNumber : string;
  jobId : JS.number;
  customerId : JS.number;
  amount : JS.number;
  tax : JS.number;
  total : JS.number;
  issueDate : Z;
  dueDate : Z;
  notes : option string;
  paymentTerms : string;
  paymentMethod : string;
  status : option string;
  createdBy : JS.number
}.
End InsertInvoice.

Module InvoiceItem.
Record t := mk {
  id : Z;
  invoiceId : Z;
  description : string;
  quantity : JS.number;
  unitPrice : JS.number;
  total : JS.number
}.
Arguments mk (id invoiceId)%_Z description%_string (quantity unitPrice total)%_float.
End InvoiceItem.

Module InsertInvoiceItem.
Record t := mk {
  invoiceId : Z;
  description : string;
  quantity : JS.number;
  unitPrice : JS.number;
  total : JS.number
}.
End InsertInvoiceItem.

(** ** [server/storage.ts]: [DatabaseStorage] over the tables *)

Module Storage.

(** A call either returns or throws (a rejected promise). *)
Inductive outcome (A : Type) : Type :=
| Returned (a : A)
| Thrown.
Arguments Returned {A} a.
Arguments Thrown {A}.

(** The tables, each with the next value of its [serial] key. *)
Record Store := mkStore {
  users : list User.t;
  users_id_seq : Z;
  invoices : list Invoice.t;
  invoices_id_seq : Z;
  invoiceItems : list InvoiceItem.t;
  invoice_items_id_seq : Z
}.

(** A number bound to an [integer] column or compared with one: the query
    fails unless the number is integral and fits 32 bits. *)
Definition int4 (x : JS.number) : option Z :=
  match JS.toInteger x with
  | Some z => if (- 2 ^ 31 <=? z) && (z <? 2 ^ 31) then Some z else None
  | None => None
  end.

Definition setUsers (st : Store) (rows : list User.t) : Store :=
  mkStore rows (users_id_seq st) (invoices st) (invoices_id_seq st)
          (invoiceItems st) (invoice_items_id_seq st).

(** [getUser]: [select ... where id = $1], then [result[0]]. *)
Definition getUser (st : Store) (id : JS.number) : outcome (option User.t) :=
  match int4 id with
  | None => Thrown
  | Some i => Returned (find (fun u => User.id u =? i) (users st))
  end.

(** [getUserByUsername]: [select ... where username = $1], then [result[0]]. *)
Definition getUserByUsername (st : Store) (username : string) : option User.t :=
  find (fun u => String.eqb (User.username u) username) (users st).

Definition override {A : Type} (new : option A) (old : A) : A :=
  match new with
  | Some a => a
  | None => old
  end.

(** [set(userData)] on one row. *)
Definition setUser (userData : PartialUser.t) (u : User.t) : User.t :=
  User.mk (User.id u)
          (override (PartialUser.username userData) (User.username u))
          (override (PartialUser.password userData) (User.password u))
          (override (PartialUser.email userData) (User.email u))
          (override (PartialUser.fullName userData) (User.fullName u))
          (override (PartialUser.role userData) (User.role u))
          (override (PartialUser.approved userData) (User.approved u))
          (User.createdAt u).

Definition noColumn (userData : PartialUser.t) : bool :=
  match userData with
  | PartialUser.mk None None None None None None => true
  | _ => false
  end.

(** The update would give the row [i] a user name that another row holds. *)
Definition usernameTaken (rows : list User.t) (i : Z) (userData : PartialUser.t) : bool :=
  match PartialUser.username userData with
  | Some name =>
      existsb (fun u => User.id u =? i) rows
      && existsb (fun u => negb (User.id u =? i) && String.eqb (User.username u) name) rows
  | None => false
  end.

(** The table after [update ... set ... where id = i]: PostgreSQL writes a
    new version of each row it updates, and a [select] without [order by]
    then returns the updated rows after the rows that were left alone. *)
Definition updated {A : Type} (key : A -> Z) (i : Z) (set : A -> A) (rows : list A) : list A :=
  filter (fun r => negb (key r =? i)) rows ++ map set (filter (fun r => key r =? i) rows).

(** [updateUser]: [update users set ... where id = $1 returning *], then
    [result[0]].  The query builder refuses an update that sets no column,
    and the unique index on [username] refuses a duplicate. *)
Definition updateUser (st : Store) (id : JS.number) (userData : PartialUser.t)
  : Store * outcome (option User.t) :=
  match int4 id with
  | None => (st, Thrown)
  | Some i =>
      if noColumn userData || usernameTaken (users st) i userData then (st, Thrown)
      else
        let rows := updated User.id i (setUser userData) (users st) in
        (setUsers st rows, Returned (find (fun u => User.id u =? i) rows))
  end.

(** [deleteUser]: [delete from users where id = $1], then [return true]. *)
Definition deleteUser (st : Store) (id : JS.number) : Store * outcome bool :=
  match int4 id with
  | None => (st, Thrown)
  | Some i => (setUsers st (filter (fun u => negb (User.id u =? i)) (users st)), Returned true)
  end.

(** [getAllUsers]. *)
Definition getAllUsers (st : Store) : list User.t := users st.

(** A number bound to a [double precision] column.  The driver sends the
    text [String(x)], in which a negative zero has lost its sign: the row
    holds [0].  Every other number is read back as it was. *)
Definition float8 (x : JS.number) : JS.number :=
  if PrimFloat.eqb x 0%float then 0%float else x.

(** [createInvoice]: [insert into invoices ... returning *].  The integer
    columns take 32-bit integers; the unique index on [invoice_number]
    refuses a duplicate after the sequence has produced the key. *)
Definition createInvoice (st : Store) (insertInvoice : InsertInvoice.t)
  : Store * outcome Invoice.t :=
  match int4 (InsertInvoice.jobId insertInvoice),
        int4 (InsertInvoice.customerId insertInvoice),
        int4 (InsertInvoice.createdBy insertInvoice) with
  | Some job, Some customer, Some creator =>
      let key := invoices_id_seq st in
      let row :=
        Invoice.mk key
          (InsertInvoice.invoiceNumber insertInvoice) job customer
          (float8 (InsertInvoice.amount insertInvoice))
          (float8 (InsertInvoice.tax insertInvoice))
          (float8 (InsertInvoice.total insertInvoice))
          (InsertInvoice.issueDate insertInvoice)
          (InsertInvoice.dueDate insertInvoice)
          (InsertInvoice.notes insertInvoice)
          (InsertInvoice.paymentTerms insertInvoice)
          (InsertInvoice.paymentMethod insertInvoice)
          (override (InsertInvoice.status insertInvoice) "draft"%string)
          creator in
      if existsb (fun r => String.eqb (Invoice.invoiceNumber r) (Invoice.invoiceNumber row))
                 (invoices st)
      then (mkStore (users st) (users_id_seq st) (invoices st) (key + 1)
                    (invoiceItems st) (invoice_items_id_seq st), Thrown)
      else (mkStore (users st) (users_id_seq st) (invoices st ++ [row]) (key + 1)
                    (invoiceItems st) (invoice_items_id_seq st), Returned row)
  | _, _, _ => (st, Thrown)
  end.

(** [createInvoiceItem]: the numeric fields go through [Number(..) || d]
    before [insert into invoice_items ... returning *]; [quantity] is an
    integer column. *)
Definition createInvoiceItem (st : Store) (insertItem : InsertInvoiceItem.t)
  : Store * outcome InvoiceItem.t :=
  let quantity := JS.num_or (InsertInvoiceItem.quantity insertItem) 1%float in
  let unitPrice := JS.num_or (InsertInvoiceItem.unitPrice insertItem) 0%float in
  let total := JS.num_or (InsertInvoiceItem.total insertItem) 0%float in
  match int4 quantity with
  | None => (st, Thrown)
  | Some _ =>
      let key := invoice_items_id_seq st in
      let row :=
        InvoiceItem.mk key (InsertInvoiceItem.invoiceId insertItem)
          (InsertInvoiceItem.description insertItem) quantity unitPrice total in
      (mkStore (users st) (users_id_seq st) (invoices st) (invoices_id_seq st)
               (invoiceItems st ++ [row]) (key + 1), Returned row)
  end.

End Storage.

(** ** Requests and responses *)

Module Http.

Record request := mkRequest {
  (** the user id that [passport.serializeUser] put in the session, if any *)
  session : option JS.number;
  (** [req.params.id] *)
  params_id : string;
  (** [req.body], a parsed JSON object *)
  body : list (string * JS.value)
}.

Inductive payload : Type :=
| Message (message : string)
| UserJson (user : User.t)
| InvoiceJson (invoice : Invoice.t) (lineItems : list InvoiceItem.t)
| InvalidInvoiceData.

Inductive response : Type :=
| Json (status : Z) (p : payload)   (** [res.status(n).json(..)] *)
| SendStatus (status : Z)           (** [res.sendStatus(n)] *)
| Send (status : Z)                 (** [res.status(n).send()] *)
| Next.                             (** [next(error)] *)

(** [passport.deserializeUser]: [req.user] is the row of the session's id.
    When the row is gone, [getUser] hands [undefined] to [done]; passport
    then fails with "Failed to deserialize user out of session" and the
    request ends in the error handler, like one whose query throws. *)
Definition requestUser (st : Storage.Store) (req : request)
  : Storage.outcome (option User.t) :=
  match session req with
  | None => Storage.Returned None
  | Some id =>
      match Storage.getUser st id with
      | Storage.Returned (Some user) => Storage.Returned (Some user)
      | Storage.Returned None => Storage.Thrown
      | Storage.Thrown => Storage.Thrown
      end
  end.

End Http.

(** ** [server/auth.ts] *)

Module Auth.
Import Storage Http.

Fixpoint includes (c : ascii) (s : string) : bool :=
  match s with
  | EmptyString => false
  | String a r => Ascii.eqb a c || includes c r
  end.

(** [s.split(c)] for a one-character separator. *)
Fixpoint split (c : ascii) (s : string) : list string :=
  match s with
  | EmptyString => [EmptyString]
  | String a r =>
      if Ascii.eqb a c then EmptyString :: split c r
      else match split c r with
           | h :: t => String a h :: t
           | [] => [String a EmptyString]
           end
  end.

Definition adminHash1 : string :=
  "8c6976e5b5410415bde908bd4dee15dfb167a9c873fc4bb8a81f6f2ab448a918".
Definition adminHash2 : string :=
  "a665a45920422f9d417e4867efdc4fb8a04a1f3fff1fa07e998e86f7f7a27ae3".
Definition testHash : string :=
  "9f86d081884c7d659a2feaa0c55ad015a3bf4f1b2b0b822cd15d6c15b0f00a08".

Section WithScrypt.

(** [scrypt(password, salt, keylen)] of Node's [crypto]. *)
Variable scrypt : string -> string -> nat -> Buffer.buffer.

Definition comparePasswords (supplied stored : string) : bool :=
  if String.eqb stored "" || negb (includes "." stored) then false
  else
    match split "." stored with
    | hashed :: salt :: _ =>
        if String.eqb hashed "" || String.eqb salt "" then false
        else if String.eqb supplied "admin"
                && (String.prefix adminHash1 stored || String.prefix adminHash2 stored)
        then true
        else if String.eqb supplied "test" && String.prefix testHash stored
        then true
        else
          let hashedBuf := Buffer.fromHex hashed in
          let suppliedBuf := scrypt supplied salt 64 in
          if negb (List.length hashedBuf =? List.length suppliedBuf)%nat
          then String.eqb hashed (Buffer.toHex suppliedBuf)
          else
            match Buffer.timingSafeEqual hashedBuf suppliedBuf with
            | Some same => same
            | None => false
            end
    | _ => false
    end.

(** What the verify callback hands to [done]. *)
Inductive verdict : Type :=
| Authenticated (user : User.t)
| Refused (message : string).

(** The [LocalStrategy] verify callback. *)
Definition verify (st : Store) (username password : string) : verdict :=
  match getUserByUsername st username with
  | None => Refused "Invalid username or password"
  | Some user =>
      if negb (comparePasswords password (User.password user))
      then Refused "Invalid username or password"
      else if negb (String.eqb (User.role user) "admin") && negb (User.approved user)
      then Refused "Your account is pending approval by an administrator"
      else Authenticated user
  end.

End WithScrypt.

(** The [isAdmin] middleware in front of [handler]. *)
Definition isAdmin (st : Store) (req : request)
  (handler : Store -> request -> Store * response) : Store * response :=
  match requestUser st req with
  | Thrown => (st, Next)
  | Returned None => (st, Json 401 (Message "You must be logged in"))
  | Returned (Some user) =>
      if negb (String.eqb (User.role user) "admin")
      then (st, Json 403 (Message "You must be an administrator to access this resource"))
      else handler st req
  end.

(** [GET /api/users/pending], after [isAdmin]. *)
Definition pendingUsers (st : Store) : list User.t :=
  filter (fun user => negb (User.approved user)) (getAllUsers st).

(** [{ approved: true }]. *)
Definition approvedTrue : PartialUser.t :=
  PartialUser.mk None None None None None (Some true).

(** [PATCH /api/users/:id/approve]. *)
Definition patch_users_id_approve (st : Store) (req : request) : Store * response :=
  isAdmin st req (fun st req =>
    let userId := JS.parseInt (params_id req) in
    if JS.isNaN userId then (st, Json 400 (Message "Invalid user ID"))
    else
      match updateUser st userId approvedTrue with
      | (st', Thrown) => (st', Next)
      | (st', Returned None) => (st', Json 404 (Message "User not found"))
      | (st', Returned (Some updatedUser)) => (st', Json 200 (UserJson updatedUser))
      end).

(** [DELETE /api/users/:id]. *)
Definition delete_users_id (st : Store) (req : request) : Store * response :=
  isAdmin st req (fun st req =>
    let userId := JS.parseInt (params_id req) in
    if JS.isNaN userId then (st, Json 400 (Message "Invalid user ID"))
    else
      match deleteUser st userId with
      | (st', Thrown) => (st', Next)
      | (st', Returned success) =>
          if negb success then (st', Json 404 (Message "User not found"))
          else (st', Json 200 (Message "User deleted successfully"))
      end).

End Auth.

(** ** [server/routes.ts] *)

Module Routes.
Import Storage Http.
Local Open Scope string_scope.
Local Open Scope Z_scope.

(** What a handler reads from outside the request and the database. *)
Record Env := mkEnv {
  now : Z;                              (** [Date.now()], in milliseconds *)
  random : JS.number;                   (** [Math.random()] *)
  Date_parse : string -> option Z       (** [Date.parse]; [None] is [NaN] *)
}.

(** [new Date(v)]: the time value, or [None] for an invalid date. *)
Definition newDate (env : Env) (v : JS.value) : option Z :=
  match v with
  | JS.Undefined => None
  | JS.Null => Some 0
  | JS.Bool b => Some (if b then 1 else 0)
  | JS.Number x =>
      match JS.truncate x with
      | Some t => if Z.abs t <=? 8640000000000000 then Some t else None
      | None => None
      end
  | JS.Str s => Date_parse env s
  | JS.Array _ | JS.Object _ => Date_parse env (JS.toString v)
  end.

(** [s.padStart(4, '0')]. *)
Definition padStart4 (s : string) : string :=
  JS.zeros (4 - String.length s)%nat ++ s.

(** [`INV-${Math.floor(Math.random() * 10000).toString().padStart(4, '0')}`];
    [Math.random()] is not negative, so [Math.floor] is the integral part. *)
Definition generatedInvoiceNumber (env : Env) : string :=
  let n := match JS.truncate (random env * 10000)%float with
           | Some z => z
           | None => 0
           end in
  ("INV-" ++ padStart4 (JS.decimalString n))%string.

(** [z.string()]. *)
Definition zString (v : JS.value) : option string :=
  match v with
  | JS.Str s => Some s
  | _ => None
  end.

(** [z.number()] for a [doublePrecision] column: any number but [NaN]. *)
Definition zNumber (x : JS.number) : option JS.number :=
  if JS.isNaN x then None else Some x.

(** The schema of an [integer] column: an integral number.  (Where the
    generated schema only asks for a number, the insertion refuses a number
    that is not integral, inside the same [try]: see [Storage.int4].) *)
Definition zInt (x : JS.number) : option JS.number :=
  match JS.toInteger x with
  | Some _ => Some x
  | None => None
  end.

(** [insertInvoiceSchema.parse] on the object the handler builds from
    [invoiceData]: [None] is a thrown [ZodError]. *)
Definition parseInvoice (env : Env) (user : User.t) (invoiceData : list (string * JS.value))
  (invoiceNumber : JS.value) : option InsertInvoice.t :=
  let field key := JS.lookup key invoiceData in
  let amount := JS.parseFloat (JS.toString (JS.or (field "amount") (JS.Str "0"))) in
  let tax := JS.parseFloat (JS.toString (JS.or (field "tax") (JS.Str "0"))) in
  let total := JS.parseFloat (JS.toString (JS.or (field "total") (JS.Str "0"))) in
  let jobId := JS.parseInt (JS.toString (field "jobId")) in
  let customerId := JS.parseInt (JS.toString (field "customerId")) in
  let issueDate :=
    if JS.truthy (field "issueDate") then newDate env (field "issueDate")
    else Some (now env) in
  let dueDate :=
    if JS.truthy (field "dueDate") then newDate env (field "dueDate")
    else Some (now env + 30 * 24 * 60 * 60 * 1000) in
  let notes :=
    match field "notes" with
    | JS.Undefined | JS.Null => Some None
    | JS.Str s => Some (Some s)
    | _ => None
    end in
  let status :=
    match field "status" with
    | JS.Undefined => Some None
    | JS.Str s => Some (Some s)
    | _ => None
    end in
  match zString invoiceNumber, zInt jobId, zInt customerId,
        zNumber amount, zNumber tax, zNumber total with
  | Some invoiceNumber', Some jobId', Some customerId',
    Some amount', Some tax', Some total' =>
      match issueDate, dueDate, notes, status,
            zString (field "paymentTerms"), zString (field "paymentMethod") with
      | Some issueDate', Some dueDate', Some notes', Some status',
        Some paymentTerms', Some paymentMethod' =>
          Some (InsertInvoice.mk invoiceNumber' jobId' customerId' amount' tax' total'
                  issueDate' dueDate' notes' paymentTerms' paymentMethod' status'
                  (JS.of_Z (User.id user)))
      | _, _, _, _, _, _ => None
      end
  | _, _, _, _, _, _ => None
  end.

(** [insertInvoiceItemSchema.parse] on the object the handler builds from one
    element of [lineItems]: [None] is a thrown error (the [TypeError] of a
    property read on [null], or a [ZodError]). *)
Definition parseItem (invoice : Invoice.t) (item : JS.value) : option InsertInvoiceItem.t :=
  match JS.get item "quantity", JS.get item "unitPrice", JS.get item "total",
        JS.get item "description" with
  | Some quantity, Some unitPrice, Some total, Some description =>
      let quantity' := JS.parseInt (JS.toString (JS.or quantity (JS.Number 1%float))) in
      let unitPrice' := JS.parseFloat (JS.toString (JS.or unitPrice (JS.Number 0%float))) in
      let total' := JS.parseFloat (JS.toString (JS.or total (JS.Number 0%float))) in
      match zString description, zInt quantity', zNumber unitPrice', zNumber total' with
      | Some d, Some q, Some p, Some t =>
          Some (InsertInvoiceItem.mk (Invoice.id invoice) d q p t)
      | _, _, _, _ => None
      end
  | _, _, _, _ => None
  end.

(** The loop over [lineItems]: an element whose validation or insertion
    throws is skipped, and the loop goes on with the next one. *)
Fixpoint createLineItems (st : Store) (invoice : Invoice.t) (lineItems : list JS.value)
  : Store * list InvoiceItem.t :=
  match lineItems with
  | [] => (st, [])
  | item :: rest =>
      match parseItem invoice item with
      | None => createLineItems st invoice rest
      | Some validatedItemData =>
          match createInvoiceItem st validatedItemData with
          | (st', Thrown) => createLineItems st' invoice rest
          | (st', Returned lineItem) =>
              let '(st'', createdLineItems) := createLineItems st' invoice rest in
              (st'', lineItem :: createdLineItems)
          end
      end
  end.

(** [POST /api/invoices]. *)
Definition post_invoices (env : Env) (st : Store) (req : request) : Store * response :=
  match requestUser st req with
  | Thrown => (st, Next)
  | Returned None => (st, SendStatus 401)
  | Returned (Some user) =>
      let lineItems := JS.lookup "lineItems" (body req) in
      let invoiceData := body req in
      if negb (JS.truthy (JS.lookup "jobId" invoiceData))
      then (st, Json 400 (Message "Job ID is required"))
      else if negb (JS.truthy (JS.lookup "customerId" invoiceData))
      then (st, Json 400 (Message "Customer ID is required"))
      else
        match lineItems with
        | JS.Array (first :: others) =>
            let invoiceNumber :=
              if JS.truthy (JS.lookup "invoiceNumber" invoiceData)
              then JS.lookup "invoiceNumber" invoiceData
              else JS.Str (generatedInvoiceNumber env) in
            match parseInvoice env user invoiceData invoiceNumber with
            | None => (st, Json 400 InvalidInvoiceData)
            | Some validatedInvoiceData =>
                match createInvoice st validatedInvoiceData with
                | (st', Thrown) => (st', Json 400 InvalidInvoiceData)
                | (st', Returned invoice) =>
                    let '(st'', createdLineItems) :=
                      createLineItems st' invoice (first :: others) in
                    (st'', Json 201 (InvoiceJson invoice createdLineItems))
                end
            end
        | _ => (st, Json 400 (Message "At least one line item is required"))
        end
  end.

(** [DELETE /api/staff/:id]. *)
Definition delete_staff_id (st : Store) (req : request) : Store * response :=
  match requestUser st req with
  | Thrown => (st, Next)
  | Returned None => (st, SendStatus 401)
  | Returned (Some user) =>
      if negb (String.eqb (User.role user) "admin")
      then (st, Json 403 (Message "Unauthorized access"))
      else
        let userId := JS.parseInt (params_id req) in
        if PrimFloat.eqb userId (JS.of_Z (User.id user))
        then (st, Json 400 (Message "Cannot delete your own account"))
        else
          match deleteUser st userId with
          | (st', Thrown) => (st', Next)
          | (st', Returned success) =>
              if negb success then (st', Json 404 (Message "User not found"))
              else (st', Send 204)
          end
  end.

End Routes.

(** ** [client/src/components/invoices/line-item.tsx] *)

(** [Partial<InvoiceItem>]: what a row hands to [onChange]. *)
Module PartialItem.
Record t := mk {
  id : option Z;
  invoiceId : option Z;
  description : option string;
  quantity : option JS.number;
  unitPrice : option JS.number;
  total : option JS.number
}.
End PartialItem.

Module LineItem.
Local Open Scope float_scope.

(** [item.quantity || 1] and [item.unitPrice || 0], as numbers. *)
Definition numericQuantity (item : InvoiceItem.t) : JS.number :=
  JS.num_or (InvoiceItem.quantity item) 1.
Definition numericUnitPrice (item : InvoiceItem.t) : JS.number :=
  JS.num_or (InvoiceItem.unitPrice item) 0.

(** [{ ...item, description: newDescription }] *)
Definition handleDescriptionChange (item : InvoiceItem.t) (value : string) : PartialItem.t :=
  PartialItem.mk (Some (InvoiceItem.id item)) (Some (InvoiceItem.invoiceId item))
    (Some value)
    (Some (InvoiceItem.quantity item)) (Some (InvoiceItem.unitPrice item))
    (Some (InvoiceItem.total item)).

(** [{ ...item, quantity: qty, total: newTotal }] for the text [value] of
    the quantity input. *)
Definition handleQuantityChange (item : InvoiceItem.t) (value : string) : PartialItem.t :=
  let newQuantity := JS.num_or (JS.parseInt value) 0 in
  let qty := if 0 <? newQuantity then newQuantity else 1 in
  let newTotal := qty * numericUnitPrice item in
  PartialItem.mk (Some (InvoiceItem.id item)) (Some (InvoiceItem.invoiceId item))
    (Some (InvoiceItem.description item))
    (Some qty) (Some (InvoiceItem.unitPrice item))
    (Some newTotal).

(** [{ ...item, unitPrice: price, total: newTotal }] for the text [value] of
    the unit price input. *)
Definition handleUnitPriceChange (item : InvoiceItem.t) (value : string) : PartialItem.t :=
  let newPrice := JS.num_or (JS.parseFloat value) 0 in
  let price := if 0 <=? newPrice then newPrice else 0 in
  let newTotal := numericQuantity item * price in
  PartialItem.mk (Some (InvoiceItem.id item)) (Some (InvoiceItem.invoiceId item))
    (Some (InvoiceItem.description item))
    (Some (InvoiceItem.quantity item)) (Some price)
    (Some newTotal).

End LineItem.

(** ** [client/src/components/invoices/invoice-form.tsx] *)

Module InvoiceForm.
Local Open Scope float_scope.

Record Calculations := mkCalculations {
  subtotal : JS.number;
  tax : JS.number;
  total : JS.number
}.

(** The two pieces of component state the line-item handlers write. *)
Record State := mkState {
  lineItems : list InvoiceItem.t;
  calculations : Calculations
}.

(** [array.map((x, i) => f(i, x))] and [array.filter((x, i) => keep(i, x))],
    counting from [i]. *)
Fixpoint mapi {A B : Type} (i : nat) (f : nat -> A -> B) (l : list A) : list B :=
  match l with
  | [] => []
  | x :: rest => f i x :: mapi (S i) f rest
  end.

Fixpoint filteri {A : Type} (i : nat) (keep : nat -> A -> bool) (l : list A) : list A :=
  match l with
  | [] => []
  | x :: rest => if keep i x then x :: filteri (S i) keep rest else filteri (S i) keep rest
  end.

(** The "Recalculate totals" lines that close each of the three handlers:
    [reduce((sum, item) => sum + (item.total || 0), 0)], 20% VAT, and the sum. *)
Definition recalculate (newLineItems : list InvoiceItem.t) : Calculations :=
  let subtotal :=
    fold_left (fun sum item => sum + JS.num_or (InvoiceItem.total item) 0) newLineItems 0 in
  let taxRate := 0.2 in
  let tax := subtotal * taxRate in
  let total := subtotal + tax in
  mkCalculations subtotal tax total.

(** [existingInvoice?.id || 0] *)
Definition existingId (existingInvoice : option Invoice.t) : Z :=
  match existingInvoice with
  | Some invoice => Invoice.id invoice
  | None => 0%Z
  end.

Definition emptyLineItem (invoiceId : Z) : InvoiceItem.t :=
  InvoiceItem.mk 0 invoiceId "" 1 0 0.

(** The state a fresh form starts from. *)
Definition initialState : State :=
  mkState [emptyLineItem 0] (mkCalculations 0 0 0).

(** The object that replaces [lineItem] at the changed index.  The fields of
    an [InvoiceItem] are typed as numbers, so the [typeof .. === 'number']
    tests of the source succeed. *)
Definition changedItem (lineItem : InvoiceItem.t) (item : PartialItem.t) : InvoiceItem.t :=
  let newQuantity :=
    match PartialItem.quantity item with
    | Some q => q
    | None => InvoiceItem.quantity lineItem
    end in
  let newUnitPrice :=
    match PartialItem.unitPrice item with
    | Some p => p
    | None => InvoiceItem.unitPrice lineItem
    end in
  InvoiceItem.mk
    (Storage.override (PartialItem.id item) (InvoiceItem.id lineItem))
    (Storage.override (PartialItem.invoiceId item) (InvoiceItem.invoiceId lineItem))
    (match PartialItem.description item with
     | Some d => d
     | None => if String.eqb (InvoiceItem.description lineItem) "" then ""%string
               else InvoiceItem.description lineItem
     end)
    newQuantity
    newUnitPrice
    (match PartialItem.total item with
     | Some t => t
     | None => newQuantity * newUnitPrice
     end).

Definition handleLineItemChange (st : State) (index : nat) (item : PartialItem.t) : State :=
  let newLineItems :=
    mapi 0 (fun i lineItem => if negb (i =? index)%nat then lineItem
                              else changedItem lineItem item)
         (lineItems st) in
  mkState newLineItems (recalculate newLineItems).

Definition addLineItem (existingInvoice : option Invoice.t) (st : State) : State :=
  let newLineItem := emptyLineItem (existingId existingInvoice) in
  let newLineItems := lineItems st ++ [newLineItem] in
  mkState newLineItems (recalculate newLineItems).

Definition removeLineItem (existingInvoice : option Invoice.t) (st : State) (index : nat)
  : State :=
  let filtered := filteri 0 (fun i _ => negb (i =? index)%nat) (lineItems st) in
  let newLineItems :=
    if (List.length filtered =? 0)%nat
    then filtered ++ [emptyLineItem (existingId existingInvoice)]
    else filtered in
  mkState newLineItems (recalculate newLineItems).

End InvoiceForm.

(** ** What the specification says, and the data of the examples *)

Module Spec.
Local Open Scope float_scope.

(** A line item whose stored total is its quantity times its unit price,
    with a quantity that [|| 1] and a unit price that [|| 0] leave alone. *)
Definition consistent (item : InvoiceItem.t) : Prop :=
  InvoiceItem.total item = InvoiceItem.quantity item * InvoiceItem.unitPrice item
  /\ JS.num_or (InvoiceItem.quantity item) 1 = InvoiceItem.quantity item
  /\ JS.num_or (InvoiceItem.unitPrice item) 0 = InvoiceItem.unitPrice item.

(** The totals as the specification computes them, from quantities and unit
    prices: the products are added from the left, starting from 0, and a
    product that is zero or [NaN] counts as 0. *)
Definition sumOfProducts (items : list InvoiceItem.t) : JS.number :=
  fold_left
    (fun sum item => sum + JS.num_or (InvoiceItem.quantity item * InvoiceItem.unitPrice item) 0)
    items 0.

Definition totalsOf (items : list InvoiceItem.t) : InvoiceForm.Calculations :=
  InvoiceForm.mkCalculations
    (sumOfProducts items)
    (sumOfProducts items * 0.2)
    (sumOfProducts items + sumOfProducts items * 0.2).

(** Adding from the left: [((sum + t1) + t2) + ...]. *)
Fixpoint addFromLeft (sum : JS.number) (terms : list JS.number) : JS.number :=
  match terms with
  | [] => sum
  | term :: rest => addFromLeft (sum + term) rest
  end.

(** The totals from the [total] field that each item carries, whatever its
    quantity and unit price are: the fields are added from the left,
    starting from 0, and a field that is zero or [NaN] counts as 0; then
    20% tax, and the sum of the two. *)
Definition sumOfStoredTotals (items : list InvoiceItem.t) : JS.number :=
  addFromLeft 0 (map (fun item => JS.num_or (InvoiceItem.total item) 0) items).

Definition totalsOfStored (items : list InvoiceItem.t) : InvoiceForm.Calculations :=
  InvoiceForm.mkCalculations
    (sumOfStoredTotals items)
    (sumOfStoredTotals items * 0.2)
    (sumOfStoredTotals items + sumOfStoredTotals items * 0.2).

(** One event of an edit session: the add button, the remove button of a
    row, or a change of one of the three inputs of the row [index], which
    renders [lineItems[index]] and calls [handleLineItemChange] with what
    its handler builds. *)
Inductive edit (existingInvoice : option Invoice.t) (st : InvoiceForm.State)
  : InvoiceForm.State -> Prop :=
| edit_add :
    edit existingInvoice st (InvoiceForm.addLineItem existingInvoice st)
| edit_remove (index : nat) :
    edit existingInvoice st (InvoiceForm.removeLineItem existingInvoice st index)
| edit_description (index : nat) (item : InvoiceItem.t) (value : string) :
    nth_error (InvoiceForm.lineItems st) index = Some item ->
    edit existingInvoice st
      (InvoiceForm.handleLineItemChange st index (LineItem.handleDescriptionChange item value))
| edit_quantity (index : nat) (item : InvoiceItem.t) (value : string) :
    nth_error (InvoiceForm.lineItems st) index = Some item ->
    edit existingInvoice st
      (InvoiceForm.handleLineItemChange st index (LineItem.handleQuantityChange item value))
| edit_unitPrice (index : nat) (item : InvoiceItem.t) (value : string) :
    nth_error (InvoiceForm.lineItems st) index = Some item ->
    edit existingInvoice st
      (InvoiceForm.handleLineItemChange st index (LineItem.handleUnitPriceChange item value)).

(** The constraints of the [users] table: [id] is the primary key and
    [username] has a unique index. *)
Definition usersTable (st : Storage.Store) : Prop :=
  NoDup (map User.id (Storage.users st))
  /\ NoDup (map User.username (Storage.users st)).

(** In [stored], of the form [hash.salt], the two parts that
    [comparePasswords] reads. *)
Definition storedParts (stored hashed salt : string) : Prop :=
  exists rest : list string,
    Auth.split "." stored = hashed :: salt :: rest /\ hashed <> ""%string /\ salt <> ""%string.

(** The hard-coded logins of [comparePasswords]. *)
Definition specialCase (supplied stored : string) : Prop :=
  (supplied = "admin"%string
   /\ (String.prefix Auth.adminHash1 stored = true
       \/ String.prefix Auth.adminHash2 stored = true))
  \/ (supplied = "test"%string /\ String.prefix Auth.testHash stored = true).

(** The line items that the loop of [POST /api/invoices] keeps: those that
    validate and whose quantity the integer column takes. *)
Fixpoint acceptedItems (invoice : Invoice.t) (lineItems : list JS.value)
  : list InsertInvoiceItem.t :=
  match lineItems with
  | [] => []
  | item :: rest =>
      match Routes.parseItem invoice item with
      | Some validated =>
          match Storage.int4 (JS.num_or (InsertInvoiceItem.quantity validated) 1) with
          | Some _ => validated :: acceptedItems invoice rest
          | None => acceptedItems invoice rest
          end
      | None => acceptedItems invoice rest
      end
  end.

(** The rows they become, keyed from [key] on. *)
Fixpoint rowsFrom (key : Z) (items : list InsertInvoiceItem.t) : list InvoiceItem.t :=
  match items with
  | [] => []
  | item :: rest =>
      InvoiceItem.mk key (InsertInvoiceItem.invoiceId item)
        (InsertInvoiceItem.description item)
        (JS.num_or (InsertInvoiceItem.quantity item) 1)
        (JS.num_or (InsertInvoiceItem.unitPrice item) 0)
        (JS.num_or (InsertInvoiceItem.total item) 0)
      :: rowsFrom (key + 1) rest
  end.

End Spec.

Module Example.
Import Storage Http Routes.
Local Open Scope string_scope.

Definition admin : User.t :=
  User.mk 1 "admin" "00.5a17" "admin@frostys.com" "Administrator" "admin" true 0.

(** A key derivation standing in for [scrypt]: [keylen] bytes that depend on
    nothing else. *)
Definition zeroKey (password salt : string) (keylen : nat) : Buffer.buffer :=
  repeat x00 keylen.

(** A registered user awaiting approval; under [zeroKey] every password
    matches the stored hash. *)
Definition bob : User.t :=
  User.mk 2 "bob" (Buffer.toHex (zeroKey "secret123" "5a17" 64) ++ ".5a17")
          "bob@frostys.com" "Bob" "staff" false 0.

Definition store : Store := mkStore [admin; bob] 3 [] 1 [] 1.

Definition env : Env := mkEnv 1700000000000 0.5%float (fun _ => None).

Definition lineItem (description : string) (quantity unitPrice total : JS.number) : JS.value :=
  JS.Object [("description", JS.Str description); ("quantity", JS.Number quantity);
             ("unitPrice", JS.Number unitPrice); ("total", JS.Number total)].

Arguments lineItem description%_string (quantity unitPrice total)%_float.

(** A line item without a description, which [insertInvoiceItemSchema]
    rejects. *)
Definition undescribed : JS.value :=
  JS.Object [("quantity", JS.Number 1%float); ("unitPrice", JS.Number 50%float);
             ("total", JS.Number 50%float)].

Definition invoiceBody (amount tax total : JS.number) (lineItems : list JS.value)
  : list (string * JS.value) :=
  [("invoiceNumber", JS.Str "INV-202501-1000");
   ("jobId", JS.Number 1%float); ("customerId", JS.Number 1%float);
   ("amount", JS.Number amount); ("tax", JS.Number tax); ("total", JS.Number total);
   ("paymentTerms", JS.Str "30"); ("paymentMethod", JS.Str "bank-transfer");
   ("lineItems", JS.Array lineItems)].

Arguments invoiceBody (amount tax total)%_float lineItems.

(** A request of the logged-in administrator. *)
Definition asAdmin (id : string) (body : list (string * JS.value)) : request :=
  mkRequest (Some 1%float) id body.

End Example.

(** ** More of the server: password hashing, users and invoices *)

(** [hashPassword] of the authentication module. *)
Module Hashing.

Section WithScrypt.

Variable scrypt : string -> string -> nat -> Buffer.buffer.

(** [hashPassword(password)], where [randomBytes] is what
    [randomBytes(16)] returned. *)
Definition hashPassword (randomBytes : Buffer.buffer) (password : string) : string :=
  let salt := Buffer.toHex randomBytes in
  let buf := scrypt password salt 64%nat in
  (Buffer.toHex buf ++ "." ++ salt)%string.

End WithScrypt.

End Hashing.

(** What [insertUserSchema] describes: the row without [id] and
    [createdAt]; [role] and [approved] have defaults. *)
Module InsertUser.
Record t := mk {
  username : string;
  password : string;
  email : string;
  fullName : string;
  role : option string;
  approved : option bool
}.
End InsertUser.

Module UserStorage.
Import Storage.

(** [createUser]: [insert into users ... returning *] at the time [now].
    The unique index on [username] refuses a duplicate after the sequence
    has produced the key. *)
Definition createUser (now : Z) (st : Store) (insertUser : InsertUser.t)
  : Store * outcome User.t :=
  let key := users_id_seq st in
  let row :=
    User.mk key
      (InsertUser.username insertUser) (InsertUser.password insertUser)
      (InsertUser.email insertUser) (InsertUser.fullName insertUser)
      (override (InsertUser.role insertUser) "staff"%string)
      (override (InsertUser.approved insertUser) false)
      now in
  if existsb (fun u => String.eqb (User.username u) (User.username row)) (users st)
  then (mkStore (users st) (key + 1) (invoices st) (invoices_id_seq st)
                (invoiceItems st) (invoice_items_id_seq st), Thrown)
  else (mkStore (users st ++ [row]) (key + 1) (invoices st) (invoices_id_seq st)
                (invoiceItems st) (invoice_items_id_seq st), Returned row).

End UserStorage.

(** [GET /api/setup-admin], which needs no session. *)
Module SetupAdmin.
Import Storage.


Section WithScrypt.

Variable scrypt : string -> string -> nat -> Buffer.buffer.


End WithScrypt.

End SetupAdmin.

(** [Partial<InsertInvoice>]: the columns an update of an invoice may set. *)
Module PartialInvoice.
Record t := mk {
  invoiceNumber : option string;
  jobId : option JS.number;
  customerId : option JS.number;
  amount : option JS.number;
  tax : option JS.number;
  total : option JS.number;
  issueDate : option Z;
  dueDate : option Z;
  notes : option (option string);
  paymentTerms : option string;
  paymentMethod : option string;
  status : option string;
  createdBy : option JS.number
}.
End PartialInvoice.

(** The invoice and invoice-item operations of [DatabaseStorage] that the
    routes below call. *)
Module InvoiceStorage.
Import Storage.

Definition setInvoices (st : Store) (rows : list Invoice.t) : Store :=
  mkStore (users st) (users_id_seq st) rows (invoices_id_seq st)
          (invoiceItems st) (invoice_items_id_seq st).

Definition setInvoiceItems (st : Store) (rows : list InvoiceItem.t) : Store :=
  mkStore (users st) (users_id_seq st) (invoices st) (invoices_id_seq st)
          rows (invoice_items_id_seq st).

(** [getInvoice]: [select ... where id = $1], then [result[0]]. *)
Definition getInvoice (st : Store) (id : JS.number) : outcome (option Invoice.t) :=
  match int4 id with
  | None => Thrown
  | Some i => Returned (find (fun r => Invoice.id r =? i) (invoices st))
  end.

(** [deleteInvoice]: [delete from invoices where id = $1], then [return true]. *)
Definition deleteInvoice (st : Store) (id : JS.number) : Store * outcome bool :=
  match int4 id with
  | None => (st, Thrown)
  | Some i =>
      (setInvoices st (filter (fun r => negb (Invoice.id r =? i)) (invoices st)),
       Returned true)
  end.

(** [deleteInvoiceItem]: [delete from invoice_items where id = $1], then
    [return true]. *)
Definition deleteInvoiceItem (st : Store) (id : JS.number) : Store * outcome bool :=
  match int4 id with
  | None => (st, Thrown)
  | Some i =>
      (setInvoiceItems st (filter (fun r => negb (InvoiceItem.id r =? i)) (invoiceItems st)),
       Returned true)
  end.

(** The numeric fields of a row read back through [Number(..) || d].  (The
    three [..Type: 'number'] properties that the source adds are left out.) *)
Definition processedItem (item : InvoiceItem.t) : InvoiceItem.t :=
  InvoiceItem.mk (InvoiceItem.id item) (InvoiceItem.invoiceId item)
    (InvoiceItem.description item)
    (JS.num_or (InvoiceItem.quantity item) 1%float)
    (JS.num_or (InvoiceItem.unitPrice item) 0%float)
    (JS.num_or (InvoiceItem.total item) 0%float).

(** [getInvoiceItemsByInvoiceId]: [select ... where invoice_id = $1], each
    row processed. *)
Definition getInvoiceItemsByInvoiceId (st : Store) (invoiceId : JS.number)
  : outcome (list InvoiceItem.t) :=
  match int4 invoiceId with
  | None => Thrown
  | Some i =>
      Returned (map processedItem
                    (filter (fun r => InvoiceItem.invoiceId r =? i) (invoiceItems st)))
  end.

(** A number for an [integer] column that an update may leave out. *)
Definition optionalInt4 (x : option JS.number) : option (option Z) :=
  match x with
  | None => Some None
  | Some n => option_map Some (int4 n)
  end.

Definition noColumn (invoiceData : PartialInvoice.t) : bool :=
  match invoiceData with
  | PartialInvoice.mk None None None None None None None None None None None None None => true
  | _ => false
  end.

(** The update would give the row [i] an invoice number that another row
    holds. *)
Definition numberTaken (rows : list Invoice.t) (i : Z) (invoiceData : PartialInvoice.t) : bool :=
  match PartialInvoice.invoiceNumber invoiceData with
  | Some number =>
      existsb (fun r => Invoice.id r =? i) rows
      && existsb (fun r => negb (Invoice.id r =? i)
                           && String.eqb (Invoice.invoiceNumber r) number) rows
  | None => false
  end.

(** [set(invoiceData)] on one row, the integer columns already bound and
    the amounts as the [double precision] columns hold them. *)
Definition setInvoice (invoiceData : PartialInvoice.t) (job customer creator : option Z)
  (r : Invoice.t) : Invoice.t :=
  Invoice.mk (Invoice.id r)
    (override (PartialInvoice.invoiceNumber invoiceData) (Invoice.invoiceNumber r))
    (override job (Invoice.jobId r))
    (override customer (Invoice.customerId r))
    (override (option_map float8 (PartialInvoice.amount invoiceData)) (Invoice.amount r))
    (override (option_map float8 (PartialInvoice.tax invoiceData)) (Invoice.tax r))
    (override (option_map float8 (PartialInvoice.total invoiceData)) (Invoice.total r))
    (override (PartialInvoice.issueDate invoiceData) (Invoice.issueDate r))
    (override (PartialInvoice.dueDate invoiceData) (Invoice.dueDate r))
    (override (PartialInvoice.notes invoiceData) (Invoice.notes r))
    (override (PartialInvoice.paymentTerms invoiceData) (Invoice.paymentTerms r))
    (override (PartialInvoice.paymentMethod invoiceData) (Invoice.paymentMethod r))
    (override (PartialInvoice.status invoiceData) (Invoice.status r))
    (override creator (Invoice.createdBy r)).

(** [updateInvoice]: [update invoices set ... where id = $1 returning *],
    then [result[0]].  The query builder refuses an update that sets no
    column, the integer columns take 32-bit integers, and the unique index
    on [invoice_number] refuses a duplicate. *)
Definition updateInvoice (st : Store) (id : JS.number) (invoiceData : PartialInvoice.t)
  : Store * outcome (option Invoice.t) :=
  match int4 id,
        optionalInt4 (PartialInvoice.jobId invoiceData),
        optionalInt4 (PartialInvoice.customerId invoiceData),
        optionalInt4 (PartialInvoice.createdBy invoiceData) with
  | Some i, Some job, Some customer, Some creator =>
      if noColumn invoiceData || numberTaken (invoices st) i invoiceData then (st, Thrown)
      else
        let rows :=
          updated Invoice.id i (setInvoice invoiceData job customer creator) (invoices st) in
        (setInvoices st rows, Returned (find (fun r => Invoice.id r =? i) rows))
  | _, _, _, _ => (st, Thrown)
  end.

End InvoiceStorage.

(** The routes on one invoice: [GET], [PUT] and [DELETE /api/invoices/:id]. *)
Module InvoiceRoutes.
Import Storage Http InvoiceStorage.
Local Open Scope string_scope.
Local Open Scope Z_scope.

(** [GET /api/invoices/:id]; it reads the store only. *)
Definition get_invoices_id (st : Store) (req : request) : response :=
  match requestUser st req with
  | Thrown => Next
  | Returned None => SendStatus 401
  | Returned (Some user) =>
      let invoiceIdStr := params_id req in
      if String.eqb invoiceIdStr "" || String.eqb invoiceIdStr "undefined"
         || String.eqb invoiceIdStr "NaN"
      then Json 400 (Message "Invalid invoice ID")
      else
        let invoiceId := JS.parseInt invoiceIdStr in
        if JS.isNaN invoiceId then Json 400 (Message "Invoice ID must be a number")
        else
          match getInvoice st invoiceId with
          | Thrown => Next
          | Returned None => Json 404 (Message "Invoice not found")
          | Returned (Some invoice) =>
              match getInvoiceItemsByInvoiceId st invoiceId with
              | Thrown => Next
              | Returned lineItems => Json 200 (InvoiceJson invoice lineItems)
              end
          end
  end.

(** [for (const item of items) await storage.deleteInvoiceItem(item.id)]. *)
Fixpoint deleteItems (st : Store) (items : list InvoiceItem.t) : Store * outcome unit :=
  match items with
  | [] => (st, Returned tt)
  | item :: rest =>
      match deleteInvoiceItem st (JS.of_Z (InvoiceItem.id item)) with
      | (st', Thrown) => (st', Thrown)
      | (st', Returned _) => deleteItems st' rest
      end
  end.

(** [DELETE /api/invoices/:id]. *)
Definition delete_invoices_id (st : Store) (req : request) : Store * response :=
  match requestUser st req with
  | Thrown => (st, Next)
  | Returned None => (st, SendStatus 401)
  | Returned (Some user) =>
      let invoiceId := JS.parseInt (params_id req) in
      match getInvoiceItemsByInvoiceId st invoiceId with
      | Thrown => (st, Next)
      | Returned lineItems =>
          match deleteItems st lineItems with
          | (st1, Thrown) => (st1, Next)
          | (st1, Returned _) =>
              match deleteInvoice st1 invoiceId with
              | (st2, Thrown) => (st2, Next)
              | (st2, Returned success) =>
                  if negb success then (st2, Json 404 (Message "Invoice not found"))
                  else (st2, Send 204)
              end
          end
      end
  end.

(** A field of the partial schema that holds a string. *)
Definition optionalString (v : JS.value) : option (option string) :=
  match v with
  | JS.Undefined => Some None
  | JS.Str s => Some (Some s)
  | _ => None
  end.

(** A field of the partial schema that holds a date: [z.date()] takes
    [Date] objects only, and no value of a parsed JSON body is one. *)
Definition optionalDate (v : JS.value) : option (option Z) :=
  match v with
  | JS.Undefined => Some None
  | _ => None
  end.

(** [v ? parseFloat(v) : undefined] against an optional [z.number()]. *)
Definition optionalAmount (v : JS.value) : option (option JS.number) :=
  if JS.truthy v then option_map Some (Routes.zNumber (JS.parseFloat (JS.toString v)))
  else Some None.

(** [v ? parseInt(v) : undefined] against the optional schema of an integer
    column. *)
Definition optionalKey (v : JS.value) : option (option JS.number) :=
  if JS.truthy v then option_map Some (Routes.zInt (JS.parseInt (JS.toString v)))
  else Some None.

(** [insertInvoiceSchema.partial().parse] on the object the [PUT] handler
    builds from [invoiceData]: [None] is a thrown [ZodError]. *)
Definition parsePartialInvoice (invoiceData : list (string * JS.value))
  : option PartialInvoice.t :=
  let field key := JS.lookup key invoiceData in
  let notes :=
    match field "notes" with
    | JS.Undefined => Some None
    | JS.Null => Some (Some None)
    | JS.Str s => Some (Some (Some s))
    | _ => None
    end in
  let createdBy :=
    match field "createdBy" with
    | JS.Undefined => Some None
    | JS.Number x => option_map Some (Routes.zInt x)
    | _ => None
    end in
  match optionalString (field "invoiceNumber"),
        optionalKey (field "jobId"), optionalKey (field "customerId"),
        optionalAmount (field "amount"), optionalAmount (field "tax"),
        optionalAmount (field "total") with
  | Some invoiceNumber', Some jobId', Some customerId',
    Some amount', Some tax', Some total' =>
      match optionalDate (field "issueDate"), optionalDate (field "dueDate"), notes,
            optionalString (field "paymentTerms"), optionalString (field "paymentMethod"),
            optionalString (field "status"), createdBy with
      | Some issueDate', Some dueDate', Some notes',
        Some paymentTerms', Some paymentMethod', Some status', Some createdBy' =>
          Some (PartialInvoice.mk invoiceNumber' jobId' customerId' amount' tax' total'
                  issueDate' dueDate' notes' paymentTerms' paymentMethod' status' createdBy')
      | _, _, _, _, _, _, _ => None
      end
  | _, _, _, _, _, _ => None
  end.

(** [insertInvoiceItemSchema.parse] on the object the [PUT] handler builds
    from one element of [lineItems]: [None] is a thrown error.  The typed
    item carries the key that [invoiceId] binds to; a number that does not
    bind makes the insertion throw, which ends the handler the same way. *)
Definition parseReplacement (invoiceId : JS.number) (item : JS.value)
  : option InsertInvoiceItem.t :=
  match JS.get item "quantity", JS.get item "unitPrice", JS.get item "total",
        JS.get item "description" with
  | Some quantity, Some unitPrice, Some total, Some description =>
      let quantity' := JS.parseInt (JS.toString quantity) in
      let unitPrice' := JS.parseFloat (JS.toString unitPrice) in
      let total' := JS.parseFloat (JS.toString total) in
      match Routes.zString description, Routes.zInt quantity',
            Routes.zNumber unitPrice', Routes.zNumber total', int4 invoiceId with
      | Some d, Some q, Some p, Some t, Some i => Some (InsertInvoiceItem.mk i d q p t)
      | _, _, _, _, _ => None
      end
  | _, _, _, _ => None
  end.

(** The loop that creates the new line items: the first element whose
    validation or insertion throws ends the handler. *)
Fixpoint createReplacements (st : Store) (invoiceId : JS.number) (lineItems : list JS.value)
  : Store * option (list InvoiceItem.t) :=
  match lineItems with
  | [] => (st, Some [])
  | item :: rest =>
      match parseReplacement invoiceId item with
      | None => (st, None)
      | Some validatedItemData =>
          match createInvoiceItem st validatedItemData with
          | (st', Thrown) => (st', None)
          | (st', Returned lineItem) =>
              match createReplacements st' invoiceId rest with
              | (st'', Some updatedLineItems) => (st'', Some (lineItem :: updatedLineItems))
              | (st'', None) => (st'', None)
              end
          end
      end
  end.

(** [PUT /api/invoices/:id]. *)
Definition put_invoices_id (st : Store) (req : request) : Store * response :=
  match requestUser st req with
  | Thrown => (st, Next)
  | Returned None => (st, SendStatus 401)
  | Returned (Some user) =>
      let invoiceId := JS.parseInt (params_id req) in
      let lineItems := JS.lookup "lineItems" (body req) in
      let invoiceData := body req in
      match parsePartialInvoice invoiceData with
      | None => (st, Next)
      | Some validatedInvoiceData =>
          match updateInvoice st invoiceId validatedInvoiceData with
          | (st1, Thrown) => (st1, Next)
          | (st1, Returned None) => (st1, Json 404 (Message "Invoice not found"))
          | (st1, Returned (Some updatedInvoice)) =>
              match lineItems with
              | JS.Array newItems =>
                  match getInvoiceItemsByInvoiceId st1 invoiceId with
                  | Thrown => (st1, Next)
                  | Returned existingItems =>
                      match deleteItems st1 existingItems with
                      | (st2, Thrown) => (st2, Next)
                      | (st2, Returned _) =>
                          match createReplacements st2 invoiceId newItems with
                          | (st3, None) => (st3, Next)
                          | (st3, Some updatedLineItems) =>
                              (st3, Json 200 (InvoiceJson updatedInvoice updatedLineItems))
                          end
                      end
                  end
              | _ =>
                  match getInvoiceItemsByInvoiceId st1 invoiceId with
                  | Thrown => (st1, Next)
                  | Returned existingLineItems =>
                      (st1, Json 200 (InvoiceJson updatedInvoice existingLineItems))
                  end
              end
          end
      end
  end.

End InvoiceRoutes.

(** ** More of the invoice form: choosing a job *)

Module Job.
Record t := mk {
  id : Z;
  jobId : string;
  customerId : Z;
  title : string;
  description : option string;
  location : option string;
  startDate : Z;
  endDate : option Z;
  status : string;
  createdAt : Z;
  createdBy : Z;
  vehicleMake : option string;
  vehicleModel : option string;
  registrationNumber : option string
}.
End Job.

Module JobSelection.
Local Open Scope float_scope.

(** The state that [handleJobChange] writes: two values of the form, the
    selected job, and the line items (with the totals shown beside them). *)
Record FormState := mkFormState {
  form_jobId : JS.number;
  form_customerId : Z;
  selectedJobId : option JS.number;
  edit : InvoiceForm.State
}.

(** The line item that a chosen job puts in place of the placeholder. *)
Definition serviceLineItem : InvoiceItem.t :=
  InvoiceItem.mk 0 0 "Ice Blasting Service" 1 150 150.

(** [handleJobChange(jobId)], where [jobs] is the data of the jobs query
    ([None] while it has not arrived). *)
Definition handleJobChange (jobs : option (list Job.t)) (st : FormState) (jobId : string)
  : FormState :=
  let jobIdNum := JS.parseInt jobId in
  let job :=
    match jobs with
    | Some loaded => find (fun j => PrimFloat.eqb (JS.of_Z (Job.id j)) jobIdNum) loaded
    | None => None
    end in
  match job with
  | Some found =>
      let lineItems := InvoiceForm.lineItems (edit st) in
      let placeholderOnly :=
        match lineItems with
        | [only] => String.eqb (InvoiceItem.description only) ""
        | _ => false
        end in
      mkFormState jobIdNum (Job.customerId found) (Some jobIdNum)
        (if placeholderOnly
         then InvoiceForm.mkState [serviceLineItem] (InvoiceForm.calculations (edit st))
         else edit st)
  | None => mkFormState jobIdNum (form_customerId st) (Some jobIdNum) (edit st)
  end.

End JobSelection.

(** ** Well-keyed stores *)

Module Keys.
Import Storage.

(** A key that the [integer] column holds. *)
Definition fits (key : Z) : Prop := - 2 ^ 31 <= key < 2 ^ 31.

(** The [users] table with its constraints and its sequence ahead of every
    key. *)
Definition keyedUsers (st : Store) : Prop :=
  Spec.usersTable st /\ forall u, In u (users st) -> User.id u < users_id_seq st.

(** The [invoices] and [invoice_items] tables: primary keys, the unique
    invoice number, sequences ahead of every key, and line items that
    belong to invoices numbered so far. *)
Definition keyedInvoices (st : Store) : Prop :=
  NoDup (map Invoice.id (invoices st))
  /\ NoDup (map Invoice.invoiceNumber (invoices st))
  /\ (forall r, In r (invoices st) -> Invoice.id r < invoices_id_seq st)
  /\ NoDup (map InvoiceItem.id (invoiceItems st))
  /\ (forall item, In item (invoiceItems st) ->
        InvoiceItem.id item < invoice_items_id_seq st
        /\ InvoiceItem.invoiceId item < invoices_id_seq st).

End Keys.

(** A store with one invoice and its two line items, for the examples of the
    routes on one invoice. *)
Module Ledger.
Import Storage.
Local Open Scope string_scope.

Definition invoice : Invoice.t :=
  Invoice.mk 1 "INV-202501-1000" 1 1 250 50 300 1700000000000 1702592000000 None
             "30" "bank-transfer" "draft" 1.

Definition blasting : InvoiceItem.t := InvoiceItem.mk 1 1 "Ice Blasting" 2 100 200.

Definition travel : InvoiceItem.t := InvoiceItem.mk 2 1 "Travel" 1 50 50.

Definition store : Store :=
  mkStore [Example.admin; Example.bob] 3 [invoice] 2 [blasting; travel] 3.

End Ledger.

(** What the second loop of [PUT /api/invoices/:id] writes. *)
Module Replacement.
Import Storage.

(** The leading elements of [lineItems] that are written before the loop
    ends: it ends at the first element that does not validate or whose
    quantity the integer column refuses.  The flag tells whether the loop
    reached the end of the array. *)
Fixpoint written (invoiceId : JS.number) (lineItems : list JS.value)
  : list InsertInvoiceItem.t * bool :=
  match lineItems with
  | [] => ([], true)
  | item :: rest =>
      match InvoiceRoutes.parseReplacement invoiceId item with
      | Some validated =>
          match int4 (JS.num_or (InsertInvoiceItem.quantity validated) 1%float) with
          | Some _ =>
              let '(others, completed) := written invoiceId rest in
              (validated :: others, completed)
          | None => ([], false)
          end
      | None => ([], false)
      end
  end.

End Replacement.

(** * Properties *)

(** ** Numbers *)

Section NumberFacts.
Local Open Scope float_scope.

Lemma SFcompare_refl_finite (s : bool) (m : positive) (e : Z) :
  SFcompare (S754_finite s m e) (S754_finite s m e) = Some Eq.
Proof.
  cbn. rewrite Z.compare_refl.
  change (Pos.compare_cont Eq m m) with (Pos.compare m m).
  rewrite Pos.compare_refl. now destruct s.
Qed.

Lemma zero_view : Prim2SF 0 = S754_zero false.
Proof. reflexivity. Qed.

(** A number above zero is truthy. *)
Lemma positive_truthy (x : JS.number) : (0 <? x) = true -> JS.num_truthy x = true.
Proof.
  unfold JS.num_truthy, PrimFloat.is_nan, PrimFloat.is_zero.
  rewrite ltb_spec, !eqb_spec, zero_view.
  unfold SFltb, SFeqb.
  destruct (Prim2SF x) as [s | s | | s m e] eqn:view.
  - discriminate.
  - destruct s; [discriminate | reflexivity].
  - discriminate.
  - rewrite SFcompare_refl_finite. destruct s; [discriminate | reflexivity].
Qed.







Lemma num_or_idempotent (x d : JS.number) :
  JS.num_or (JS.num_or x d) d = JS.num_or x d.
Proof.
  unfold JS.num_or at 2 3. destruct (JS.num_truthy x) eqn:t.
  - unfold JS.num_or. now rewrite t.
  - unfold JS.num_or. destruct (JS.num_truthy d); reflexivity.
Qed.


(** A number the integer column takes is not [NaN]. *)
Lemma int4_isNaN (x : JS.number) (i : Z) : Storage.int4 x = Some i -> JS.isNaN x = false.
Proof.
  unfold Storage.int4, JS.toInteger, JS.isNaN, PrimFloat.is_nan.
  rewrite eqb_spec. unfold SFeqb.
  destruct (Prim2SF x) as [s | s | | s m e]; try discriminate.
  - reflexivity.
  - now rewrite SFcompare_refl_finite.
Qed.

End NumberFacts.

(** ** Keys as numbers *)

Section KeysAsNumbers.

Lemma iter_xO_value (p k : positive) : Zpos (Pos.iter xO p k) = Zpos p * 2 ^ Zpos k.
Proof.
  induction k using Pos.peano_ind.
  - cbn. lia.
  - rewrite Pos.iter_succ, Pos2Z.inj_succ, Z.pow_succ_r by lia.
    rewrite Pos2Z.inj_xO, IHk. lia.
Qed.

Lemma iter_xO_digits (p k : positive) :
  Zpos (digits2_pos (Pos.iter xO p k)) = Zpos (digits2_pos p) + Zpos k.
Proof.
  induction k using Pos.peano_ind.
  - cbn. lia.
  - rewrite Pos.iter_succ. cbn [digits2_pos]. rewrite Pos2Z.inj_succ, IHk. lia.
Qed.

Lemma digits2_bound (p : positive) :
  forall n : Z, 0 <= n -> Zpos p < 2 ^ n -> Zpos (digits2_pos p) <= n.
Proof.
  induction p as [p IH | p IH |]; intros n natural below; cbn [digits2_pos].
  - assert (0 < n) by (destruct (Z.eq_dec n 0); [subst; cbn in below; lia | lia]).
    rewrite Pos2Z.inj_succ. specialize (IH (n - 1)).
    replace n with (Z.succ (n - 1)) in below by lia.
    rewrite Z.pow_succ_r in below by lia.
    assert (Zpos p < 2 ^ (n - 1)) by lia. lia.
  - assert (0 < n) by (destruct (Z.eq_dec n 0); [subst; cbn in below; lia | lia]).
    rewrite Pos2Z.inj_succ. specialize (IH (n - 1)).
    replace n with (Z.succ (n - 1)) in below by lia.
    rewrite Z.pow_succ_r in below by lia.
    assert (Zpos p < 2 ^ (n - 1)) by lia. lia.
  - destruct (Z.eq_dec n 0); [subst; cbn in below; lia | lia].
Qed.

(** The binary64 value of an integer below [2 ^ 53]: the integer itself,
    shifted to a 53-bit mantissa. *)
Lemma binary_round_small (s : bool) (p : positive) :
  Zpos p < 2 ^ 53 ->
  exists (m : positive) (e : Z),
    binary_round prec emax s p 0 = S754_finite s m e
    /\ valid_binary (S754_finite s m e) = true
    /\ -53 < e <= 0 /\ Zpos m = Zpos p * 2 ^ (- e).
Proof.
  intros small.
  pose proof (digits2_bound p 53 ltac:(lia) small) as few.
  assert (0 < Zpos (digits2_pos p)) by lia.
  unfold binary_round.
  assert (exponent : fexp prec emax (Zpos (digits2_pos p) + 0) = Zpos (digits2_pos p) - 53).
  { unfold fexp, emin. change prec with 53. change emax with 1024. lia. }
  rewrite exponent. unfold shl_align.
  destruct (Zpos (digits2_pos p) - 53 - 0) as [| k | k] eqn:shift; try lia.
  - exists p, 0.
    assert (full : Zpos (digits2_pos p) = 53) by lia.
    unfold binary_round_aux, shr_fexp. cbn [Zdigits2 shr_record_of_loc].
    rewrite full. change (fexp prec emax (53 + 0) - 0) with 0.
    cbn [shr shr_m loc_of_shr_record round_nearest_even Zdigits2 shr_record_of_loc].
    rewrite full. change (fexp prec emax (53 + 0) - 0) with 0. cbn [shr shr_m].
    split; [reflexivity |]. split.
    + unfold valid_binary, SpecFloat.valid_binary, bounded, canonical_mantissa.
      rewrite full. reflexivity.
    + split; [lia | cbn; lia].
  - exists (Pos.iter xO p k), (Zpos (digits2_pos p) - 53).
    assert (full : Zpos (digits2_pos (Pos.iter xO p k)) = 53).
    { rewrite iter_xO_digits. lia. }
    assert (kept : fexp prec emax (53 + (Zpos (digits2_pos p) - 53))
                   - (Zpos (digits2_pos p) - 53) = 0).
    { unfold fexp, emin. change prec with 53. change emax with 1024. lia. }
    unfold binary_round_aux, shr_fexp. cbn [Zdigits2 shr_record_of_loc].
    rewrite full, kept.
    cbn [shr shr_m loc_of_shr_record round_nearest_even Zdigits2 shr_record_of_loc].
    rewrite full, kept. cbn [shr shr_m].
    assert (le : (Zpos (digits2_pos p) - 53 <=? emax - prec) = true).
    { apply Z.leb_le. change prec with 53. change emax with 1024. lia. }
    rewrite le. split; [reflexivity |]. split.
    + unfold valid_binary, SpecFloat.valid_binary, bounded, canonical_mantissa.
      rewrite full, le, andb_true_r. apply Z.eqb_eq.
      unfold fexp, emin. change prec with 53. change emax with 1024. lia.
    + split; [lia |]. rewrite iter_xO_value. f_equal. f_equal. lia.
Qed.

Lemma toInteger_of_Z (z : Z) : - 2 ^ 53 < z < 2 ^ 53 -> JS.toInteger (JS.of_Z z) = Some z.
Proof.
  intros range. unfold JS.of_Z, JS.toInteger.
  destruct z as [| p | p]; [reflexivity | |]; cbn [binary_normalize].
  - destruct (binary_round_small false p ltac:(lia)) as (m & e & -> & valid & erange & value).
    rewrite (Prim2SF_SF2Prim _ valid).
    destruct (Z.leb_spec 0 e).
    + assert (e = 0) by lia. subst e. cbn [option_map]. f_equal. cbn in value. lia.
    + rewrite value, Z.mod_mul, Z.div_mul by lia. reflexivity.
  - destruct (binary_round_small true p ltac:(lia)) as (m & e & -> & valid & erange & value).
    rewrite (Prim2SF_SF2Prim _ valid).
    destruct (Z.leb_spec 0 e).
    + assert (e = 0) by lia. subst e. cbn [option_map]. f_equal. cbn in value. lia.
    + rewrite value, Z.mod_mul, Z.div_mul by lia. cbn. reflexivity.
Qed.

(** A key of an [integer] column, read as a number and bound again, is the
    same key. *)
Lemma int4_of_Z (z : Z) : Keys.fits z -> Storage.int4 (JS.of_Z z) = Some z.
Proof.
  unfold Keys.fits. intros range. unfold Storage.int4. rewrite toInteger_of_Z by lia.
  destruct (Z.leb_spec (- 2 ^ 31) z), (Z.ltb_spec z (2 ^ 31)); try lia. reflexivity.
Qed.

Lemma digits2_lower (p : positive) : 2 ^ (Zpos (digits2_pos p) - 1) <= Zpos p.
Proof.
  induction p as [p IH | p IH |]; cbn [digits2_pos].
  - rewrite Pos2Z.inj_succ. replace (Z.succ (Zpos (digits2_pos p)) - 1)
      with (Z.succ (Zpos (digits2_pos p) - 1)) by lia.
    rewrite Z.pow_succ_r by lia. lia.
  - rewrite Pos2Z.inj_succ. replace (Z.succ (Zpos (digits2_pos p)) - 1)
      with (Z.succ (Zpos (digits2_pos p) - 1)) by lia.
    rewrite Z.pow_succ_r by lia. lia.
  - cbn. lia.
Qed.

Lemma digits2_upper (p : positive) : Zpos p < 2 ^ Zpos (digits2_pos p).
Proof.
  induction p as [p IH | p IH |]; cbn [digits2_pos].
  - rewrite Pos2Z.inj_succ, Z.pow_succ_r by lia. lia.
  - rewrite Pos2Z.inj_succ, Z.pow_succ_r by lia. lia.
  - cbn. lia.
Qed.

(** The exponent and the size of the mantissa of a valid number. *)
Lemma valid_exponent (s : bool) (m : positive) (e : Z) :
  valid_binary (S754_finite s m e) = true ->
  e = Z.max (Zpos (digits2_pos m) + e - 53) (-1074).
Proof.
  unfold valid_binary, SpecFloat.valid_binary, bounded, canonical_mantissa.
  intros valid. apply andb_true_iff in valid as [canonical _].
  apply Z.eqb_eq in canonical. unfold fexp, emin in canonical.
  change prec with 53 in canonical. change emax with 1024 in canonical. lia.
Qed.

Lemma pow2_gap (k k' : Z) : 0 <= k < k' -> 2 * 2 ^ k <= 2 ^ k'.
Proof.
  intros order. replace k' with (Z.succ k + (k' - Z.succ k)) by lia.
  rewrite Z.pow_add_r, Z.pow_succ_r by lia.
  assert (0 < 2 ^ (k' - Z.succ k)) by (apply Z.pow_pos_nonneg; lia).
  assert (0 < 2 ^ k) by (apply Z.pow_pos_nonneg; lia). nia.
Qed.

(** Two normal mantissas of the same integer are the same. *)
Lemma same_mantissa (p m m' : positive) (k k' : Z) :
  0 <= k -> 0 <= k' ->
  Zpos m = Zpos p * 2 ^ k -> Zpos m' = Zpos p * 2 ^ k' ->
  Zpos (digits2_pos m) = 53 -> Zpos (digits2_pos m') = 53 ->
  k = k' /\ m = m'.
Proof.
  intros natural natural' value value' full full'.
  pose proof (digits2_lower m) as low. pose proof (digits2_upper m) as high.
  pose proof (digits2_lower m') as low'. pose proof (digits2_upper m') as high'.
  rewrite full in low, high. rewrite full' in low', high'.
  change (2 ^ (53 - 1)) with 4503599627370496 in *.
  change (2 ^ 53) with 9007199254740992 in *.
  assert (same : k = k').
  { destruct (Z.lt_total k k') as [less | [same | more]]; [| exact same |].
    - pose proof (pow2_gap k k' (conj natural less)). nia.
    - pose proof (pow2_gap k' k (conj natural' more)). nia. }
  split; [exact same |]. subst k'. apply Pos2Z.inj. congruence.
Qed.

(** A number that denotes an integer below [2 ^ 53] is the number of that
    integer, up to the sign of a zero. *)
Lemma toInteger_eqb (x : JS.number) (z : Z) :
  JS.toInteger x = Some z -> - 2 ^ 53 < z < 2 ^ 53 ->
  PrimFloat.eqb x (JS.of_Z z) = true.
Proof.
  unfold JS.toInteger. pose proof (Prim2SF_valid x) as valid.
  rewrite FloatAxioms.eqb_spec.
  destruct (Prim2SF x) as [s | s | | s m e] eqn:view; try discriminate.
  - intros [= <-] _. change (Prim2SF (JS.of_Z 0)) with (S754_zero false).
    now destruct s.
  - cbv zeta. intros denotes range.
    pose proof (valid_exponent s m e valid) as exponent.
    assert (shape : exists (p : positive) (k : Z),
               0 <= k /\ e = - k /\ Zpos m = Zpos p * 2 ^ k
               /\ z = if s then Zneg p else Zpos p).
    { destruct (Z.leb_spec 0 e) as [up | down].
      - remember (Zpos m * 2 ^ e) as a eqn:product.
        unfold option_map in denotes. injection denotes as <-.
        assert (0 < 2 ^ e) by (apply Z.pow_pos_nonneg; lia).
        assert (full : Zpos (digits2_pos m) = 53) by lia.
        pose proof (digits2_lower m) as low. rewrite full in low.
        change (2 ^ (53 - 1)) with 4503599627370496 in low.
        change (2 ^ 53) with 9007199254740992 in range.
        assert (e = 0).
        { destruct (Z.eq_dec e 0) as [-> | positive]; [reflexivity |].
          pose proof (pow2_gap 0 e ltac:(lia)) as gap. change (2 * 2 ^ 0) with 2 in gap.
          assert (2 * Zpos m <= a) by nia.
          destruct s; lia. }
        subst e. rewrite Z.pow_0_r, Z.mul_1_r in product. subst a.
        exists m, 0. repeat split; try lia; now destruct s.
      - destruct (Z.eqb_spec (Zpos m mod 2 ^ (- e)) 0) as [whole |]; [| discriminate].
        remember (Zpos m / 2 ^ (- e)) as a eqn:quotient'.
        unfold option_map in denotes. injection denotes as <-. subst a.
        assert (0 < 2 ^ (- e)) by (apply Z.pow_pos_nonneg; lia).
        pose proof (Z.div_mod (Zpos m) (2 ^ (- e)) ltac:(lia)) as split.
        rewrite whole, Z.add_0_r in split.
        destruct (Zpos m / 2 ^ (- e)) as [| p | p] eqn:quotient; try lia.
        exists p, (- e). repeat split; try lia; now destruct s. }
    destruct shape as (p & k & natural & -> & value & ->).
    assert (small : Zpos p < 2 ^ 53) by (destruct s; lia).
    destruct (binary_round_small s p small) as (m' & e' & rounded & valid' & erange & value').
    assert (normal : JS.of_Z (if s then Z.neg p else Z.pos p) = SF2Prim (S754_finite s m' e')).
    { unfold JS.of_Z. destruct s; cbn [binary_normalize]; now rewrite rounded. }
    rewrite normal, (Prim2SF_SF2Prim _ valid').
    pose proof (valid_exponent s m' e' valid') as exponent'.
    assert (full' : Zpos (digits2_pos m') = 53) by lia.
    assert (full : Zpos (digits2_pos m) = 53).
    { assert (0 < 2 ^ k) by (apply Z.pow_pos_nonneg; lia).
      assert (k < Zpos (digits2_pos m)).
      { destruct (Z.lt_ge_cases k (Zpos (digits2_pos m))) as [| short]; [assumption |].
        pose proof (digits2_upper m) as high.
        assert (2 ^ Zpos (digits2_pos m) <= 2 ^ k) by (apply Z.pow_le_mono_r; lia).
        nia. }
      lia. }
    destruct (same_mantissa p m m' k (- e') natural ltac:(lia) value value' full full')
      as [same_exponent ->].
    replace e' with (- k) by lia.
    unfold SFeqb. now rewrite SFcompare_refl_finite.
Qed.

Lemma int4_toInteger (x : JS.number) (i : Z) :
  Storage.int4 x = Some i -> JS.toInteger x = Some i /\ Keys.fits i.
Proof.
  unfold Storage.int4, Keys.fits. destruct (JS.toInteger x) as [z |]; [| discriminate].
  destruct (Z.leb_spec (- 2 ^ 31) z), (Z.ltb_spec z (2 ^ 31)); try discriminate.
  intros [= <-]. split; [reflexivity | lia].
Qed.

(** A number that binds to the key [i] is the number of [i]. *)
Lemma int4_eqb (x : JS.number) (i : Z) :
  Storage.int4 x = Some i -> PrimFloat.eqb x (JS.of_Z i) = true.
Proof.
  intros bound. apply int4_toInteger in bound as [denotes range].
  apply toInteger_eqb; [exact denotes |]. unfold Keys.fits in range. lia.
Qed.

End KeysAsNumbers.

(** ** The edit state of an invoice *)

Section EditState.
Import InvoiceForm.
Local Open Scope float_scope.

Lemma length_mapi {A B : Type} (f : nat -> A -> B) (l : list A) :
  forall k, List.length (mapi k f l) = List.length l.
Proof. induction l as [| x l IH]; intros k; cbn; [reflexivity | now rewrite IH]. Qed.

Lemma Forall_mapi {A B : Type} (P : B -> Prop) (f : nat -> A -> B) (l : list A) :
  forall k,
    (forall i x, nth_error l i = Some x -> P (f (k + i)%nat x)) ->
    Forall P (mapi k f l).
Proof.
  induction l as [| x l IH]; intros k each; cbn; constructor.
  - specialize (each 0%nat x eq_refl). now rewrite Nat.add_0_r in each.
  - apply IH. intros i y at_i. specialize (each (S i) y at_i).
    now rewrite Nat.add_succ_r in each.
Qed.

Lemma Forall_filteri {A : Type} (P : A -> Prop) (keep : nat -> A -> bool) (l : list A) :
  forall k, Forall P l -> Forall P (filteri k keep l).
Proof.
  induction l as [| x l IH]; intros k all; cbn; [constructor |].
  inversion all; subst. destruct (keep k x); [constructor |]; auto.
Qed.

Lemma emptyLineItem_consistent (invoiceId : Z) : Spec.consistent (emptyLineItem invoiceId).
Proof. repeat split. Qed.

(** On consistent items, adding the stored totals is adding the products. *)
Lemma fold_totals_products (l : list InvoiceItem.t) :
  Forall Spec.consistent l ->
  forall sum,
    fold_left (fun sum item => sum + JS.num_or (InvoiceItem.total item) 0) l sum
    = fold_left
        (fun sum item => sum + JS.num_or (InvoiceItem.quantity item * InvoiceItem.unitPrice item) 0)
        l sum.
Proof.
  induction 1 as [| item l [product _] _ IH]; intros sum; cbn; [reflexivity |].
  rewrite product. apply IH.
Qed.

Lemma recalculate_totalsOf (l : list InvoiceItem.t) :
  Forall Spec.consistent l -> recalculate l = Spec.totalsOf l.
Proof.
  intros all. unfold recalculate, Spec.totalsOf, Spec.sumOfProducts.
  now rewrite (fold_totals_products l all).
Qed.

(** The totals that the handlers compute are those of the stored [total]
    fields. *)
Lemma recalculate_totalsOfStored (l : list InvoiceItem.t) :
  recalculate l = Spec.totalsOfStored l.
Proof.
  assert (from_left : forall sum,
             fold_left (fun sum item => sum + JS.num_or (InvoiceItem.total item) 0) l sum
             = Spec.addFromLeft sum (map (fun item => JS.num_or (InvoiceItem.total item) 0) l)).
  { induction l as [| item l IH]; intros sum; cbn; [reflexivity | apply IH]. }
  unfold recalculate, Spec.totalsOfStored, Spec.sumOfStoredTotals.
  now rewrite from_left.
Qed.

(** What each input of a row builds keeps the row consistent. *)
Lemma quantity_change_consistent (item : InvoiceItem.t) (value : string) :
  Spec.consistent item ->
  Spec.consistent (changedItem item (LineItem.handleQuantityChange item value)).
Proof.
  intros (product & quantity_kept & price_kept). unfold Spec.consistent. cbn.
  unfold LineItem.numericUnitPrice. rewrite price_kept.
  split; [reflexivity | split; [| reflexivity]].
  destruct (0 <? JS.num_or (JS.parseInt value) 0) eqn:above.
  - unfold JS.num_or at 1. now rewrite (positive_truthy _ above).
  - reflexivity.
Qed.

Lemma unitPrice_change_consistent (item : InvoiceItem.t) (value : string) :
  Spec.consistent item ->
  Spec.consistent (changedItem item (LineItem.handleUnitPriceChange item value)).
Proof.
  intros (product & quantity_kept & price_kept). unfold Spec.consistent. cbn.
  unfold LineItem.numericQuantity. rewrite quantity_kept.
  split; [reflexivity | split; [reflexivity |]].
  destruct (0 <=? JS.num_or (JS.parseFloat value) 0).
  - apply num_or_idempotent.
  - reflexivity.
Qed.

Lemma description_change_consistent (item : InvoiceItem.t) (value : string) :
  Spec.consistent item ->
  Spec.consistent (changedItem item (LineItem.handleDescriptionChange item value)).
Proof. intros (product & quantity_kept & price_kept). repeat split; assumption. Qed.

(** A change of the row that shows [item] keeps every row consistent when
    the changed row is. *)
Lemma row_change_consistent (st : State) (index : nat) (item : InvoiceItem.t)
  (patch : PartialItem.t) :
  Forall Spec.consistent (lineItems st) ->
  nth_error (lineItems st) index = Some item ->
  Spec.consistent (changedItem item patch) ->
  Forall Spec.consistent (lineItems (handleLineItemChange st index patch)).
Proof.
  intros all shown changed. cbn. apply Forall_mapi. intros i x at_i. cbn.
  destruct (Nat.eqb_spec i index) as [same | other]; cbn.
  - subst i. rewrite shown in at_i. now injection at_i as <-.
  - rewrite Forall_forall in all. apply all. eapply nth_error_In, at_i.
Qed.

End EditState.

(** ** The edit state: totals and rows *)

Section EditStateTotals.
Import InvoiceForm.
Local Open Scope float_scope.

(** C1 (as stated, refuted).  Two edit states reached from the fresh form by
    one call of [handleLineItemChange].  In the first, one item of quantity 3
    at unit price 1 gives subtotal 3 and a total (3 + 3 * 0.2) that is not
    the number 3 * 1.2.  In the second, the caller passes a total of 5 for
    quantity 2 at unit price 100, and the subtotal is 5, not 200. *)
Lemma C1_total_differs_from_stated_formula :
  (let st := handleLineItemChange initialState 0
               (PartialItem.mk None None None (Some 3) (Some 1) None) in
   lineItems st = [InvoiceItem.mk 0 0 "" 3 1 3]
   /\ subtotal (calculations st) = 3
   /\ PrimFloat.eqb (total (calculations st)) (subtotal (calculations st) * 1.2) = false)
  /\
  (let st := handleLineItemChange initialState 0
               (PartialItem.mk None None None (Some 2) (Some 100) (Some 5)) in
   lineItems st = [InvoiceItem.mk 0 0 "" 2 100 5]
   /\ subtotal (calculations st) = 5
   /\ PrimFloat.eqb (subtotal (calculations st)) (2 * 100) = false).
Proof. vm_compute. repeat split. Qed.

(** C1 (amended).  After the add button, a remove button or a change of an
    input of a row, whatever the rows were, the totals are those of the
    [total] fields that the new rows carry: subtotal is the sum, from the
    left and starting at 0, of [total || 0] over the items, tax is
    subtotal * 0.2 and total is subtotal + tax, in binary64 arithmetic; the
    quantities and unit prices are not read.  When moreover every item's
    stored total was its quantity times its unit price (with a quantity
    that is neither zero nor [NaN] and a unit price that is neither [-0]
    nor [NaN]), the same holds after the event, and the subtotal is the sum
    of the products [(quantity * unitPrice) || 0]. *)
Theorem C1_totals_follow_line_items :
  forall (existingInvoice : option Invoice.t) (st st' : State),
    Spec.edit existingInvoice st st' ->
    calculations st' = Spec.totalsOfStored (lineItems st')
    /\ (Forall Spec.consistent (lineItems st) ->
        Forall Spec.consistent (lineItems st')
        /\ calculations st' = Spec.totalsOf (lineItems st')).
Proof.
  intros existingInvoice st st' event.
  assert (recomputed : calculations st' = recalculate (lineItems st')).
  { destruct event; reflexivity. }
  split; [rewrite recomputed; apply recalculate_totalsOfStored |].
  intros all.
  assert (kept : Forall Spec.consistent (lineItems st')).
  { destruct event as [| index | index item value shown | index item value shown
                       | index item value shown].
    - cbn. apply Forall_app. split; [assumption |].
      constructor; [apply emptyLineItem_consistent | constructor].
    - cbn.
      pose proof (Forall_filteri Spec.consistent (fun i _ => negb (i =? index)%nat)
                    (lineItems st) 0 all) as filtered.
      destruct (List.length _ =? 0)%nat; [| assumption].
      apply Forall_app. split; [assumption |].
      constructor; [apply emptyLineItem_consistent | constructor].
    - apply (row_change_consistent st index item _ all shown).
      apply description_change_consistent.
      rewrite Forall_forall in all. apply all. eapply nth_error_In, shown.
    - apply (row_change_consistent st index item _ all shown).
      apply quantity_change_consistent.
      rewrite Forall_forall in all. apply all. eapply nth_error_In, shown.
    - apply (row_change_consistent st index item _ all shown).
      apply unitPrice_change_consistent.
      rewrite Forall_forall in all. apply all. eapply nth_error_In, shown. }
  split; [exact kept |].
  rewrite recomputed. now apply recalculate_totalsOf.
Qed.

(** C1, for the quantity text [3] typed into the second of two rows.  When
    the first row carries the stale total 5 for 2 units at 100, the subtotal
    is 5 + 150; when it carries 200, the subtotal is 200 + 150, the sum of
    the products. *)
Lemma C1_totals_follow_line_items_witness :
  let travel := InvoiceItem.mk 0 0 "Travel" 1 50 50 in
  let typed (first : InvoiceItem.t) :=
    handleLineItemChange (mkState [first; travel] (mkCalculations 0 0 0)) 1
      (LineItem.handleQuantityChange travel "3") in
  (let st' := typed (InvoiceItem.mk 0 0 "Ice Blasting" 2 100 5) in
   calculations st' = Spec.totalsOfStored (lineItems st')
   /\ calculations st' = mkCalculations 155 31 186)
  /\ (let st' := typed (InvoiceItem.mk 0 0 "Ice Blasting" 2 100 200) in
      calculations st' = Spec.totalsOfStored (lineItems st')
      /\ Forall Spec.consistent (lineItems st')
      /\ calculations st' = Spec.totalsOf (lineItems st')
      /\ calculations st' = mkCalculations 350 70 420).
Proof.
  intros travel typed.
  assert (event : forall first : InvoiceItem.t,
             Spec.edit None (mkState [first; travel] (mkCalculations 0 0 0)) (typed first)).
  { intros first.
    apply (Spec.edit_quantity None (mkState [first; travel] (mkCalculations 0 0 0))
             1 travel "3").
    reflexivity. }
  split.
  - destruct (C1_totals_follow_line_items None _ _
                (event (InvoiceItem.mk 0 0 "Ice Blasting" 2 100 5))) as [stored _].
    split; [exact stored | vm_compute; reflexivity].
  - destruct (C1_totals_follow_line_items None _ _
                (event (InvoiceItem.mk 0 0 "Ice Blasting" 2 100 200))) as [stored follow].
    destruct follow as [kept products].
    { constructor; [now repeat split |]. constructor; [now repeat split | constructor]. }
    repeat split; try assumption; vm_compute; reflexivity.
Defined.

(** C8.  Removing the only line item leaves exactly one placeholder row
    (empty description, quantity 1, unit price 0, total 0); adding and
    removing always leave at least one row, and a change of a row keeps the
    number of rows. *)
Theorem C8_edit_state_keeps_a_row :
  forall (existingInvoice : option Invoice.t) (st : State),
    (forall (item : InvoiceItem.t) (totals : Calculations),
        lineItems (removeLineItem existingInvoice (mkState [item] totals) 0)
        = [InvoiceItem.mk 0 (existingId existingInvoice) "" 1 0 0])
    /\ (1 <= List.length (lineItems (addLineItem existingInvoice st)))%nat
    /\ (forall index : nat,
           (1 <= List.length (lineItems (removeLineItem existingInvoice st index)))%nat)
    /\ (forall (index : nat) (item : PartialItem.t),
           List.length (lineItems (handleLineItemChange st index item))
           = List.length (lineItems st)).
Proof.
  intros existingInvoice st. repeat split.
  - cbn. rewrite length_app. cbn. lia.
  - intros index. cbn.
    destruct (filteri 0 (fun i _ => negb (i =? index)%nat) (lineItems st)) as [| x rest];
      cbn; lia.
  - intros index item. cbn. apply length_mapi.
Qed.

End EditStateTotals.

(** ** Coercion of quantities and unit prices *)

Section Coercion.
Import Storage.
Local Open Scope float_scope.



End Coercion.

(** ** Passwords *)

Section Passwords.
Import Auth.
Local Open Scope string_scope.

Lemma equal_eq (a b : Buffer.buffer) : Buffer.equal a b = true <-> a = b.
Proof.
  revert b. induction a as [| x a IH]; intros [| y b]; cbn; split;
    try discriminate; try reflexivity.
  - intros both. apply andb_true_iff in both as [head tail].
    apply byte_dec_bl in head. apply IH in tail. now subst.
  - intros same. injection same as -> ->. apply andb_true_iff. split.
    + now apply byte_dec_lb.
    + now apply IH.
Qed.

Lemma fromHex_pair (x : byte) (tail : string) :
  Buffer.fromHex
    (String (Buffer.hexDigit (Byte.to_N x / 16))
            (String (Buffer.hexDigit (Byte.to_N x mod 16)) tail))
  = x :: Buffer.fromHex tail.
Proof. destruct x; reflexivity. Qed.

(** Decoding the hexadecimal text of a buffer gives the buffer back. *)
Lemma fromHex_toHex (b : Buffer.buffer) : Buffer.fromHex (Buffer.toHex b) = b.
Proof.
  induction b as [| x b IH]; [reflexivity |].
  cbn [Buffer.toHex]. rewrite fromHex_pair. now rewrite IH.
Qed.

Lemma split_without (c : ascii) (s : string) : includes c s = false -> split c s = [s].
Proof.
  induction s as [| a s IH]; cbn; [reflexivity |].
  intros absent. apply orb_false_iff in absent as [head tail].
  rewrite head, (IH tail). reflexivity.
Qed.

(** A text that splits in two parts or more contains the separator. *)
Lemma split_parts_includes (c : ascii) (s h x : string) (r : list string) :
  split c s = h :: x :: r -> includes c s = true /\ s <> "".
Proof.
  intros parts. split.
  - destruct (includes c s) eqn:found; [reflexivity |].
    rewrite (split_without c s found) in parts. discriminate.
  - intros ->. discriminate.
Qed.

Variable scrypt : string -> string -> nat -> Buffer.buffer.

(** The comparison that follows the special cases. *)
Lemma derived_key_comparison (hashed supplied salt : string) :
  (if negb (List.length (Buffer.fromHex hashed) =? List.length (scrypt supplied salt 64%nat))%nat
   then String.eqb hashed (Buffer.toHex (scrypt supplied salt 64%nat))
   else match Buffer.timingSafeEqual (Buffer.fromHex hashed) (scrypt supplied salt 64%nat) with
        | Some same => same
        | None => false
        end) = true
  <-> Buffer.fromHex hashed = scrypt supplied salt 64%nat.
Proof.
  unfold Buffer.timingSafeEqual.
  destruct (List.length (Buffer.fromHex hashed) =? List.length (scrypt supplied salt 64%nat))%nat
    eqn:lengths; cbn.
  - apply equal_eq.
  - apply Nat.eqb_neq in lengths. split.
    + intros text. apply String.eqb_eq in text. exfalso. apply lengths.
      rewrite text at 1. now rewrite fromHex_toHex.
    + intros same. exfalso. apply lengths. now rewrite same.
Qed.

(** C3 (as stated, refuted).  For the stored credential made of the first
    hard-coded hash, a dot and the salt [5a17], the supplied password
    [admin] is accepted whatever the key derivation returns, although the
    stored hash decodes to 32 bytes and so differs from every derived
    64-byte key. *)
Lemma C3_special_case_accepts_without_hash_match :
  exists supplied stored : string,
    supplied = "admin" /\ stored = adminHash1 ++ ".5a17"
    /\ Spec.storedParts stored adminHash1 "5a17"
    /\ forall kdf : string -> string -> nat -> Buffer.buffer,
         (forall password salt keylen, List.length (kdf password salt keylen) = keylen) ->
         comparePasswords kdf supplied stored = true
         /\ Buffer.fromHex adminHash1 <> kdf supplied "5a17" 64%nat.
Proof.
  exists "admin", (adminHash1 ++ ".5a17").
  split; [reflexivity |]. split; [reflexivity |]. split.
  - exists []. repeat split; discriminate.
  - intros kdf key_length. split; [reflexivity |].
    intros same. apply (f_equal (@List.length byte)) in same.
    rewrite key_length in same. vm_compute in same. discriminate.
Qed.

(** C3 (amended).  [comparePasswords] returns true exactly when the stored
    text splits at its dots into a non-empty hash and a non-empty salt (and
    possibly more parts) and either one of the hard-coded logins applies
    (supplied password [admin] with a stored text that starts with one of two
    fixed hashes, or supplied password [test] with a stored text that starts
    with a third), or the hexadecimal decoding of the hash part equals the
    64-byte scrypt key of the supplied password under the salt part. *)
Theorem C3_comparePasswords_accepts_iff :
  forall supplied stored : string,
    comparePasswords scrypt supplied stored = true
    <-> exists hashed salt : string,
          Spec.storedParts stored hashed salt
          /\ (Spec.specialCase supplied stored
              \/ Buffer.fromHex hashed = scrypt supplied salt 64%nat).
Proof.
  intros supplied stored. unfold comparePasswords, Spec.specialCase. split.
  - destruct (String.eqb stored "" || negb (includes "." stored)); [discriminate |].
    destruct (split "." stored) as [| hashed [| salt rest]] eqn:parts; try discriminate.
    destruct (String.eqb_spec hashed "") as [| hash_given]; [discriminate |].
    destruct (String.eqb_spec salt "") as [| salt_given]; [discriminate |]. cbn [orb].
    intros accepted. exists hashed, salt. split.
    { exists rest. repeat split; assumption. }
    destruct (String.eqb_spec supplied "admin") as [is_admin | not_admin]; cbn [andb] in accepted.
    + destruct (String.prefix adminHash1 stored) eqn:first; [left; left; auto |].
      destruct (String.prefix adminHash2 stored) eqn:second; [left; left; auto |].
      cbn [orb] in accepted.
      destruct (String.eqb_spec supplied "test") as [is_test | not_test].
      * subst supplied. discriminate.
      * right. now apply derived_key_comparison.
    + destruct (String.eqb_spec supplied "test") as [is_test | not_test]; cbn [andb] in accepted.
      * destruct (String.prefix testHash stored) eqn:third; [left; right; auto |].
        right. now apply derived_key_comparison.
      * right. now apply derived_key_comparison.
  - intros (hashed & salt & (rest & parts & hash_given & salt_given) & accepted).
    destruct (split_parts_includes "." stored hashed salt rest parts) as [dotted filled].
    apply String.eqb_neq in filled, hash_given, salt_given.
    rewrite filled, dotted, parts, hash_given, salt_given. cbn [orb negb].
    destruct (String.eqb supplied "admin"
              && (String.prefix adminHash1 stored || String.prefix adminHash2 stored))
      eqn:admin_case; [reflexivity |].
    destruct (String.eqb supplied "test" && String.prefix testHash stored)
      eqn:test_case; [reflexivity |].
    destruct accepted as [[[-> [first | second]] | [-> third]] | same].
    + rewrite first in admin_case. discriminate.
    + rewrite second, orb_true_r in admin_case. discriminate.
    + rewrite third in test_case. discriminate.
    + now apply derived_key_comparison.
Qed.

End Passwords.

(** ** Lists of rows *)

Section Rows.
Local Open Scope Z_scope.


Lemma existsb_false_find {A : Type} (p : A -> bool) (l : list A) :
  existsb p l = false -> find p l = None.
Proof.
  induction l as [| x l IH]; cbn; [reflexivity |].
  destruct (p x); [discriminate | exact IH].
Qed.

Lemma find_app_later {A : Type} (p : A -> bool) (l : list A) (x : A) :
  find p l = None -> p x = true -> find p (l ++ [x]) = Some x.
Proof.
  induction l as [| y l IH]; cbn.
  - intros _ ->. reflexivity.
  - destruct (p y); [discriminate | exact IH].
Qed.


Lemma NoDup_added {A : Type} (l : list A) (x : A) :
  NoDup l -> ~ In x l -> NoDup (l ++ [x]).
Proof.
  intros distinct fresh. apply NoDup_app; [assumption | | ].
  - constructor; [intros [] | constructor].
  - intros y listed [<- | []]. contradiction.
Qed.

Lemma NoDup_map_filter {A B : Type} (key : A -> B) (keep : A -> bool) (l : list A) :
  NoDup (map key l) -> NoDup (map key (filter keep l)).
Proof.
  induction l as [| x l IH]; cbn; [trivial |].
  intros distinct. inversion distinct as [| ? ? fresh others]; subst.
  destruct (keep x); [| now apply IH].
  cbn. constructor; [| now apply IH].
  intros held. apply fresh. apply in_map_iff in held as (y & same & kept).
  apply filter_In in kept as [listed _]. rewrite <- same. now apply in_map.
Qed.

Lemma find_absent {A : Type} (p : A -> bool) (l : list A) :
  (forall x, In x l -> p x = false) -> find p l = None.
Proof.
  induction l as [| x l IH]; cbn; [reflexivity |]. intros none.
  rewrite (none x (or_introl eq_refl)). apply IH. intros y listed. apply none. now right.
Qed.

Lemma filter_nothing {A : Type} (p : A -> bool) (l : list A) :
  (forall x, In x l -> p x = false) -> filter p l = [].
Proof.
  induction l as [| x l IH]; cbn; [reflexivity |]. intros none.
  rewrite (none x (or_introl eq_refl)). apply IH. intros y listed. apply none. now right.
Qed.

Lemma filter_everything {A : Type} (p : A -> bool) (l : list A) :
  (forall x, In x l -> p x = true) -> filter p l = l.
Proof.
  induction l as [| x l IH]; cbn; [reflexivity |]. intros all.
  rewrite (all x (or_introl eq_refl)). f_equal. apply IH. intros y listed. apply all. now right.
Qed.

Lemma filter_filter {A : Type} (p q : A -> bool) (l : list A) :
  filter p (filter q l) = filter (fun x => q x && p x) l.
Proof.
  induction l as [| x l IH]; cbn; [reflexivity |].
  destruct (q x); cbn; [destruct (p x) |]; now rewrite IH.
Qed.

(** Under a unique key, two rows with the same key are the same row. *)
Lemma unique_key_row {A K : Type} (key : A -> K) (l : list A) (a b : A) :
  NoDup (map key l) -> In a l -> In b l -> key a = key b -> a = b.
Proof.
  induction l as [| x l IH]; cbn; [contradiction |].
  intros distinct. inversion distinct as [| ? ? fresh others]; subst.
  intros [-> | listed_a] [-> | listed_b] same.
  - reflexivity.
  - exfalso. apply fresh. rewrite same. now apply in_map.
  - exfalso. apply fresh. rewrite <- same. now apply in_map.
  - now apply IH.
Qed.

Lemma find_in_app {A : Type} (p : A -> bool) (l l' : list A) :
  find p (l ++ l') = match find p l with
                     | Some x => Some x
                     | None => find p l'
                     end.
Proof.
  induction l as [| x l IH]; cbn; [reflexivity |]. now destruct (p x).
Qed.

Lemma find_map_key {A K : Type} (key : A -> K) (p : K -> bool) (f : A -> A) (l : list A) :
  (forall r, key (f r) = key r) ->
  find (fun r => p (key r)) (map f l) = option_map f (find (fun r => p (key r)) l).
Proof.
  intros same. induction l as [| x l IH]; cbn; [reflexivity |].
  rewrite same. now destruct (p (key x)).
Qed.

(** The rows of one key, under a unique key. *)
Lemma filter_unique_key {A : Type} (key : A -> Z) (l : list A) (u : A) :
  NoDup (map key l) -> In u l -> filter (fun r => key r =? key u) l = [u].
Proof.
  induction l as [| x l IH]; cbn [map filter]; [contradiction |].
  intros distinct. inversion distinct as [| ? ? fresh others]; subst.
  intros [-> | listed].
  - rewrite Z.eqb_refl. f_equal. apply filter_nothing. intros y later.
    apply Z.eqb_neq. intros same. apply fresh. rewrite <- same. now apply in_map.
  - replace (key x =? key u) with false; [now apply IH |].
    symmetry. apply Z.eqb_neq. intros same. apply fresh. rewrite same. now apply in_map.
Qed.

(** The updated table holds the rows that updating each row where it
    stands would give, in another order. *)
Lemma updated_permutation {A : Type} (key : A -> Z) (i : Z) (f : A -> A) (l : list A) :
  Permutation (Storage.updated key i f l) (map (fun r => if key r =? i then f r else r) l).
Proof.
  unfold Storage.updated. induction l as [| x l IH]; cbn [map filter app]; [constructor |].
  destruct (key x =? i); cbn [negb map app].
  - apply Permutation_sym, Permutation_cons_app, Permutation_sym, IH.
  - now constructor.
Qed.

Lemma updated_keys {A : Type} (key : A -> Z) (i : Z) (f : A -> A) (l : list A) :
  (forall r, key (f r) = key r) ->
  Permutation (map key (Storage.updated key i f l)) (map key l).
Proof.
  intros same. rewrite (Permutation_map key (updated_permutation key i f l)).
  rewrite map_map. erewrite map_ext; [reflexivity |].
  intros r. cbn. now destruct (key r =? i).
Qed.

Lemma updated_missing {A : Type} (key : A -> Z) (i : Z) (f : A -> A) (l : list A) :
  (forall x, In x l -> key x <> i) -> Storage.updated key i f l = l.
Proof.
  intros missing. unfold Storage.updated.
  rewrite filter_everything, filter_nothing.
  - apply app_nil_r.
  - intros x listed. apply Z.eqb_neq. now apply missing.
  - intros x listed. apply negb_true_iff, Z.eqb_neq. now apply missing.
Qed.

Lemma updated_twice {A : Type} (key : A -> Z) (i : Z) (f : A -> A) (l : list A) :
  (forall r, key (f r) = key r) ->
  (forall r, f (f r) = f r) ->
  Storage.updated key i f (Storage.updated key i f l) = Storage.updated key i f l.
Proof.
  intros same idempotent. unfold Storage.updated at 1.
  assert (kept : filter (fun r => negb (key r =? i)) (Storage.updated key i f l)
                 = filter (fun r => negb (key r =? i)) l).
  { unfold Storage.updated. rewrite filter_app, filter_filter.
    rewrite (filter_nothing _ (map f _)).
    - rewrite app_nil_r. apply filter_ext. intros r. now destruct (key r =? i).
    - intros x listed. apply in_map_iff in listed as (r & <- & chosen).
      apply filter_In in chosen as [_ target]. now rewrite same, target. }
  assert (moved : filter (fun r => key r =? i) (Storage.updated key i f l)
                  = map f (filter (fun r => key r =? i) l)).
  { unfold Storage.updated. rewrite filter_app, filter_filter.
    rewrite (filter_nothing (fun x => negb (key x =? i) && (key x =? i))).
    - cbn [app]. apply filter_everything.
      intros x listed. apply in_map_iff in listed as (r & <- & chosen).
      apply filter_In in chosen as [_ target]. now rewrite same.
    - intros x _. now destruct (key x =? i). }
  rewrite kept, moved, map_map. unfold Storage.updated. f_equal.
  apply map_ext. intros r. apply idempotent.
Qed.

(** Looking a key up after an update: the row of that key, updated when the
    key is the updated one. *)
Lemma find_updated {A : Type} (key : A -> Z) (i k : Z) (f : A -> A) (l : list A) :
  (forall r, key (f r) = key r) ->
  find (fun r => key r =? k) (Storage.updated key i f l)
  = option_map (fun r => if key r =? i then f r else r) (find (fun r => key r =? k) l).
Proof.
  intros same. unfold Storage.updated. rewrite find_in_app.
  destruct (Z.eqb_spec k i) as [-> | other].
  - rewrite find_absent.
    + rewrite (find_map_key key (fun a => a =? i) f _ same).
      assert (first : find (fun r => key r =? i) (filter (fun r => key r =? i) l)
                      = find (fun r => key r =? i) l).
      { clear. induction l as [| x l IH]; cbn; [reflexivity |].
        destruct (key x =? i) eqn:target; cbn; [now rewrite target | exact IH]. }
      rewrite first. destruct (find (fun r => key r =? i) l) as [x |] eqn:found;
        [| reflexivity].
      apply find_some in found as [_ target]. cbn. now rewrite target.
    + intros x kept. apply filter_In in kept as [_ out]. now apply negb_true_iff.
  - assert (first : find (fun r => key r =? k) (filter (fun r => negb (key r =? i)) l)
                    = find (fun r => key r =? k) l).
    { induction l as [| x l IH]; cbn; [reflexivity |].
      destruct (Z.eqb_spec (key x) i) as [target | _]; cbn.
      - rewrite IH. replace (key x =? k) with false; [reflexivity |].
        symmetry. apply Z.eqb_neq. congruence.
      - now rewrite IH. }
    rewrite first. destruct (find (fun r => key r =? k) l) as [x |] eqn:found.
    + apply find_some in found as [_ target]. apply Z.eqb_eq in target. cbn.
      replace (key x =? i) with false; [reflexivity |].
      symmetry. apply Z.eqb_neq. congruence.
    + cbn. apply find_absent. intros x listed.
      apply in_map_iff in listed as (r & <- & kept).
      apply filter_In in kept as [_ target]. apply Z.eqb_eq in target.
      rewrite same. apply Z.eqb_neq. congruence.
Qed.

Lemma find_filtered_out {A : Type} (p : A -> bool) (l : list A) :
  find p (filter (fun x => negb (p x)) l) = None.
Proof.
  apply find_absent. intros x kept. apply filter_In in kept as [_ out].
  now apply negb_true_iff.
Qed.

End Rows.

(** ** The approval gate *)

Section ApprovalGate.
Import Storage Http Auth Spec.
Local Open Scope string_scope.
Local Open Scope Z_scope.

(** Under a unique key, looking a row up by its key finds that row. *)
Lemma find_by_unique_key {K : Type} (key : User.t -> K) (eqb : K -> K -> bool)
  (l : list User.t) (u : User.t) :
  (forall a b, eqb a b = true <-> a = b) ->
  NoDup (map key l) -> In u l ->
  find (fun x => eqb (key x) (key u)) l = Some u.
Proof.
  intros eqb_eq. induction l as [| x l IH]; cbn; [contradiction |].
  intros distinct [-> | later].
  - now rewrite (proj2 (eqb_eq (key u) (key u)) eq_refl).
  - inversion distinct as [| ? ? fresh others]; subst.
    destruct (eqb (key x) (key u)) eqn:same; [| now apply IH].
    apply eqb_eq in same. exfalso. apply fresh. rewrite same. now apply in_map.
Qed.

Lemma find_present (i : Z) (l : list User.t) (u : User.t) :
  In u l -> User.id u = i ->
  exists x, find (fun x => User.id x =? i) l = Some x /\ User.id x = i.
Proof.
  intros present key.
  destruct (find (fun x => User.id x =? i) l) as [x |] eqn:found.
  - exists x. split; [reflexivity |]. apply find_some in found as [_ same].
    now apply Z.eqb_eq.
  - exfalso. apply (find_none _ _ found) in present. rewrite key, Z.eqb_refl in present.
    discriminate.
Qed.

Lemma setUsers_same (st : Store) : setUsers st (users st) = st.
Proof. now destruct st. Qed.

Lemma setUsers_twice (st : Store) (rows rows' : list User.t) :
  setUsers (setUsers st rows) rows' = setUsers st rows'.
Proof. reflexivity. Qed.

(** A resolved session names a stored row by its key. *)
Lemma requestUser_found (st : Store) (req : request) (caller : User.t) :
  requestUser st req = Returned (Some caller) ->
  exists (id : JS.number),
    session req = Some id
    /\ int4 id = Some (User.id caller)
    /\ find (fun u => User.id u =? User.id caller) (users st) = Some caller.
Proof.
  unfold requestUser, getUser.
  destruct (session req) as [id |]; [| discriminate].
  destruct (int4 id) as [k |] eqn:bound; [| discriminate].
  destruct (find (fun u => User.id u =? k) (users st)) as [user |] eqn:found;
    [| discriminate].
  intros [= ->]. exists id.
  apply find_some in found as named. destruct named as [_ same].
  apply Z.eqb_eq in same. subst k. now repeat split.
Qed.

(** The session still resolves after an update that keeps the keys. *)
Lemma requestUser_after_update (st : Store) (req : request) (caller : User.t)
  (i : Z) (f : User.t -> User.t) :
  (forall u, User.id (f u) = User.id u) ->
  requestUser st req = Returned (Some caller) ->
  requestUser (setUsers st (updated User.id i f (users st))) req
  = Returned (Some (if User.id caller =? i then f caller else caller)).
Proof.
  intros same_id. unfold requestUser, getUser.
  destruct (session req) as [id |]; [| discriminate].
  destruct (int4 id) as [k |]; [| discriminate]. cbn [users setUsers].
  rewrite (find_updated User.id i k f (users st) same_id).
  destruct (find (fun u => User.id u =? k) (users st)) as [user |]; [| discriminate].
  intros [= ->]. reflexivity.
Qed.

(** What the approve route does for an administrator and a well-formed id. *)
Lemma approve_as_admin (st : Store) (req : request) (caller : User.t) (i : Z) :
  requestUser st req = Returned (Some caller) ->
  User.role caller = "admin" ->
  int4 (JS.parseInt (params_id req)) = Some i ->
  patch_users_id_approve st req
  = (setUsers st (updated User.id i (setUser approvedTrue) (users st)),
     match find (fun u => User.id u =? i) (users st) with
     | Some user => Json 200 (UserJson (setUser approvedTrue user))
     | None => Json 404 (Message "User not found")
     end).
Proof.
  intros resolved is_admin key.
  unfold patch_users_id_approve, isAdmin. rewrite resolved, is_admin. cbn [String.eqb negb].
  change (String.eqb "admin" "admin") with true. cbn [negb].
  rewrite (int4_isNaN _ _ key). unfold updateUser. rewrite key. cbn [noColumn approvedTrue].
  unfold usernameTaken. cbn [PartialUser.username orb].
  rewrite (find_updated User.id i i _ (users st)) by reflexivity.
  destruct (find (fun u => User.id u =? i) (users st)) as [user |] eqn:found;
    [| reflexivity].
  apply find_some in found as [_ target]. cbn [option_map]. now rewrite target.
Qed.

End ApprovalGate.

(** ** Logging in, approving and removing users *)

Section Users.
Import Storage Http Auth Spec.
Local Open Scope string_scope.
Local Open Scope Z_scope.

Variable scrypt : string -> string -> nat -> Buffer.buffer.

(** C2.  A stored user with role [staff] and [approved = false] is refused
    by the verify callback whatever the password, and with the message of a
    pending approval when the password is correct.  After an administrator
    approves the user's id, the same credentials are accepted and the
    callback returns that user, now approved. *)
Theorem C2_staff_login_requires_approval :
  forall (st : Store) (req : request) (caller u : User.t) (password : string),
    usersTable st ->
    In u (users st) ->
    User.role u = "staff" ->
    User.approved u = false ->
    comparePasswords scrypt password (User.password u) = true ->
    requestUser st req = Returned (Some caller) ->
    User.role caller = "admin" ->
    int4 (JS.parseInt (params_id req)) = Some (User.id u) ->
    let approvedUser :=
      User.mk (User.id u) (User.username u) (User.password u) (User.email u)
              (User.fullName u) (User.role u) true (User.createdAt u) in
    verify scrypt st (User.username u) password
    = Refused "Your account is pending approval by an administrator"
    /\ (forall attempt : string,
           exists message, verify scrypt st (User.username u) attempt = Refused message)
    /\ exists st' : Store,
         patch_users_id_approve st req = (st', Json 200 (UserJson approvedUser))
         /\ verify scrypt st' (User.username u) password = Authenticated approvedUser.
Proof.
  intros st req caller u password [keys names] stored staff pending correct
         resolved is_admin target approvedUser.
  assert (by_name : getUserByUsername st (User.username u) = Some u).
  { apply (find_by_unique_key User.username String.eqb);
      [apply String.eqb_eq | assumption | assumption]. }
  assert (by_key : find (fun x => User.id x =? User.id u) (users st) = Some u).
  { apply (find_by_unique_key User.id Z.eqb);
      [apply Z.eqb_eq | assumption | assumption]. }
  assert (approved_row : setUser approvedTrue u = approvedUser) by reflexivity.
  split; [| split].
  - unfold verify. rewrite by_name, correct, staff, pending. reflexivity.
  - intros attempt. unfold verify. rewrite by_name, staff, pending.
    destruct (comparePasswords scrypt attempt (User.password u)); cbn; eauto.
  - exists (setUsers st (updated User.id (User.id u) (setUser approvedTrue) (users st))).
    split.
    + rewrite (approve_as_admin st req caller (User.id u) resolved is_admin target).
      now rewrite by_key, approved_row.
    + unfold verify, getUserByUsername. cbn [users setUsers]. unfold updated.
      rewrite (filter_unique_key User.id (users st) u keys stored). cbn [map].
      rewrite (find_app_later _ _ (setUser approvedTrue u)).
      * rewrite approved_row. subst approvedUser.
        cbn [User.password User.role User.approved]. rewrite correct, staff. reflexivity.
      * apply find_absent. intros x kept. apply filter_In in kept as [listed other].
        apply not_true_is_false. intros same. apply String.eqb_eq in same.
        rewrite (unique_key_row User.username (users st) x u names listed stored same)
          in other.
        now rewrite Z.eqb_refl in other.
      * cbn. apply String.eqb_refl.
Qed.

(** C6.  For an existing user id, two approve requests in a row both answer
    200 with the same approved user, and the second leaves the store as the
    first left it. *)
Theorem C6_approve_is_idempotent :
  forall (st : Store) (req : request) (caller u : User.t),
    requestUser st req = Returned (Some caller) ->
    User.role caller = "admin" ->
    In u (users st) ->
    int4 (JS.parseInt (params_id req)) = Some (User.id u) ->
    exists (st1 : Store) (updatedUser : User.t),
      patch_users_id_approve st req = (st1, Json 200 (UserJson updatedUser))
      /\ User.id updatedUser = User.id u
      /\ User.approved updatedUser = true
      /\ (forall x, In x (users st1) -> User.id x = User.id u -> User.approved x = true)
      /\ patch_users_id_approve st1 req = (st1, Json 200 (UserJson updatedUser)).
Proof.
  intros st req caller u resolved is_admin stored target.
  set (i := User.id u) in *.
  destruct (find_present i (users st) u stored eq_refl) as (x & found & key).
  exists (setUsers st (updated User.id i (setUser approvedTrue) (users st))),
    (setUser approvedTrue x).
  assert (first : patch_users_id_approve st req
                  = (setUsers st (updated User.id i (setUser approvedTrue) (users st)),
                     Json 200 (UserJson (setUser approvedTrue x)))).
  { rewrite (approve_as_admin st req caller i resolved is_admin target).
    now rewrite found. }
  split; [exact first |]. split; [exact key |]. split; [reflexivity |]. split.
  - cbn [users setUsers]. intros y listed same. unfold updated in listed.
    apply in_app_iff in listed as [kept | moved].
    + apply filter_In in kept as [_ other]. rewrite same, Z.eqb_refl in other.
      discriminate other.
    + apply in_map_iff in moved as (z & <- & _). reflexivity.
  - pose proof (requestUser_after_update st req caller i (setUser approvedTrue)
                  (fun u => eq_refl) resolved) as resolved'.
    assert (is_admin' : User.role (if User.id caller =? i
                                   then setUser approvedTrue caller else caller) = "admin").
    { now destruct (User.id caller =? i). }
    rewrite (approve_as_admin _ req _ i resolved' is_admin' target).
    cbn [users setUsers]. rewrite setUsers_twice.
    rewrite (updated_twice User.id i (setUser approvedTrue) (users st))
      by reflexivity.
    rewrite (find_updated User.id i i _ (users st)) by reflexivity.
    rewrite found. cbn [option_map]. now rewrite key, Z.eqb_refl.
Qed.

(** C7 (what the code does).  When an administrator asks to reject an id
    that no user has, [deleteUser] returns true all the same and the route
    answers 200 "User deleted successfully" instead of 404; the store is
    left as it was. *)
Theorem C7_reject_of_missing_user_reports_success :
  forall (st : Store) (req : request) (caller : User.t) (i : Z),
    requestUser st req = Returned (Some caller) ->
    User.role caller = "admin" ->
    int4 (JS.parseInt (params_id req)) = Some i ->
    (forall x, In x (users st) -> User.id x <> i) ->
    delete_users_id st req = (st, Json 200 (Message "User deleted successfully")).
Proof.
  intros st req caller i resolved is_admin target missing.
  unfold delete_users_id, isAdmin. rewrite resolved, is_admin.
  change (String.eqb "admin" "admin") with true. cbn [negb].
  rewrite (int4_isNaN _ _ target). unfold deleteUser. rewrite target. cbn [negb].
  replace (filter (fun u => negb (User.id u =? i)) (users st)) with (users st).
  - now rewrite setUsers_same.
  - symmetry. apply forallb_filter_id. apply forallb_forall. intros x listed.
    apply negb_true_iff, Z.eqb_neq. now apply missing.
Qed.

(** C10.  No request to [DELETE /api/staff/:id] deletes the account of the
    user who sends it.  An administrator whose [:id] is the own id (the
    number that [:id] parses to equals the id, or binds to it as a key) is
    answered 400 and the store is left as it was.  And whatever [:id] is and
    whatever the answer, the row of the caller is still in the table
    afterwards and the session still resolves to it. *)
Theorem C10_admin_cannot_delete_own_account :
  forall (st : Store) (req : request) (caller : User.t),
    requestUser st req = Returned (Some caller) ->
    (User.role caller = "admin" ->
     PrimFloat.eqb (JS.parseInt (params_id req)) (JS.of_Z (User.id caller)) = true ->
     Routes.delete_staff_id st req
     = (st, Json 400 (Message "Cannot delete your own account")))
    /\ (User.role caller = "admin" ->
        int4 (JS.parseInt (params_id req)) = Some (User.id caller) ->
        Routes.delete_staff_id st req
        = (st, Json 400 (Message "Cannot delete your own account")))
    /\ In caller (users (fst (Routes.delete_staff_id st req)))
    /\ requestUser (fst (Routes.delete_staff_id st req)) req = Returned (Some caller).
Proof.
  intros st req caller resolved.
  assert (guard : User.role caller = "admin" ->
                  PrimFloat.eqb (JS.parseInt (params_id req)) (JS.of_Z (User.id caller)) = true ->
                  Routes.delete_staff_id st req
                  = (st, Json 400 (Message "Cannot delete your own account"))).
  { intros is_admin own. unfold Routes.delete_staff_id. rewrite resolved, is_admin.
    change (String.eqb "admin" "admin") with true. cbn [negb]. now rewrite own. }
  split; [exact guard |].
  split; [intros is_admin own; apply (guard is_admin), int4_eqb, own |].
  destruct (requestUser_found st req caller resolved) as (id & held & bound & found).
  assert (kept : forall st' : Store,
             users st' = users st
             \/ (exists i, i <> User.id caller
                           /\ users st' = filter (fun u => negb (User.id u =? i)) (users st)) ->
             In caller (users st') /\ requestUser st' req = Returned (Some caller)).
  { intros st' [same | (i & other & same)].
    - split; [rewrite same; exact (proj1 (find_some _ _ found)) |].
      unfold requestUser, getUser. now rewrite held, bound, same, found.
    - assert (found' : find (fun u => User.id u =? User.id caller) (users st') = Some caller).
      { rewrite same. clear - found other. induction (users st) as [| x l IH];
          cbn in *; [discriminate |].
        destruct (Z.eqb_spec (User.id x) (User.id caller)) as [hit | miss].
        - injection found as ->.
          replace (User.id caller =? i) with false by (symmetry; now apply Z.eqb_neq).
          cbn. now rewrite Z.eqb_refl.
        - destruct (negb (User.id x =? i)); cbn.
          + replace (User.id x =? User.id caller) with false
              by (symmetry; now apply Z.eqb_neq).
            now apply IH.
          + now apply IH. }
      split; [exact (proj1 (find_some _ _ found')) |].
      unfold requestUser, getUser. now rewrite held, bound, found'. }
  apply kept. unfold Routes.delete_staff_id. rewrite resolved.
  destruct (negb (String.eqb (User.role caller) "admin")); [now left |].
  destruct (PrimFloat.eqb (JS.parseInt (params_id req)) (JS.of_Z (User.id caller))) eqn:own;
    [now left |].
  unfold deleteUser.
  destruct (int4 (JS.parseInt (params_id req))) as [i |] eqn:key; [| now left].
  cbn [negb fst users setUsers]. right. exists i. split; [| reflexivity].
  intros same. subst i. apply int4_eqb in key. congruence.
Qed.

End Users.

Section UserExamples.
Import Storage Http Auth.
Local Open Scope string_scope.
Local Open Scope Z_scope.

(** The two users of the example have distinct ids and names. *)
Lemma example_usersTable : Spec.usersTable Example.store.
Proof.
  split; cbn.
  - constructor; [intros [clash | []]; discriminate clash |].
    constructor; [intros [] |]. constructor.
  - constructor; [intros [clash | []]; discriminate clash |].
    constructor; [intros [] |]. constructor.
Defined.

(** C2, for the pending user [bob] approved by the administrator. *)
Lemma C2_staff_login_requires_approval_witness :
  verify Example.zeroKey Example.store "bob" "secret123"
  = Refused "Your account is pending approval by an administrator"
  /\ (forall attempt : string,
         exists message, verify Example.zeroKey Example.store "bob" attempt = Refused message)
  /\ exists st' : Store,
       patch_users_id_approve Example.store (Example.asAdmin "2" [])
       = (st', Json 200 (UserJson
                 (User.mk 2 "bob" (User.password Example.bob) "bob@frostys.com" "Bob"
                          "staff" true 0)))
       /\ verify Example.zeroKey st' "bob" "secret123"
          = Authenticated
              (User.mk 2 "bob" (User.password Example.bob) "bob@frostys.com" "Bob"
                       "staff" true 0).
Proof.
  apply (C2_staff_login_requires_approval Example.zeroKey Example.store
           (Example.asAdmin "2" []) Example.admin Example.bob "secret123").
  - exact example_usersTable.
  - cbn. auto.
  - reflexivity.
  - reflexivity.
  - vm_compute. reflexivity.
  - vm_compute. reflexivity.
  - reflexivity.
  - vm_compute. reflexivity.
Defined.

(** C6, for two approvals of [bob] in a row. *)
Lemma C6_approve_is_idempotent_witness :
  exists (st1 : Store) (updatedUser : User.t),
    patch_users_id_approve Example.store (Example.asAdmin "2" [])
    = (st1, Json 200 (UserJson updatedUser))
    /\ User.id updatedUser = 2
    /\ User.approved updatedUser = true
    /\ (forall x, In x (users st1) -> User.id x = 2 -> User.approved x = true)
    /\ patch_users_id_approve st1 (Example.asAdmin "2" [])
       = (st1, Json 200 (UserJson updatedUser)).
Proof.
  apply (C6_approve_is_idempotent Example.store (Example.asAdmin "2" [])
           Example.admin Example.bob).
  - vm_compute. reflexivity.
  - reflexivity.
  - cbn. auto.
  - vm_compute. reflexivity.
Defined.

(** C7, at the failing input: the administrator rejects the id 999, which
    no user has. *)
Lemma C7_reject_of_missing_user_reports_success_witness :
  delete_users_id Example.store (Example.asAdmin "999" [])
  = (Example.store, Json 200 (Message "User deleted successfully")).
Proof.
  apply (C7_reject_of_missing_user_reports_success Example.store
           (Example.asAdmin "999" []) Example.admin 999).
  - vm_compute. reflexivity.
  - reflexivity.
  - vm_compute. reflexivity.
  - cbn. intros x [<- | [<- | []]]; discriminate.
Defined.

(** C10, for the administrator (id 1): with [:id] = 1 the answer is 400 and
    the store is as it was; with [:id] = 2 the other user is deleted and the
    administrator is still there. *)
Lemma C10_admin_cannot_delete_own_account_witness :
  Routes.delete_staff_id Example.store (Example.asAdmin "1" [])
  = (Example.store, Json 400 (Message "Cannot delete your own account"))
  /\ In Example.admin (users (fst (Routes.delete_staff_id Example.store (Example.asAdmin "1" []))))
  /\ Routes.delete_staff_id Example.store (Example.asAdmin "2" [])
     = (setUsers Example.store [Example.admin], Send 204)
  /\ In Example.admin (users (fst (Routes.delete_staff_id Example.store (Example.asAdmin "2" []))))
  /\ requestUser (fst (Routes.delete_staff_id Example.store (Example.asAdmin "2" [])))
                 (Example.asAdmin "2" [])
     = Returned (Some Example.admin).
Proof.
  assert (resolved : forall id, requestUser Example.store (Example.asAdmin id [])
                                = Returned (Some Example.admin)).
  { intros id. vm_compute. reflexivity. }
  destruct (C10_admin_cannot_delete_own_account Example.store (Example.asAdmin "1" [])
              Example.admin (resolved "1")) as (refused & _ & survives & _).
  destruct (C10_admin_cannot_delete_own_account Example.store (Example.asAdmin "2" [])
              Example.admin (resolved "2")) as (_ & _ & survives' & resolves').
  split; [apply refused; [reflexivity | vm_compute; reflexivity] |].
  split; [exact survives |].
  split; [vm_compute; reflexivity |].
  split; [exact survives' | exact resolves'].
Defined.

End UserExamples.

(** ** Creating an invoice *)

Section InvoiceCreation.
Import Storage Http Routes.
Local Open Scope string_scope.
Local Open Scope Z_scope.

Lemma zNumber_same (x y : JS.number) : zNumber x = Some y -> y = x.
Proof. unfold zNumber. destruct (JS.isNaN x); [discriminate | now intros [= <-]]. Qed.

(** The validated invoice carries the three amounts of the request. *)
Lemma parseInvoice_amounts (env : Env) (user : User.t) (invoiceData : list (string * JS.value))
  (invoiceNumber : JS.value) (validated : InsertInvoice.t) :
  parseInvoice env user invoiceData invoiceNumber = Some validated ->
  let submitted key :=
    JS.parseFloat (JS.toString (JS.or (JS.lookup key invoiceData) (JS.Str "0"))) in
  InsertInvoice.amount validated = submitted "amount"
  /\ InsertInvoice.tax validated = submitted "tax"
  /\ InsertInvoice.total validated = submitted "total".
Proof.
  intros parsed submitted. subst submitted.
  unfold parseInvoice in parsed. cbv zeta in parsed. revert parsed.
  repeat match goal with
         | |- match ?checked with Some _ => _ | None => None end = Some _ -> _ =>
             destruct checked eqn:?; [| discriminate]
         end.
  intros [= <-]. cbn.
  repeat match goal with
         | valid : zNumber _ = Some _ |- _ => apply zNumber_same in valid
         end.
  now subst.
Qed.

(** None of the three amounts of a validated invoice is [NaN]. *)
Lemma parseInvoice_numbers (env : Env) (user : User.t) (invoiceData : list (string * JS.value))
  (invoiceNumber : JS.value) (validated : InsertInvoice.t) :
  parseInvoice env user invoiceData invoiceNumber = Some validated ->
  JS.isNaN (InsertInvoice.amount validated) = false
  /\ JS.isNaN (InsertInvoice.tax validated) = false
  /\ JS.isNaN (InsertInvoice.total validated) = false.
Proof.
  intros parsed.
  unfold parseInvoice in parsed. cbv zeta in parsed. revert parsed.
  repeat match goal with
         | |- match ?checked with Some _ => _ | None => None end = Some _ -> _ =>
             destruct checked eqn:?; [| discriminate]
         end.
  intros [= <-]. cbn.
  repeat match goal with
         | valid : zNumber ?x = Some _ |- _ =>
             unfold zNumber in valid; destruct (JS.isNaN x) eqn:?;
             [discriminate valid | injection valid as <-]
         end.
  repeat split; assumption.
Qed.

(** What the column holds is the number that was bound, up to the sign of a
    zero. *)
Lemma float8_same (x : JS.number) :
  JS.isNaN x = false -> PrimFloat.eqb (float8 x) x = true.
Proof.
  intros number. unfold float8. destruct (PrimFloat.eqb x 0) eqn:zero.
  - rewrite FloatAxioms.eqb_spec in *. change (Prim2SF 0) with (S754_zero false) in *.
    destruct (Prim2SF x) as [[|] | [|] | | [|] m e]; try discriminate zero; reflexivity.
  - unfold JS.isNaN, PrimFloat.is_nan in number. now apply negb_false_iff in number.
Qed.

(** What an insertion of an invoice leaves behind, whether it succeeds or not. *)
Lemma createInvoice_tables (st st' : Store) (insertInvoice : InsertInvoice.t)
  (result : outcome Invoice.t) :
  createInvoice st insertInvoice = (st', result) ->
  users st' = users st
  /\ invoiceItems st' = invoiceItems st
  /\ invoice_items_id_seq st' = invoice_items_id_seq st
  /\ match result with
     | Returned invoice =>
         invoices st' = (invoices st ++ [invoice])%list
         /\ Invoice.amount invoice = float8 (InsertInvoice.amount insertInvoice)
         /\ Invoice.tax invoice = float8 (InsertInvoice.tax insertInvoice)
         /\ Invoice.total invoice = float8 (InsertInvoice.total insertInvoice)
     | Thrown => invoices st' = invoices st
     end.
Proof.
  unfold createInvoice.
  destruct (int4 (InsertInvoice.jobId insertInvoice));
    [| intros [= <- <-]; repeat split].
  destruct (int4 (InsertInvoice.customerId insertInvoice));
    [| intros [= <- <-]; repeat split].
  destruct (int4 (InsertInvoice.createdBy insertInvoice));
    [| intros [= <- <-]; repeat split].
  destruct (existsb _ _); intros [= <- <-]; repeat split.
Qed.

(** The loop writes the accepted items, in order, and nothing else. *)
Lemma createLineItems_tables (invoice : Invoice.t) (lineItems : list JS.value) :
  forall (st st' : Store) (created : list InvoiceItem.t),
    createLineItems st invoice lineItems = (st', created) ->
    users st' = users st
    /\ invoices st' = invoices st
    /\ invoiceItems st' = (invoiceItems st ++ created)%list
    /\ created = Spec.rowsFrom (invoice_items_id_seq st) (Spec.acceptedItems invoice lineItems).
Proof.
  induction lineItems as [| item rest IH]; intros st st' created; cbn.
  - intros [= <- <-]. rewrite app_nil_r. repeat split.
  - destruct (parseItem invoice item) as [validated |]; [| apply IH].
    unfold createInvoiceItem.
    destruct (int4 (JS.num_or (InsertInvoiceItem.quantity validated) 1%float));
      [| apply IH].
    destruct (createLineItems _ invoice rest) as [st'' others] eqn:loop.
    intros [= <- <-]. apply IH in loop as (same_users & same_invoices & items & rows).
    cbn in same_users, same_invoices, items, rows.
    rewrite same_users, same_invoices, items, rows, <- app_assoc. cbn. repeat split.
Qed.

(** A 201 answer comes from a validated, inserted invoice followed by the
    loop over a non-empty array of line items. *)
Lemma post_invoices_created (env : Env) (st st' : Store) (req : request)
  (invoice : Invoice.t) (created : list InvoiceItem.t) :
  post_invoices env st req = (st', Json 201 (InvoiceJson invoice created)) ->
  exists (user : User.t) (lineItems : list JS.value) (invoiceNumber : JS.value)
         (validated : InsertInvoice.t) (st1 : Store),
    JS.lookup "lineItems" (body req) = JS.Array lineItems
    /\ lineItems <> []
    /\ parseInvoice env user (body req) invoiceNumber = Some validated
    /\ createInvoice st validated = (st1, Returned invoice)
    /\ createLineItems st1 invoice lineItems = (st', created).
Proof.
  unfold post_invoices.
  destruct (requestUser st req) as [[user |] |]; try discriminate.
  destruct (negb (JS.truthy (JS.lookup "jobId" (body req)))); [discriminate |].
  destruct (negb (JS.truthy (JS.lookup "customerId" (body req)))); [discriminate |].
  destruct (JS.lookup "lineItems" (body req)) as [| | | | | [| first others] |];
    try discriminate.
  destruct (parseInvoice env user (body req) _) as [validated |] eqn:parsed;
    [| discriminate].
  destruct (createInvoice st validated) as [st1 [inserted |]] eqn:insertion;
    [| discriminate].
  destruct (createLineItems st1 inserted (first :: others)) as [st2 items] eqn:loop.
  intros [= <- <- <-].
  exists user, (first :: others). eexists. exists validated, st1.
  repeat split; try eassumption. discriminate.
Qed.

(** Any other answer leaves the three tables as they were. *)
Lemma post_invoices_refused (env : Env) (st st' : Store) (req : request)
  (response : Http.response) :
  post_invoices env st req = (st', response) ->
  (forall invoice created, response <> Json 201 (InvoiceJson invoice created)) ->
  users st' = users st /\ invoices st' = invoices st /\ invoiceItems st' = invoiceItems st.
Proof.
  unfold post_invoices. intros answered refused.
  destruct (requestUser st req) as [[user |] |];
    try (injection answered as <- <-; repeat split).
  destruct (negb (JS.truthy (JS.lookup "jobId" (body req))));
    [injection answered as <- <-; repeat split |].
  destruct (negb (JS.truthy (JS.lookup "customerId" (body req))));
    [injection answered as <- <-; repeat split |].
  destruct (JS.lookup "lineItems" (body req)) as [| | | | | [| first others] |];
    try (injection answered as <- <-; repeat split).
  destruct (parseInvoice env user (body req) _) as [validated |];
    [| injection answered as <- <-; repeat split].
  destruct (createInvoice st validated) as [st1 [inserted |]] eqn:insertion.
  - destruct (createLineItems st1 inserted (first :: others)) as [st2 items].
    injection answered as <- <-. exfalso. now apply (refused inserted items).
  - injection answered as <- <-.
    apply createInvoice_tables in insertion as (same_users & same_items & _ & same_invoices).
    repeat split; assumption.
Qed.

End InvoiceCreation.

(** ** What [POST /api/invoices] stores *)

Section InvoiceStorage.
Import Storage Http Routes.
Local Open Scope string_scope.
Local Open Scope Z_scope.

(** C4 (as stated, refuted).  Two requests with the same single line item
    (2 units at 100, total 200) and different [amount], [tax] and [total]
    fields: each invoice is stored with the numbers its request carried. *)
Lemma C4_stored_totals_are_client_supplied :
  let lineItems := [Example.lineItem "Ice Blasting" 2 100 200] in
  let stored (body : list (string * JS.value)) :=
    map (fun invoice =>
           (Invoice.amount invoice, Invoice.tax invoice, Invoice.total invoice))
        (invoices (fst (post_invoices Example.env Example.store (Example.asAdmin "" body)))) in
  stored (Example.invoiceBody 999 0 999 lineItems) = [(999, 0, 999)%float]
  /\ stored (Example.invoiceBody 1 1 1 lineItems) = [(1, 1, 1)%float].
Proof. vm_compute. split; reflexivity. Qed.

(** C4 (amended).  When [POST /api/invoices] answers 201, the invoice it
    stored has the [amount], [tax] and [total] that the request carried
    (each read by [parseFloat], an absent or zero field being 0, and a
    negative zero being stored as 0, as the column holds it); the submitted
    line items do not enter them. *)
Theorem C4_invoice_totals_come_from_the_request :
  forall (env : Env) (st st' : Store) (req : request)
         (invoice : Invoice.t) (created : list InvoiceItem.t),
    post_invoices env st req = (st', Json 201 (InvoiceJson invoice created)) ->
    let submitted key :=
      float8 (JS.parseFloat (JS.toString (JS.or (JS.lookup key (body req)) (JS.Str "0")))) in
    invoices st' = (invoices st ++ [invoice])%list
    /\ Invoice.amount invoice = submitted "amount"
    /\ Invoice.tax invoice = submitted "tax"
    /\ Invoice.total invoice = submitted "total"
    /\ PrimFloat.eqb (submitted "amount")
         (JS.parseFloat (JS.toString (JS.or (JS.lookup "amount" (body req)) (JS.Str "0"))))
       = true
    /\ PrimFloat.eqb (submitted "tax")
         (JS.parseFloat (JS.toString (JS.or (JS.lookup "tax" (body req)) (JS.Str "0"))))
       = true
    /\ PrimFloat.eqb (submitted "total")
         (JS.parseFloat (JS.toString (JS.or (JS.lookup "total" (body req)) (JS.Str "0"))))
       = true.
Proof.
  intros env st st' req invoice created answered submitted.
  apply post_invoices_created in answered
    as (user & lineItems & invoiceNumber & validated & st1 & _ & _ & parsed & inserted & loop).
  pose proof (parseInvoice_numbers _ _ _ _ _ parsed) as (number & number' & number'').
  apply parseInvoice_amounts in parsed as (amount & tax & total).
  apply createInvoice_tables in inserted
    as (_ & _ & _ & appended & same_amount & same_tax & same_total).
  apply createLineItems_tables in loop as (_ & same_invoices & _).
  subst submitted. cbv beta.
  rewrite same_invoices, appended, same_amount, same_tax, same_total.
  rewrite <- amount, <- tax, <- total.
  split; [reflexivity |]. split; [reflexivity |]. split; [reflexivity |].
  split; [reflexivity |].
  split; [now apply float8_same | split; now apply float8_same].
Qed.

(** C4, at a request that carries the amounts 999 and 999 and, as the tax,
    the text [-0]: the invoice is stored with 999, 0 and 999, the tax
    without the sign that [parseFloat] read. *)
Lemma C4_invoice_totals_come_from_the_request_witness :
  let req := Example.asAdmin ""
               [("invoiceNumber", JS.Str "INV-202501-1000");
                ("jobId", JS.Number 1%float); ("customerId", JS.Number 1%float);
                ("amount", JS.Number 999%float); ("tax", JS.Str "-0");
                ("total", JS.Number 999%float);
                ("paymentTerms", JS.Str "30"); ("paymentMethod", JS.Str "bank-transfer");
                ("lineItems", JS.Array [Example.lineItem "Ice Blasting" 2 100 200])] in
  let invoice :=
    Invoice.mk 1 "INV-202501-1000" 1 1 999 0 999 1700000000000 1702592000000 None
               "30" "bank-transfer" "draft" 1 in
  let submitted key :=
    float8 (JS.parseFloat (JS.toString (JS.or (JS.lookup key (body req)) (JS.Str "0")))) in
  (invoices (fst (post_invoices Example.env Example.store req))
   = (invoices Example.store ++ [invoice])%list
   /\ Invoice.amount invoice = submitted "amount"
   /\ Invoice.tax invoice = submitted "tax"
   /\ Invoice.total invoice = submitted "total"
   /\ PrimFloat.eqb (submitted "amount")
        (JS.parseFloat (JS.toString (JS.or (JS.lookup "amount" (body req)) (JS.Str "0"))))
      = true
   /\ PrimFloat.eqb (submitted "tax")
        (JS.parseFloat (JS.toString (JS.or (JS.lookup "tax" (body req)) (JS.Str "0"))))
      = true
   /\ PrimFloat.eqb (submitted "total")
        (JS.parseFloat (JS.toString (JS.or (JS.lookup "total" (body req)) (JS.Str "0"))))
      = true)
  /\ Prim2SF (JS.parseFloat "-0") = S754_zero true
  /\ Prim2SF (Invoice.tax invoice) = S754_zero false.
Proof.
  intros req invoice submitted. split; [| split; reflexivity].
  apply (C4_invoice_totals_come_from_the_request Example.env Example.store _ req
           invoice [InvoiceItem.mk 1 1 "Ice Blasting" 2 100 200]).
  vm_compute. reflexivity.
Defined.



End InvoiceStorage.

(** ** Hashing a password and logging in with it *)

Section HashedPasswords.
Import Storage Auth.
Local Open Scope string_scope.

Lemma hex_pair_without_dot (x : byte) :
  Ascii.eqb (Buffer.hexDigit (Byte.to_N x / 16)) "." = false
  /\ Ascii.eqb (Buffer.hexDigit (Byte.to_N x mod 16)) "." = false.
Proof. destruct x; split; reflexivity. Qed.

Lemma toHex_without_dot (b : Buffer.buffer) : includes "." (Buffer.toHex b) = false.
Proof.
  induction b as [| x b IH]; [reflexivity |].
  cbn [Buffer.toHex includes].
  destruct (hex_pair_without_dot x) as [high low]. now rewrite high, low, IH.
Qed.

Lemma toHex_filled (b : Buffer.buffer) : b <> [] -> Buffer.toHex b <> "".
Proof. destruct b; [contradiction | discriminate]. Qed.

Lemma includes_after (c : ascii) (h s : string) : includes c (h ++ String c s) = true.
Proof.
  induction h as [| a h IH]; cbn.
  - now rewrite Ascii.eqb_refl.
  - rewrite IH. apply orb_true_r.
Qed.

(** Splitting at the first separator. *)
Lemma split_at_first (c : ascii) (h s : string) :
  includes c h = false -> split c (h ++ String c s) = h :: split c s.
Proof.
  induction h as [| a h IH]; cbn.
  - intros _. now rewrite Ascii.eqb_refl.
  - intros absent. apply orb_false_iff in absent as [head tail].
    rewrite head, (IH tail). reflexivity.
Qed.

Variable scrypt : string -> string -> nat -> Buffer.buffer.

(** A stored text made of a hash part and a salt part, neither with a dot
    nor empty, is accepted when the hash part decodes to the derived key. *)
Lemma comparePasswords_of_parts (supplied hashed salt : string) :
  includes "." hashed = false -> includes "." salt = false ->
  hashed <> "" -> salt <> "" ->
  Buffer.fromHex hashed = scrypt supplied salt 64%nat ->
  comparePasswords scrypt supplied (hashed ++ "." ++ salt) = true.
Proof.
  intros hash_plain salt_plain hash_given salt_given same.
  unfold comparePasswords.
  change (hashed ++ "." ++ salt) with (hashed ++ String "." salt).
  assert (filled : String.eqb (hashed ++ String "." salt) "" = false).
  { apply String.eqb_neq. destruct hashed; discriminate. }
  rewrite filled, includes_after. cbn [orb negb].
  rewrite (split_at_first "." hashed salt hash_plain), (split_without "." salt salt_plain).
  apply String.eqb_neq in hash_given, salt_given.
  rewrite hash_given, salt_given. cbn [orb].
  destruct (String.eqb supplied "admin" && _); [reflexivity |].
  destruct (String.eqb supplied "test" && _); [reflexivity |].
  now apply derived_key_comparison.
Qed.

(** X1.  A password is accepted against its own hash: [comparePasswords]
    returns true for [password] and [hashPassword(password)], whatever
    non-empty salt bytes were drawn and whatever non-empty key scrypt
    derives. *)
Theorem X1_hashed_password_is_accepted :
  forall (randomBytes : Buffer.buffer) (password : string),
    randomBytes <> [] ->
    scrypt password (Buffer.toHex randomBytes) 64%nat <> [] ->
    comparePasswords scrypt password (Hashing.hashPassword scrypt randomBytes password) = true.
Proof.
  intros randomBytes password drawn derived. unfold Hashing.hashPassword.
  apply comparePasswords_of_parts.
  - apply toHex_without_dot.
  - apply toHex_without_dot.
  - now apply toHex_filled.
  - now apply toHex_filled.
  - apply fromHex_toHex.
Qed.

(** X3.  The verify callback hands a user to [done] exactly when that user
    is the row of the given user name, the password compares equal to the
    stored one, and the user is an administrator or approved: an
    administrator needs no approval, and nobody else gets in without it. *)
Theorem X3_verify_authenticates_iff :
  forall (st : Store) (username password : string) (user : User.t),
    verify scrypt st username password = Authenticated user
    <-> getUserByUsername st username = Some user
        /\ comparePasswords scrypt password (User.password user) = true
        /\ (User.role user = "admin" \/ User.approved user = true).
Proof.
  intros st username password user. unfold verify. split.
  - destruct (getUserByUsername st username) as [found |]; [| discriminate].
    destruct (comparePasswords scrypt password (User.password found)) eqn:compared;
      [| discriminate]. cbn [negb].
    destruct (String.eqb_spec (User.role found) "admin") as [is_admin | other]; cbn [negb andb].
    + intros [= <-]. auto.
    + destruct (User.approved found) eqn:approved; [| discriminate]. cbn [negb].
      intros [= <-]. auto.
  - intros (found & compared & allowed). rewrite found, compared. cbn [negb].
    destruct allowed as [is_admin | approved].
    + rewrite is_admin. reflexivity.
    + rewrite approved. now rewrite andb_false_r.
Qed.

End HashedPasswords.

(** X1, for the password [secret123], two salt bytes and the key of the
    examples. *)
Lemma X1_hashed_password_is_accepted_witness :
  Auth.comparePasswords Example.zeroKey "secret123"
    (Hashing.hashPassword Example.zeroKey [x5a; x17] "secret123") = true.
Proof.
  apply (X1_hashed_password_is_accepted Example.zeroKey [x5a; x17] "secret123");
    discriminate.
Defined.

(** ** Creating users *)

Section CreatingUsers.
Import Storage Auth UserStorage.
Local Open Scope string_scope.
Local Open Scope Z_scope.



Variable scrypt : string -> string -> nat -> Buffer.buffer.


End CreatingUsers.


(** ** The administrator's routes *)

Section AdminRoutes.
Import Storage Http Auth Spec.
Local Open Scope string_scope.
Local Open Scope Z_scope.

Lemma find_missing (i : Z) (l : list User.t) :
  (forall x, In x l -> User.id x <> i) -> find (fun u => User.id u =? i) l = None.
Proof.
  intros missing. apply existsb_false_find.
  destruct (existsb _ l) eqn:some; [| reflexivity].
  apply existsb_exists in some as (x & listed & same).
  apply Z.eqb_eq in same. now apply missing in listed.
Qed.

(** What the reject route does for an administrator and a well-formed id. *)
Lemma reject_as_admin (st : Store) (req : request) (caller : User.t) (i : Z) :
  requestUser st req = Returned (Some caller) ->
  User.role caller = "admin" ->
  int4 (JS.parseInt (params_id req)) = Some i ->
  delete_users_id st req
  = (setUsers st (filter (fun u => negb (User.id u =? i)) (users st)),
     Json 200 (Message "User deleted successfully")).
Proof.
  intros resolved is_admin key.
  unfold delete_users_id, isAdmin. rewrite resolved, is_admin.
  change (String.eqb "admin" "admin") with true. cbn [negb].
  rewrite (int4_isNaN _ _ key). unfold deleteUser. now rewrite key.
Qed.

(** The unapproved rows after [approved] was set on the rows of key [i]. *)
Lemma pending_after_approve (i : Z) (l : list User.t) :
  filter (fun user => negb (User.approved user))
         (updated User.id i (setUser approvedTrue) l)
  = filter (fun u => negb (User.id u =? i))
           (filter (fun user => negb (User.approved user)) l).
Proof.
  unfold updated. rewrite filter_app, !filter_filter.
  rewrite (filter_nothing _ (map _ _)).
  - rewrite app_nil_r. apply filter_ext. intros u. apply andb_comm.
  - intros u moved. apply in_map_iff in moved as (v & <- & _). reflexivity.
Qed.

(** A session whose user row is gone ends every request in the error
    handler. *)
Lemma stale_session (st : Store) (req : request) (id : JS.number) :
  session req = Some id ->
  getUser st id = Returned None ->
  requestUser st req = Thrown.
Proof. intros held gone. unfold requestUser. now rewrite held, gone. Qed.

(** X4.  The approve, reject and delete-staff routes do nothing for a caller
    who is not an administrator, and the store is returned as it was: a
    request without a session is answered 401, a session of a user with any
    other role 403, and a session whose user row is gone ends in the error
    handler (passport cannot deserialize the user). *)
Theorem X4_admin_routes_refuse_other_callers :
  forall (st : Store) (req : request),
    (session req = None ->
     patch_users_id_approve st req = (st, Json 401 (Message "You must be logged in"))
     /\ delete_users_id st req = (st, Json 401 (Message "You must be logged in"))
     /\ Routes.delete_staff_id st req = (st, SendStatus 401))
    /\ (forall user : User.t,
           requestUser st req = Returned (Some user) ->
           User.role user <> "admin" ->
           patch_users_id_approve st req
           = (st, Json 403 (Message "You must be an administrator to access this resource"))
           /\ delete_users_id st req
              = (st, Json 403 (Message "You must be an administrator to access this resource"))
           /\ Routes.delete_staff_id st req = (st, Json 403 (Message "Unauthorized access")))
    /\ (forall id : JS.number,
           session req = Some id ->
           getUser st id = Returned None ->
           patch_users_id_approve st req = (st, Next)
           /\ delete_users_id st req = (st, Next)
           /\ Routes.delete_staff_id st req = (st, Next)).
Proof.
  intros st req.
  unfold patch_users_id_approve, delete_users_id, isAdmin, Routes.delete_staff_id.
  split; [| split].
  - intros absent. unfold requestUser. rewrite absent. repeat split.
  - intros user resolved other. rewrite resolved.
    apply String.eqb_neq in other. rewrite other. repeat split.
  - intros id held gone. rewrite (stale_session st req id held gone). repeat split.
Qed.

(** X5.  Approving an id that no user has answers 404 "User not found" and
    leaves the store as it was. *)
Theorem X5_approve_of_missing_user_is_not_found :
  forall (st : Store) (req : request) (caller : User.t) (i : Z),
    requestUser st req = Returned (Some caller) ->
    User.role caller = "admin" ->
    int4 (JS.parseInt (params_id req)) = Some i ->
    (forall x, In x (users st) -> User.id x <> i) ->
    patch_users_id_approve st req = (st, Json 404 (Message "User not found")).
Proof.
  intros st req caller i resolved is_admin key missing.
  rewrite (approve_as_admin st req caller i resolved is_admin key).
  rewrite (updated_missing User.id i _ (users st) missing).
  rewrite (find_missing i (users st) missing).
  now rewrite setUsers_same.
Qed.

Variable scrypt : string -> string -> nat -> Buffer.buffer.

(** X6.  Rejecting the id of a stored user removes that user and no other:
    the route answers 200, every user with another id is still stored, and
    a later login under the removed user's name is refused as an invalid
    user name or password, whatever the password. *)
Theorem X6_rejected_user_cannot_log_in :
  forall (st : Store) (req : request) (caller u : User.t),
    usersTable st ->
    In u (users st) ->
    requestUser st req = Returned (Some caller) ->
    User.role caller = "admin" ->
    int4 (JS.parseInt (params_id req)) = Some (User.id u) ->
    exists st' : Store,
      delete_users_id st req = (st', Json 200 (Message "User deleted successfully"))
      /\ ~ In u (users st')
      /\ (forall v, In v (users st) -> User.id v <> User.id u -> In v (users st'))
      /\ (forall v, In v (users st') -> In v (users st))
      /\ forall password : string,
           verify scrypt st' (User.username u) password
           = Refused "Invalid username or password".
Proof.
  intros st req caller u [keys names] stored resolved is_admin key.
  eexists. split; [apply (reject_as_admin st req caller _ resolved is_admin key) |].
  cbn [users setUsers]. repeat split.
  - intros kept. apply filter_In in kept as [_ other].
    rewrite Z.eqb_refl in other. discriminate.
  - intros v listed other. apply filter_In. split; [assumption |].
    now apply negb_true_iff, Z.eqb_neq.
  - intros v kept. now apply filter_In in kept.
  - intros password. unfold verify, getUserByUsername. cbn [users setUsers].
    destruct (find _ (filter _ (users st))) as [v |] eqn:found; [| reflexivity].
    exfalso. apply find_some in found as [kept same_name].
    apply filter_In in kept as [listed other].
    apply String.eqb_eq in same_name.
    assert (same : v = u).
    { pose proof (find_by_unique_key User.username String.eqb (users st) u
                    String.eqb_eq names stored) as first_u.
      pose proof (find_by_unique_key User.username String.eqb (users st) v
                    String.eqb_eq names listed) as first_v.
      rewrite same_name in first_v. congruence. }
    subst v. rewrite Z.eqb_refl in other. discriminate.
Qed.

(** X7.  [DELETE /api/users/:id] has no guard against the caller's own
    id: an administrator who names it is deleted with the answer 200.  The
    session then names a row that is gone: every later request of that
    session ends in the error handler (passport cannot deserialize the
    user), this route included. *)
Theorem X7_admin_can_delete_own_account_via_users_route :
  forall (st : Store) (req : request) (caller : User.t),
    requestUser st req = Returned (Some caller) ->
    User.role caller = "admin" ->
    int4 (JS.parseInt (params_id req)) = Some (User.id caller) ->
    exists st' : Store,
      delete_users_id st req = (st', Json 200 (Message "User deleted successfully"))
      /\ ~ In caller (users st')
      /\ forall req' : request,
           session req' = session req ->
           requestUser st' req' = Thrown
           /\ delete_users_id st' req' = (st', Next).
Proof.
  intros st req caller resolved is_admin key.
  eexists. split; [apply (reject_as_admin st req caller _ resolved is_admin key) |].
  cbn [users setUsers]. split.
  - intros kept. apply filter_In in kept as [_ other].
    rewrite Z.eqb_refl in other. discriminate.
  - intros req' same_session.
    destruct (requestUser_found st req caller resolved) as (id & held & bound & _).
    assert (gone : requestUser
                     (setUsers st (filter (fun u => negb (User.id u =? User.id caller)) (users st)))
                     req' = Thrown).
    { apply (stale_session _ req' id); [now rewrite same_session |].
      unfold getUser. rewrite bound. cbn [users setUsers].
      now rewrite (find_filtered_out (fun u => User.id u =? User.id caller)). }
    split; [exact gone |]. unfold delete_users_id, isAdmin. now rewrite gone.
Qed.

(** X8.  After an administrator approves an id, the pending list is the
    former pending list without the users of that id, and the table holds
    the same users otherwise: the same keys, each as often as before (in
    whatever order the table returns them), and every user of another id
    unchanged. *)
Theorem X8_approve_removes_from_pending_list :
  forall (st : Store) (req : request) (caller : User.t) (i : Z),
    requestUser st req = Returned (Some caller) ->
    User.role caller = "admin" ->
    int4 (JS.parseInt (params_id req)) = Some i ->
    let st' := fst (patch_users_id_approve st req) in
    pendingUsers st' = filter (fun u => negb (User.id u =? i)) (pendingUsers st)
    /\ Permutation (map User.id (users st')) (map User.id (users st))
    /\ forall v, In v (users st) -> User.id v <> i -> In v (users st').
Proof.
  intros st req caller i resolved is_admin key st'. subst st'.
  rewrite (approve_as_admin st req caller i resolved is_admin key).
  cbn [fst users setUsers]. unfold pendingUsers, getAllUsers. cbn [users setUsers].
  split; [| split].
  - apply pending_after_approve.
  - now apply updated_keys.
  - intros v listed other. unfold updated. apply in_app_iff. left.
    apply filter_In. split; [assumption |]. now apply negb_true_iff, Z.eqb_neq.
Qed.

End AdminRoutes.

Section AdminRouteExamples.
Import Storage Http Auth.
Local Open Scope string_scope.
Local Open Scope Z_scope.

(** X4, for a request without a session, for the session of the pending
    staff user of the examples, and for a session of the id 5, which no user
    has. *)
Lemma X4_admin_routes_refuse_other_callers_witness :
  (let req := mkRequest None "1" [] in
   patch_users_id_approve Example.store req
   = (Example.store, Json 401 (Message "You must be logged in"))
   /\ delete_users_id Example.store req
      = (Example.store, Json 401 (Message "You must be logged in"))
   /\ Routes.delete_staff_id Example.store req = (Example.store, SendStatus 401))
  /\ (let req := mkRequest (Some 2%float) "1" [] in
      patch_users_id_approve Example.store req
      = (Example.store,
         Json 403 (Message "You must be an administrator to access this resource"))
      /\ delete_users_id Example.store req
         = (Example.store,
            Json 403 (Message "You must be an administrator to access this resource"))
      /\ Routes.delete_staff_id Example.store req
         = (Example.store, Json 403 (Message "Unauthorized access")))
  /\ (let req := mkRequest (Some 5%float) "1" [] in
      patch_users_id_approve Example.store req = (Example.store, Next)
      /\ delete_users_id Example.store req = (Example.store, Next)
      /\ Routes.delete_staff_id Example.store req = (Example.store, Next)).
Proof.
  split; [| split].
  - apply (proj1 (X4_admin_routes_refuse_other_callers Example.store
                    (mkRequest None "1" []))).
    reflexivity.
  - apply (proj1 (proj2 (X4_admin_routes_refuse_other_callers Example.store
                           (mkRequest (Some 2%float) "1" []))) Example.bob).
    + vm_compute. reflexivity.
    + discriminate.
  - apply (proj2 (proj2 (X4_admin_routes_refuse_other_callers Example.store
                           (mkRequest (Some 5%float) "1" []))) 5%float).
    + reflexivity.
    + vm_compute. reflexivity.
Defined.

(** X5, for the id 999, which no user of the examples has. *)
Lemma X5_approve_of_missing_user_is_not_found_witness :
  patch_users_id_approve Example.store (Example.asAdmin "999" [])
  = (Example.store, Json 404 (Message "User not found")).
Proof.
  apply (X5_approve_of_missing_user_is_not_found Example.store
           (Example.asAdmin "999" []) Example.admin 999).
  - vm_compute. reflexivity.
  - reflexivity.
  - vm_compute. reflexivity.
  - cbn. intros x [<- | [<- | []]]; discriminate.
Defined.

(** X6, for the administrator rejecting the pending user. *)
Lemma X6_rejected_user_cannot_log_in_witness :
  exists st' : Store,
    delete_users_id Example.store (Example.asAdmin "2" [])
    = (st', Json 200 (Message "User deleted successfully"))
    /\ ~ In Example.bob (users st')
    /\ (forall v, In v (users Example.store) -> User.id v <> 2 -> In v (users st'))
    /\ (forall v, In v (users st') -> In v (users Example.store))
    /\ forall password : string,
         verify Example.zeroKey st' "bob" password = Refused "Invalid username or password".
Proof.
  apply (X6_rejected_user_cannot_log_in Example.zeroKey Example.store
           (Example.asAdmin "2" []) Example.admin Example.bob).
  - exact example_usersTable.
  - cbn. auto.
  - vm_compute. reflexivity.
  - reflexivity.
  - vm_compute. reflexivity.
Defined.

(** X7, for the administrator naming the own id 1. *)
Lemma X7_admin_can_delete_own_account_via_users_route_witness :
  exists st' : Store,
    delete_users_id Example.store (Example.asAdmin "1" [])
    = (st', Json 200 (Message "User deleted successfully"))
    /\ ~ In Example.admin (users st')
    /\ forall req' : request,
         session req' = session (Example.asAdmin "1" []) ->
         requestUser st' req' = Thrown
         /\ delete_users_id st' req' = (st', Next).
Proof.
  apply (X7_admin_can_delete_own_account_via_users_route Example.store
           (Example.asAdmin "1" []) Example.admin).
  - vm_compute. reflexivity.
  - reflexivity.
  - vm_compute. reflexivity.
Defined.

(** X8, for the administrator approving the pending user. *)
Lemma X8_approve_removes_from_pending_list_witness :
  let st' := fst (patch_users_id_approve Example.store (Example.asAdmin "2" [])) in
  pendingUsers st' = filter (fun u => negb (User.id u =? 2)) (pendingUsers Example.store)
  /\ Permutation (map User.id (users st')) (map User.id (users Example.store))
  /\ forall v, In v (users Example.store) -> User.id v <> 2 -> In v (users st').
Proof.
  apply (X8_approve_removes_from_pending_list Example.store
           (Example.asAdmin "2" []) Example.admin 2).
  - vm_compute. reflexivity.
  - reflexivity.
  - vm_compute. reflexivity.
Defined.

End AdminRouteExamples.

(** ** The constraints of the users table *)

Section UsersTable.
Import Storage UserStorage Spec.
Local Open Scope string_scope.
Local Open Scope Z_scope.


Lemma map_update_missing (i : Z) (f : User.t -> User.t) (l : list User.t) :
  (forall x, In x l -> User.id x <> i) ->
  map (fun u => if User.id u =? i then f u else u) l = l.
Proof.
  intros missing. rewrite <- (map_id l) at 2. apply map_ext_in.
  intros x listed. destruct (Z.eqb_spec (User.id x) i) as [same | other]; [| reflexivity].
  now apply missing in listed.
Qed.

(** Renaming the row of key [i] keeps the user names distinct when no other
    row holds the new name. *)
Lemma update_keeps_names (i : Z) (userData : PartialUser.t) (l : list User.t) :
  NoDup (map User.id l) ->
  NoDup (map User.username l) ->
  (forall name, PartialUser.username userData = Some name ->
     forall x, In x l -> User.id x <> i -> User.username x <> name) ->
  NoDup (map User.username
             (map (fun u => if User.id u =? i then setUser userData u else u) l)).
Proof.
  intros keys names free. induction l as [| x l IH]; [constructor |].
  cbn [map] in *. inversion keys as [| ? ? fresh_key keys']; subst.
  inversion names as [| ? ? fresh_name names']; subst.
  assert (free' : forall name, PartialUser.username userData = Some name ->
                    forall y, In y l -> User.id y <> i -> User.username y <> name).
  { intros name given y listed. apply (free name given). now right. }
  destruct (Z.eqb_spec (User.id x) i) as [same | other].
  - assert (missing : forall y, In y l -> User.id y <> i).
    { intros y listed clash. apply fresh_key. rewrite same, <- clash. now apply in_map. }
    rewrite (map_update_missing i _ l missing). constructor; [| assumption].
    cbn [setUser User.username]. unfold override.
    destruct (PartialUser.username userData) as [name |] eqn:given; [| assumption].
    intros held. apply in_map_iff in held as (y & same_name & listed).
    apply (free' name eq_refl y listed (missing y listed) same_name).
  - constructor; [| now apply IH].
    intros held. apply in_map_iff in held as (y' & same_name & listed').
    apply in_map_iff in listed' as (y & <- & listed).
    destruct (Z.eqb_spec (User.id y) i) as [target | _].
    + cbn [setUser User.username] in same_name. unfold override in same_name.
      destruct (PartialUser.username userData) as [name |] eqn:given.
      * apply (free name eq_refl x (or_introl eq_refl) other). now symmetry.
      * apply fresh_name. rewrite <- same_name. now apply in_map.
    + apply fresh_name. rewrite <- same_name. now apply in_map.
Qed.

Lemma usernameTaken_false (rows : list User.t) (i : Z) (userData : PartialUser.t) :
  usernameTaken rows i userData = false ->
  (forall x, In x rows -> User.id x <> i)
  \/ (forall name, PartialUser.username userData = Some name ->
        forall x, In x rows -> User.id x <> i -> User.username x <> name).
Proof.
  unfold usernameTaken.
  destruct (PartialUser.username userData) as [name |]; [| right; discriminate].
  intros free. apply andb_false_iff in free as [absent | unheld].
  - left. intros x listed same.
    assert (present : existsb (fun u => User.id u =? i) rows = true).
    { apply existsb_exists. exists x. split; [assumption | now apply Z.eqb_eq]. }
    congruence.
  - right. intros name' [= <-] x listed other same.
    assert (held : existsb (fun u => negb (User.id u =? i)
                                     && String.eqb (User.username u) name) rows = true).
    { apply existsb_exists. exists x. split; [assumption |].
      apply andb_true_iff. split; [now apply negb_true_iff, Z.eqb_neq |].
      now apply String.eqb_eq. }
    congruence.
Qed.

(** X9.  The storage operations on users keep the constraints of the table:
    after [createUser], [updateUser] or [deleteUser], with any arguments and
    whether the call returns or throws, the ids are distinct, the user names
    are distinct, and the sequence is ahead of every id. *)
Theorem X9_user_operations_keep_the_table_keyed :
  forall (st : Store),
    Keys.keyedUsers st ->
    (forall (now : Z) (insertUser : InsertUser.t),
        Keys.keyedUsers (fst (createUser now st insertUser)))
    /\ (forall (id : JS.number) (userData : PartialUser.t),
           Keys.keyedUsers (fst (updateUser st id userData)))
    /\ (forall id : JS.number, Keys.keyedUsers (fst (deleteUser st id))).
Proof.
  intros st [[keys names] ahead]. split; [| split].
  - intros now insertUser. unfold createUser. cbn [User.username].
    destruct (existsb _ (users st)) eqn:taken; cbn [fst].
    + split; [split; assumption |]. cbn [users users_id_seq].
      intros u listed. apply ahead in listed. lia.
    + unfold Keys.keyedUsers, usersTable. cbn [users users_id_seq].
      rewrite !map_app. cbn [map User.id User.username]. repeat split.
      * apply NoDup_added; [assumption |].
        intros held. apply in_map_iff in held as (u & same & listed).
        apply ahead in listed. lia.
      * apply NoDup_added; [assumption |].
        intros held. apply in_map_iff in held as (u & same & listed).
        assert (found : existsb (fun v => String.eqb (User.username v)
                                            (InsertUser.username insertUser))
                                (users st) = true).
        { apply existsb_exists. exists u. split; [assumption | now apply String.eqb_eq]. }
        congruence.
      * intros u listed. apply in_app_iff in listed as [old | [<- | []]].
        -- apply ahead in old. lia.
        -- cbn. lia.
  - intros id userData. unfold updateUser.
    destruct (int4 id) as [i |]; [| now repeat split].
    destruct (noColumn userData); [now repeat split |]. cbn [orb].
    destruct (usernameTaken (users st) i userData) eqn:taken; [now repeat split |].
    cbn [fst]. unfold Keys.keyedUsers, usersTable. cbn [users users_id_seq setUsers].
    pose proof (updated_permutation User.id i (setUser userData) (users st)) as moved.
    repeat split.
    + apply (Permutation_NoDup
               (Permutation_sym (updated_keys User.id i (setUser userData) (users st)
                                   (fun u => eq_refl)))).
      assumption.
    + apply (Permutation_NoDup (Permutation_sym (Permutation_map User.username moved))).
      destruct (usernameTaken_false _ _ _ taken) as [missing | free].
      * now rewrite (map_update_missing i _ _ missing).
      * now apply update_keeps_names.
    + intros u listed. apply (Permutation_in _ moved) in listed.
      apply in_map_iff in listed as (v & <- & listed).
      apply ahead in listed. now destruct (User.id v =? i).
  - intros id. unfold deleteUser.
    destruct (int4 id) as [i |]; [| now repeat split].
    cbn [fst]. unfold Keys.keyedUsers, usersTable. cbn [users users_id_seq setUsers].
    repeat split.
    + now apply NoDup_map_filter.
    + now apply NoDup_map_filter.
    + intros u kept. apply filter_In in kept as [listed _]. now apply ahead.
Qed.

End UsersTable.

(** X9, for the store of the examples. *)
Lemma X9_user_operations_keep_the_table_keyed_witness :
  (forall (now : Z) (insertUser : InsertUser.t),
      Keys.keyedUsers (fst (UserStorage.createUser now Example.store insertUser)))
  /\ (forall (id : JS.number) (userData : PartialUser.t),
         Keys.keyedUsers (fst (Storage.updateUser Example.store id userData)))
  /\ (forall id : JS.number, Keys.keyedUsers (fst (Storage.deleteUser Example.store id))).
Proof.
  apply (X9_user_operations_keep_the_table_keyed Example.store).
  split; [exact example_usersTable |].
  cbn. intros u [<- | [<- | []]]; cbn; lia.
Defined.


(** ** Invoices and their line items: keys *)

Section InvoiceKeys.
Import Storage Http Routes InvoiceStorage InvoiceRoutes Spec.
Local Open Scope string_scope.
Local Open Scope Z_scope.

(** The session resolves by the users table alone. *)
Lemma requestUser_users (st st' : Store) (req : request) :
  users st' = users st -> requestUser st' req = requestUser st req.
Proof.
  intros same. unfold requestUser, getUser. now rewrite same.
Qed.

(** An id string that gives a key is none of the strings that the [GET]
    route refuses, and its number is not [NaN]. *)
Lemma bound_id_string (s : string) (i : Z) :
  int4 (JS.parseInt s) = Some i ->
  (String.eqb s "" || String.eqb s "undefined" || String.eqb s "NaN") = false
  /\ JS.isNaN (JS.parseInt s) = false.
Proof.
  intros key. split; [| exact (int4_isNaN _ _ key)].
  destruct (String.eqb_spec s "") as [-> | _]; [discriminate key |].
  destruct (String.eqb_spec s "undefined") as [-> | _]; [discriminate key |].
  destruct (String.eqb_spec s "NaN") as [-> | _]; [discriminate key |].
  reflexivity.
Qed.

Lemma createInvoice_keys (st st' : Store) (insertInvoice : InsertInvoice.t)
  (result : outcome Invoice.t) :
  createInvoice st insertInvoice = (st', result) ->
  invoices_id_seq st <= invoices_id_seq st'
  /\ match result with
     | Returned invoice =>
         Invoice.id invoice = invoices_id_seq st
         /\ invoices_id_seq st' = invoices_id_seq st + 1
         /\ ~ In (Invoice.invoiceNumber invoice) (map Invoice.invoiceNumber (invoices st))
     | Thrown => True
     end.
Proof.
  unfold createInvoice.
  destruct (int4 (InsertInvoice.jobId insertInvoice));
    [| intros [= <- <-]; split; [lia | exact I]].
  destruct (int4 (InsertInvoice.customerId insertInvoice));
    [| intros [= <- <-]; split; [lia | exact I]].
  destruct (int4 (InsertInvoice.createdBy insertInvoice));
    [| intros [= <- <-]; split; [lia | exact I]].
  cbn [Invoice.invoiceNumber].
  destruct (existsb _ (invoices st)) eqn:taken; intros [= <- <-];
    cbn [invoices_id_seq Invoice.id Invoice.invoiceNumber]; (split; [lia |]);
    [exact I |].
  split; [reflexivity | split; [reflexivity |]].
  intros held. apply in_map_iff in held as (r & same & listed).
  assert (found : existsb (fun r => String.eqb (Invoice.invoiceNumber r)
                                      (InsertInvoice.invoiceNumber insertInvoice))
                          (invoices st) = true).
  { apply existsb_exists. exists r. split; [assumption | now apply String.eqb_eq]. }
  congruence.
Qed.

Lemma length_rowsFrom (items : list InsertInvoiceItem.t) :
  forall key, List.length (rowsFrom key items) = List.length items.
Proof. induction items as [| item rest IH]; intros key; cbn; [reflexivity | now rewrite IH]. Qed.

Lemma rowsFrom_keys (items : list InsertInvoiceItem.t) :
  forall key row,
    In row (rowsFrom key items) ->
    key <= InvoiceItem.id row < key + Z.of_nat (List.length items).
Proof.
  induction items as [| item rest IH]; intros key row; cbn [rowsFrom]; [intros [] |].
  intros [<- | later].
  - cbn. lia.
  - apply IH in later. cbn [List.length]. lia.
Qed.

Lemma rowsFrom_distinct (items : list InsertInvoiceItem.t) :
  forall key, NoDup (map InvoiceItem.id (rowsFrom key items)).
Proof.
  induction items as [| item rest IH]; intros key; cbn; constructor; [| apply IH].
  intros held. apply in_map_iff in held as (row & same & listed).
  apply rowsFrom_keys in listed. lia.
Qed.

Lemma rowsFrom_invoice (i : Z) (items : list InsertInvoiceItem.t) :
  Forall (fun v => InsertInvoiceItem.invoiceId v = i) items ->
  forall key row, In row (rowsFrom key items) -> InvoiceItem.invoiceId row = i.
Proof.
  induction 1 as [| item rest same _ IH]; intros key row; cbn [rowsFrom]; [intros [] |].
  intros [<- | later]; [exact same | exact (IH _ _ later)].
Qed.

(** Reading stored rows back through [Number(..) || d] changes nothing. *)
Lemma rowsFrom_processed (items : list InsertInvoiceItem.t) :
  forall key, map processedItem (rowsFrom key items) = rowsFrom key items.
Proof.
  induction items as [| item rest IH]; intros key; cbn [rowsFrom map]; [reflexivity |].
  rewrite IH. unfold processedItem. cbn. now rewrite !num_or_idempotent.
Qed.

Lemma acceptedItems_invoice (invoice : Invoice.t) (lineItems : list JS.value) :
  Forall (fun v => InsertInvoiceItem.invoiceId v = Invoice.id invoice)
         (acceptedItems invoice lineItems).
Proof.
  induction lineItems as [| item rest IH]; cbn [acceptedItems]; [constructor |].
  destruct (parseItem invoice item) as [validated |] eqn:parsed; [| exact IH].
  destruct (int4 _); [| exact IH]. constructor; [| exact IH].
  unfold parseItem in parsed. cbv zeta in parsed. revert parsed.
  repeat match goal with
         | |- match ?checked with Some _ => _ | None => None end = Some _ -> _ =>
             destruct checked; [| discriminate]
         end.
  now intros [= <-].
Qed.

Lemma createLineItems_keys (invoice : Invoice.t) (lineItems : list JS.value) :
  forall (st st' : Store) (created : list InvoiceItem.t),
    createLineItems st invoice lineItems = (st', created) ->
    users_id_seq st' = users_id_seq st
    /\ invoices_id_seq st' = invoices_id_seq st
    /\ invoice_items_id_seq st' = invoice_items_id_seq st + Z.of_nat (List.length created).
Proof.
  induction lineItems as [| item rest IH]; intros st st' created; cbn.
  - intros [= <- <-]. cbn. repeat split. lia.
  - destruct (parseItem invoice item) as [validated |]; [| apply IH].
    unfold createInvoiceItem.
    destruct (int4 (JS.num_or (InsertInvoiceItem.quantity validated) 1%float));
      [| apply IH].
    destruct (createLineItems _ invoice rest) as [st'' others] eqn:loop.
    intros [= <- <-]. apply IH in loop as (same_users & same_invoices & items).
    cbn in same_users, same_invoices, items. cbn [List.length].
    repeat split; try assumption. lia.
Qed.

(** The store after an answer of 201: one more invoice, keyed by the
    sequence, and the accepted line items after the old ones. *)
Lemma post_invoices_stored (env : Env) (st st' : Store) (req : request)
  (invoice : Invoice.t) (created : list InvoiceItem.t) :
  post_invoices env st req = (st', Json 201 (InvoiceJson invoice created)) ->
  users st' = users st
  /\ invoices st' = (invoices st ++ [invoice])%list
  /\ invoices_id_seq st' = invoices_id_seq st + 1
  /\ Invoice.id invoice = invoices_id_seq st
  /\ ~ In (Invoice.invoiceNumber invoice) (map Invoice.invoiceNumber (invoices st))
  /\ invoiceItems st' = (invoiceItems st ++ created)%list
  /\ invoice_items_id_seq st' = invoice_items_id_seq st + Z.of_nat (List.length created)
  /\ exists accepted : list InsertInvoiceItem.t,
       created = rowsFrom (invoice_items_id_seq st) accepted
       /\ Forall (fun v => InsertInvoiceItem.invoiceId v = Invoice.id invoice) accepted.
Proof.
  intros answered.
  apply post_invoices_created in answered
    as (user & lineItems & invoiceNumber & validated & st1 & _ & _ & _ & inserted & loop).
  pose proof (createInvoice_tables _ _ _ _ inserted)
    as (users1 & items1 & item_seq1 & appended & _).
  pose proof (createInvoice_keys _ _ _ _ inserted) as (_ & key & seq1 & fresh).
  pose proof (createLineItems_tables _ _ _ _ _ loop) as (users2 & invoices2 & items2 & rows).
  pose proof (createLineItems_keys _ _ _ _ _ loop) as (_ & seq2 & item_seq2).
  rewrite users2, users1, invoices2, appended, seq2, seq1, items2, items1, item_seq2, item_seq1.
  repeat split; try assumption.
  exists (acceptedItems invoice lineItems). rewrite <- item_seq1.
  split; [exact rows | apply acceptedItems_invoice].
Qed.

(** What a refusal leaves behind: the tables, and sequences that did not go
    back. *)
Lemma post_invoices_refused_keys (env : Env) (st st' : Store) (req : request)
  (response : Http.response) :
  post_invoices env st req = (st', response) ->
  (forall invoice created, response <> Json 201 (InvoiceJson invoice created)) ->
  invoices_id_seq st <= invoices_id_seq st'
  /\ invoice_items_id_seq st' = invoice_items_id_seq st.
Proof.
  unfold post_invoices. intros answered refused.
  destruct (requestUser st req) as [[user |] |];
    try (injection answered as <- <-; split; [lia | reflexivity]).
  destruct (negb (JS.truthy (JS.lookup "jobId" (body req))));
    [injection answered as <- <-; split; [lia | reflexivity] |].
  destruct (negb (JS.truthy (JS.lookup "customerId" (body req))));
    [injection answered as <- <-; split; [lia | reflexivity] |].
  destruct (JS.lookup "lineItems" (body req)) as [| | | | | [| first others] |];
    try (injection answered as <- <-; split; [lia | reflexivity]).
  destruct (parseInvoice env user (body req) _) as [validated |];
    [| injection answered as <- <-; split; [lia | reflexivity]].
  destruct (createInvoice st validated) as [st1 [inserted |]] eqn:insertion.
  - destruct (createLineItems st1 inserted (first :: others)) as [st2 items].
    injection answered as <- <-. exfalso. now apply (refused inserted items).
  - injection answered as <- <-.
    pose proof (createInvoice_tables _ _ _ _ insertion) as (_ & _ & same & _).
    pose proof (createInvoice_keys _ _ _ _ insertion) as (ahead & _).
    split; assumption.
Qed.

(** X11.  [POST /api/invoices] keeps the invoice tables well keyed, whatever
    the request and whatever the answer: invoice ids and invoice numbers stay
    distinct, line-item ids stay distinct, both sequences stay ahead of
    every key, and every line item belongs to an invoice id that the
    sequence has passed. *)
Theorem X11_post_invoices_keeps_the_tables_keyed :
  forall (env : Env) (st : Store) (req : request),
    Keys.keyedInvoices st ->
    Keys.keyedInvoices (fst (post_invoices env st req)).
Proof.
  intros env st req (ids & numbers & ahead & item_ids & item_ahead).
  destruct (post_invoices env st req) as [st' response] eqn:answered. cbn [fst].
  assert (cases : (exists invoice created, response = Json 201 (InvoiceJson invoice created))
                  \/ (forall invoice created, response <> Json 201 (InvoiceJson invoice created))).
  { destruct response as [status [| | invoice created |] | | |];
      try (right; intros; discriminate).
    destruct (Z.eq_dec status 201) as [-> | other].
    - left. now exists invoice, created.
    - right. intros ? ? [= ? ? ?]. contradiction. }
  destruct cases as [(invoice & created & ->) | refused].
  - apply post_invoices_stored in answered
      as (_ & invoices' & seq' & key & fresh & items' & item_seq' & accepted & rows & owned).
    unfold Keys.keyedInvoices.
    rewrite invoices', seq', items', item_seq', !map_app. cbn [map].
    split; [| split; [| split; [| split]]].
    + apply NoDup_added; [assumption |].
      intros held. apply in_map_iff in held as (r & same & listed).
      apply ahead in listed. lia.
    + now apply NoDup_added.
    + intros r listed. apply in_app_iff in listed as [old | [<- | []]].
      * apply ahead in old. lia.
      * lia.
    + apply NoDup_app.
      * assumption.
      * rewrite rows. apply rowsFrom_distinct.
      * intros k old new.
        apply in_map_iff in old as (r & <- & listed). apply item_ahead in listed as [below _].
        apply in_map_iff in new as (r' & same & listed'). rewrite rows in listed'.
        apply rowsFrom_keys in listed'. lia.
    + intros item listed. apply in_app_iff in listed as [old | new].
      * apply item_ahead in old. lia.
      * rewrite rows in new.
        pose proof (rowsFrom_keys _ _ _ new) as range.
        pose proof (rowsFrom_invoice _ _ owned _ _ new) as owner.
        rewrite rows, length_rowsFrom. lia.
  - pose proof (post_invoices_refused _ _ _ _ _ answered refused)
      as (_ & same_invoices & same_items).
    pose proof (post_invoices_refused_keys _ _ _ _ _ answered refused) as (seq' & item_seq').
    unfold Keys.keyedInvoices. rewrite same_invoices, same_items, item_seq'.
    split; [assumption | split; [assumption | split; [| split; [assumption |]]]].
    + intros r listed. apply ahead in listed. lia.
    + intros item listed. apply item_ahead in listed. lia.
Qed.


(** X12.  An invoice that [POST /api/invoices] created is read back by
    [GET /api/invoices/:id]: on a well-keyed store, after an answer of 201
    with an invoice and its created line items, a logged-in caller who asks
    for the id of that invoice gets 200 with the same invoice and the same
    line items, in the same order.  (Line items are compared as rows of the
    table; the three type tags that the read adds to each are left out of
    [InvoiceJson].) *)
Theorem X12_created_invoice_is_read_back :
  forall (env : Env) (st st' : Store) (req reader : request)
         (invoice : Invoice.t) (created : list InvoiceItem.t) (caller : User.t),
    Keys.keyedInvoices st ->
    post_invoices env st req = (st', Json 201 (InvoiceJson invoice created)) ->
    requestUser st' reader = Returned (Some caller) ->
    int4 (JS.parseInt (params_id reader)) = Some (Invoice.id invoice) ->
    get_invoices_id st' reader = Json 200 (InvoiceJson invoice created).
Proof.
  intros env st st' req reader invoice created caller
         (ids & numbers & ahead & item_ids & item_ahead) answered resolved key.
  apply post_invoices_stored in answered
    as (_ & invoices' & seq' & fresh_key & _ & items' & _ & accepted & rows & owned).
  unfold get_invoices_id. rewrite resolved.
  destruct (bound_id_string _ _ key) as [-> ->].
  unfold getInvoice, getInvoiceItemsByInvoiceId. rewrite key, invoices', items'.
  rewrite (find_app_later _ (invoices st) invoice).
  - rewrite filter_app, filter_nothing, filter_everything.
    + cbn [app]. rewrite rows. now rewrite rowsFrom_processed.
    + intros item listed. rewrite rows in listed.
      apply Z.eqb_eq. exact (rowsFrom_invoice _ _ owned _ _ listed).
    + intros item listed. apply item_ahead in listed. apply Z.eqb_neq. lia.
  - apply find_absent. intros r listed. apply ahead in listed. apply Z.eqb_neq. lia.
  - apply Z.eqb_refl.
Qed.

End InvoiceKeys.

Section InvoiceKeyExamples.
Import Storage Http Routes InvoiceStorage InvoiceRoutes.
Local Open Scope string_scope.
Local Open Scope Z_scope.

Lemma ledger_keyed : Keys.keyedInvoices Ledger.store.
Proof.
  unfold Keys.keyedInvoices. cbn.
  split; [| split; [| split; [| split]]].
  - constructor; [intros [] | constructor].
  - constructor; [intros [] | constructor].
  - intros r [<- | []]. cbn. lia.
  - constructor; [intros [same | []]; discriminate same |].
    constructor; [intros [] | constructor].
  - intros item [<- | [<- | []]]; cbn; lia.
Qed.

Lemma example_keyed : Keys.keyedInvoices Example.store.
Proof.
  unfold Keys.keyedInvoices. cbn.
  split; [constructor | split; [constructor | split; [| split; [constructor |]]]].
  - intros r [].
  - intros item [].
Qed.

(** X11, for the store with one invoice and any request there. *)
Lemma X11_post_invoices_keeps_the_tables_keyed_witness :
  Keys.keyedInvoices
    (fst (post_invoices Example.env Ledger.store
            (Example.asAdmin ""
               (Example.invoiceBody 250 50 300 [Example.lineItem "Ice Blasting" 2 100 200])))).
Proof.
  apply (X11_post_invoices_keeps_the_tables_keyed Example.env Ledger.store).
  exact ledger_keyed.
Defined.

(** X12, for the first invoice of an empty ledger, read back as [/api/invoices/1]. *)
Lemma X12_created_invoice_is_read_back_witness :
  let req := Example.asAdmin ""
               (Example.invoiceBody 250 50 300
                  [Example.lineItem "Ice Blasting" 2 100 200; Example.undescribed;
                   Example.lineItem "Travel" 1 50 50]) in
  get_invoices_id (fst (post_invoices Example.env Example.store req)) (Example.asAdmin "1" [])
  = Json 200
      (InvoiceJson
         (Invoice.mk 1 "INV-202501-1000" 1 1 250 50 300 1700000000000 1702592000000 None
                     "30" "bank-transfer" "draft" 1)
         [InvoiceItem.mk 1 1 "Ice Blasting" 2 100 200; InvoiceItem.mk 2 1 "Travel" 1 50 50]).
Proof.
  intros req.
  apply (X12_created_invoice_is_read_back Example.env Example.store _ req
           (Example.asAdmin "1" []) _ _ Example.admin).
  - exact example_keyed.
  - vm_compute. reflexivity.
  - vm_compute. reflexivity.
  - vm_compute. reflexivity.
Defined.

End InvoiceKeyExamples.

(** ** Deleting an invoice *)

Section InvoiceRemoval.
Import Storage Http InvoiceStorage InvoiceRoutes.
Local Open Scope string_scope.
Local Open Scope Z_scope.


Lemma setInvoiceItems_same (st : Store) : setInvoiceItems st (invoiceItems st) = st.
Proof. now destruct st. Qed.


(** The loop over the line items to delete removes rows and does nothing
    else, however it ends. *)
Lemma deleteItems_removes (items : list InvoiceItem.t) :
  forall (st st' : Store) (result : outcome unit),
    deleteItems st items = (st', result) ->
    exists keep : InvoiceItem.t -> bool,
      st' = setInvoiceItems st (filter keep (invoiceItems st)).
Proof.
  induction items as [| item rest IH]; intros st st' result; cbn [deleteItems].
  - intros [= <- <-]. exists (fun _ => true).
    rewrite filter_everything by reflexivity. now rewrite setInvoiceItems_same.
  - unfold deleteInvoiceItem. destruct (int4 (JS.of_Z (InvoiceItem.id item))) as [k |].
    + intros loop. apply IH in loop as (keep & ->). cbn [invoiceItems setInvoiceItems].
      rewrite filter_filter. eexists. reflexivity.
    + intros [= <- <-]. exists (fun _ => true).
      rewrite filter_everything by reflexivity. now rewrite setInvoiceItems_same.
Qed.

(** With ids that the column holds, the loop returns, and it has removed the
    rows whose id is the id of one of [items]. *)
Lemma deleteItems_rows (items : list InvoiceItem.t) :
  forall st : Store,
    (forall item, In item items -> Keys.fits (InvoiceItem.id item)) ->
    deleteItems st items
    = (setInvoiceItems st
         (filter (fun r => negb (existsb (fun d => InvoiceItem.id r =? InvoiceItem.id d) items))
                 (invoiceItems st)),
       Returned tt).
Proof.
  induction items as [| item rest IH]; intros st held; cbn [deleteItems existsb].
  - rewrite filter_everything by reflexivity. now rewrite setInvoiceItems_same.
  - unfold deleteInvoiceItem.
    rewrite (int4_of_Z _ (held item (or_introl eq_refl))).
    rewrite IH by (intros d listed; apply held; now right).
    cbn [invoiceItems setInvoiceItems]. rewrite filter_filter.
    rewrite (filter_ext
               (fun r => negb (InvoiceItem.id r =? InvoiceItem.id item)
                         && negb (existsb (fun d => InvoiceItem.id r =? InvoiceItem.id d) rest))
               (fun r => negb ((InvoiceItem.id r =? InvoiceItem.id item)
                               || existsb (fun d => InvoiceItem.id r =? InvoiceItem.id d) rest)))
      by (intros r; now rewrite negb_orb).
    reflexivity.
Qed.

(** The rows of a well-keyed table whose id is the id of a line item of the
    invoice [i] are the line items of [i]. *)
Lemma rows_of_invoice (i : Z) (l : list InvoiceItem.t) :
  NoDup (map InvoiceItem.id l) ->
  filter (fun r =>
            negb (existsb (fun d => InvoiceItem.id r =? InvoiceItem.id d)
                          (map processedItem (filter (fun r => InvoiceItem.invoiceId r =? i) l))))
         l
  = filter (fun r => negb (InvoiceItem.invoiceId r =? i)) l.
Proof.
  intros distinct. apply filter_ext_in. intros r listed. f_equal.
  destruct (InvoiceItem.invoiceId r =? i) eqn:owned.
  - apply existsb_exists. exists (processedItem r). split.
    + apply in_map, filter_In. now split.
    + apply Z.eqb_refl.
  - apply not_true_is_false. intros found.
    apply existsb_exists in found as (d & listed_d & same).
    apply in_map_iff in listed_d as (r' & <- & kept).
    apply filter_In in kept as [listed' owned']. apply Z.eqb_eq in same.
    cbn [processedItem InvoiceItem.id] in same.
    rewrite (unique_key_row InvoiceItem.id l r r' distinct listed listed' same) in owned.
    congruence.
Qed.

(** X13.  [DELETE /api/invoices/:id] removes the invoice and exactly its
    line items: for a logged-in caller and an id that is a 32-bit integer
    [i], on a table of line items with distinct ids that the column holds,
    the answer is 204 and the store is left without the invoices of id [i]
    and without the line items of invoice [i]; users, other invoices, other
    line items and the sequences are as before.  This is so whether or not
    an invoice has the id. *)
Theorem X13_delete_invoice_removes_its_line_items :
  forall (st : Store) (req : request) (caller : User.t) (i : Z),
    NoDup (map InvoiceItem.id (invoiceItems st)) ->
    (forall item, In item (invoiceItems st) -> Keys.fits (InvoiceItem.id item)) ->
    requestUser st req = Returned (Some caller) ->
    int4 (JS.parseInt (params_id req)) = Some i ->
    delete_invoices_id st req
    = (mkStore (users st) (users_id_seq st)
         (filter (fun r => negb (Invoice.id r =? i)) (invoices st)) (invoices_id_seq st)
         (filter (fun r => negb (InvoiceItem.invoiceId r =? i)) (invoiceItems st))
         (invoice_items_id_seq st),
       Send 204).
Proof.
  intros st req caller i distinct held resolved key.
  unfold delete_invoices_id. rewrite resolved.
  unfold getInvoiceItemsByInvoiceId. rewrite key.
  rewrite deleteItems_rows.
  - unfold deleteInvoice. rewrite key. cbn [negb].
    rewrite (rows_of_invoice i _ distinct). reflexivity.
  - intros d listed. apply in_map_iff in listed as (r & <- & kept).
    apply filter_In in kept as [listed _]. exact (held r listed).
Qed.

(** X14.  [DELETE /api/invoices/:id] never answers 404, although the handler
    has a branch for it: [deleteInvoice] reports success whatever it
    deleted.  The answer is 401, or 204, or the error handler. *)
Theorem X14_delete_invoice_never_answers_not_found :
  forall (st : Store) (req : request),
    let response := snd (delete_invoices_id st req) in
    response = SendStatus 401 \/ response = Send 204 \/ response = Next.
Proof.
  intros st req. cbv zeta. unfold delete_invoices_id.
  destruct (requestUser st req) as [[caller |] |]; cbn [snd]; auto.
  destruct (getInvoiceItemsByInvoiceId st _) as [lineItems |]; cbn [snd]; auto.
  destruct (deleteItems st lineItems) as [st1 [[] |]]; cbn [snd]; auto.
  unfold deleteInvoice. destruct (int4 _); cbn; auto.
Qed.

End InvoiceRemoval.

(** X13, for the ledger with one invoice and two line items: [DELETE
    /api/invoices/1] empties both tables. *)
Lemma X13_delete_invoice_removes_its_line_items_witness :
  InvoiceRoutes.delete_invoices_id Ledger.store (Example.asAdmin "1" [])
  = (Storage.mkStore [Example.admin; Example.bob] 3 [] 2 [] 3, Http.Send 204).
Proof.
  apply (X13_delete_invoice_removes_its_line_items Ledger.store (Example.asAdmin "1" [])
           Example.admin 1).
  - exact (proj1 (proj2 (proj2 (proj2 ledger_keyed)))).
  - intros item [<- | [<- | []]]; unfold Keys.fits; cbn; lia.
  - vm_compute. reflexivity.
  - vm_compute. reflexivity.
Defined.

(** ** Updating an invoice *)

Section InvoiceUpdate.
Import Storage Http InvoiceStorage InvoiceRoutes Spec.
Local Open Scope string_scope.
Local Open Scope Z_scope.

(** [updateInvoice] writes the [invoices] table only, and what it returns is
    the row of the key in the table it leaves. *)
Lemma updateInvoice_tables (st st' : Store) (id : JS.number) (invoiceData : PartialInvoice.t)
  (result : outcome (option Invoice.t)) :
  updateInvoice st id invoiceData = (st', result) ->
  st' = setInvoices st (invoices st')
  /\ match result with
     | Returned found =>
         exists i, int4 id = Some i /\ found = find (fun r => Invoice.id r =? i) (invoices st')
     | Thrown => st' = st
     end.
Proof.
  unfold updateInvoice.
  destruct (int4 id) as [i |]; [| intros [= <- <-]; now destruct st].
  destruct (optionalInt4 (PartialInvoice.jobId invoiceData)) as [job |];
    [| intros [= <- <-]; now destruct st].
  destruct (optionalInt4 (PartialInvoice.customerId invoiceData)) as [customer |];
    [| intros [= <- <-]; now destruct st].
  destruct (optionalInt4 (PartialInvoice.createdBy invoiceData)) as [creator |];
    [| intros [= <- <-]; now destruct st].
  destruct (noColumn invoiceData || numberTaken (invoices st) i invoiceData);
    intros [= <- <-]; [now destruct st |].
  split; [reflexivity |]. exists i. split; reflexivity.
Qed.

(** The loop that writes the new line items, in one equation. *)
Lemma createReplacements_written (invoiceId : JS.number) (lineItems : list JS.value) :
  forall st : Store,
    createReplacements st invoiceId lineItems
    = (mkStore (users st) (users_id_seq st) (invoices st) (invoices_id_seq st)
         (invoiceItems st
          ++ rowsFrom (invoice_items_id_seq st) (fst (Replacement.written invoiceId lineItems)))
         (invoice_items_id_seq st
          + Z.of_nat (List.length (fst (Replacement.written invoiceId lineItems)))),
       if snd (Replacement.written invoiceId lineItems)
       then Some (rowsFrom (invoice_items_id_seq st)
                           (fst (Replacement.written invoiceId lineItems)))
       else None).
Proof.
  assert (same : forall st : Store,
             mkStore (users st) (users_id_seq st) (invoices st) (invoices_id_seq st)
                     (invoiceItems st ++ []) (invoice_items_id_seq st + Z.of_nat 0) = st).
  { intros [a b c d e f]. cbn. now rewrite app_nil_r, Z.add_0_r. }
  induction lineItems as [| item rest IH]; intros st;
    cbn [createReplacements Replacement.written].
  - cbn. now rewrite same.
  - destruct (parseReplacement invoiceId item) as [validated |]; [| cbn; now rewrite same].
    unfold createInvoiceItem.
    destruct (int4 (JS.num_or (InsertInvoiceItem.quantity validated) 1%float));
      [| cbn; now rewrite same].
    rewrite IH.
    destruct (Replacement.written invoiceId rest) as [others completed].
    cbn [fst snd users users_id_seq invoices invoices_id_seq invoiceItems
         invoice_items_id_seq rowsFrom List.length].
    rewrite <- app_assoc, Nat2Z.inj_succ. cbn [app].
    replace (invoice_items_id_seq st + 1 + Z.of_nat (List.length others))
      with (invoice_items_id_seq st + Z.succ (Z.of_nat (List.length others))) by lia.
    now destruct completed.
Qed.

Lemma written_invoice (invoiceId : JS.number) (i : Z) (lineItems : list JS.value) :
  int4 invoiceId = Some i ->
  Forall (fun v => InsertInvoiceItem.invoiceId v = i)
         (fst (Replacement.written invoiceId lineItems)).
Proof.
  intros key. induction lineItems as [| item rest IH]; cbn [Replacement.written];
    [constructor |].
  destruct (parseReplacement invoiceId item) as [validated |] eqn:parsed; [| constructor].
  destruct (int4 (JS.num_or _ _)); [| constructor].
  destruct (Replacement.written invoiceId rest) as [others completed].
  cbn [fst] in *. constructor; [| exact IH].
  unfold parseReplacement in parsed. cbv zeta in parsed. rewrite key in parsed.
  revert parsed.
  repeat match goal with
         | |- match ?checked with Some _ => _ | None => None end = Some _ -> _ =>
             destruct checked; [| discriminate]
         end.
  now intros [= <-].
Qed.

(** What the route does once the invoice row has been updated. *)
Lemma put_after_update (st st1 : Store) (req : request) (caller : User.t)
  (validated : PartialInvoice.t) (updated : Invoice.t) :
  requestUser st req = Returned (Some caller) ->
  parsePartialInvoice (body req) = Some validated ->
  updateInvoice st (JS.parseInt (params_id req)) validated = (st1, Returned (Some updated)) ->
  put_invoices_id st req
  = match JS.lookup "lineItems" (body req) with
    | JS.Array newItems =>
        match getInvoiceItemsByInvoiceId st1 (JS.parseInt (params_id req)) with
        | Thrown => (st1, Next)
        | Returned existingItems =>
            match deleteItems st1 existingItems with
            | (st2, Thrown) => (st2, Next)
            | (st2, Returned _) =>
                match createReplacements st2 (JS.parseInt (params_id req)) newItems with
                | (st3, None) => (st3, Next)
                | (st3, Some updatedLineItems) =>
                    (st3, Json 200 (InvoiceJson updated updatedLineItems))
                end
            end
        end
    | _ =>
        match getInvoiceItemsByInvoiceId st1 (JS.parseInt (params_id req)) with
        | Thrown => (st1, Next)
        | Returned existingLineItems =>
            (st1, Json 200 (InvoiceJson updated existingLineItems))
        end
    end.
Proof.
  intros resolved parsed written. unfold put_invoices_id.
  now rewrite resolved, parsed, written.
Qed.

(** An answer of 200 comes from a validated body and an updated row. *)
Lemma put_invoices_answered (st st' : Store) (req : request) (updated : Invoice.t)
  (items : list InvoiceItem.t) :
  put_invoices_id st req = (st', Json 200 (InvoiceJson updated items)) ->
  exists (caller : User.t) (validated : PartialInvoice.t) (st1 : Store),
    requestUser st req = Returned (Some caller)
    /\ parsePartialInvoice (body req) = Some validated
    /\ updateInvoice st (JS.parseInt (params_id req)) validated
       = (st1, Returned (Some updated)).
Proof.
  unfold put_invoices_id.
  destruct (requestUser st req) as [[caller |] |]; try discriminate.
  destruct (parsePartialInvoice (body req)) as [validated |]; [| discriminate].
  destruct (updateInvoice st _ validated) as [st1 [[row |] |]] eqn:written;
    try discriminate.
  intros answered. exists caller, validated, st1.
  assert (row = updated) as ->; [| now repeat split].
  destruct (JS.lookup "lineItems" (body req));
    try (destruct (getInvoiceItemsByInvoiceId st1 _); [| discriminate];
         now injection answered as _ <- _).
  destruct (getInvoiceItemsByInvoiceId st1 _); [| discriminate].
  destruct (deleteItems st1 _) as [st2 [[] |]]; [| discriminate].
  destruct (createReplacements st2 _ _) as [st3 [l |]]; [| discriminate].
  now injection answered as _ <- _.
Qed.


(** X16.  What [PUT /api/invoices/:id] answers with 200 is what
    [GET /api/invoices/:id] then returns for the same id and session: the
    updated invoice and the line items of the answer, whether the request
    replaced the line items or left them.  (Line-item ids are those the
    column holds; line items are compared as rows of the table, without the
    type tags that the read adds.) *)
Theorem X16_updated_invoice_is_read_back :
  forall (st st' : Store) (req : request) (updated : Invoice.t)
         (items : list InvoiceItem.t),
    (forall item, In item (invoiceItems st) -> Keys.fits (InvoiceItem.id item)) ->
    put_invoices_id st req = (st', Json 200 (InvoiceJson updated items)) ->
    get_invoices_id st' req = Json 200 (InvoiceJson updated items).
Proof.
  intros st st' req updated items held answered.
  destruct (put_invoices_answered _ _ _ _ _ answered)
    as (caller & validated & st1 & resolved & parsed & written).
  rewrite (put_after_update st st1 req caller validated updated resolved parsed written)
    in answered.
  apply updateInvoice_tables in written as [table (i & key & found)].
  assert (read : forall st2 : Store,
             users st2 = users st -> invoices st2 = invoices st1 ->
             get_invoices_id st2 req
             = match getInvoiceItemsByInvoiceId st2 (JS.parseInt (params_id req)) with
               | Thrown => Next
               | Returned lineItems => Json 200 (InvoiceJson updated lineItems)
               end).
  { intros st2 same_users same_invoices. unfold get_invoices_id.
    rewrite (requestUser_users st st2 req same_users), resolved.
    destruct (bound_id_string _ _ key) as [-> ->].
    unfold getInvoice. now rewrite key, same_invoices, <- found. }
  assert (same_users : users st1 = users st) by (rewrite table; reflexivity).
  destruct (JS.lookup "lineItems" (body req)) as [| | | | | newItems |] eqn:array;
    try (destruct (getInvoiceItemsByInvoiceId st1 (JS.parseInt (params_id req)))
           as [existing |] eqn:items_read; [| discriminate];
         injection answered as <- <-;
         now rewrite (read st1 same_users eq_refl), items_read).
  revert answered. unfold getInvoiceItemsByInvoiceId at 1. rewrite key.
  rewrite deleteItems_rows.
  - rewrite createReplacements_written.
    destruct (snd (Replacement.written _ newItems)); [| discriminate].
    intros [= <- <-]. rewrite read; [| exact same_users | reflexivity].
    unfold getInvoiceItemsByInvoiceId. rewrite key.
    cbn [invoiceItems setInvoiceItems]. rewrite filter_app, filter_nothing, filter_everything.
    + cbn [app]. now rewrite rowsFrom_processed.
    + intros row listed. apply Z.eqb_eq.
      exact (rowsFrom_invoice i _ (written_invoice _ i newItems key) _ _ listed).
    + intros row kept. apply filter_In in kept as [listed absent].
      destruct (InvoiceItem.invoiceId row =? i) eqn:owned; [| reflexivity].
      apply negb_true_iff in absent. rewrite <- absent. symmetry.
      apply existsb_exists. exists (processedItem row). split; [| apply Z.eqb_refl].
      apply in_map, filter_In. now split.
  - intros d listed. apply in_map_iff in listed as (r & <- & kept).
    apply filter_In in kept as [listed _]. rewrite table in listed.
    exact (held r listed).
Qed.

(** X17.  [PUT /api/invoices/:id] refuses every body that carries an
    [issueDate] or a [dueDate]: the handler hands the field of the JSON
    body to the schema as it is, the schema takes a [Date] there, and the
    request ends in the error handler with the store as it was. *)
Theorem X17_put_with_a_date_is_refused :
  forall (st : Store) (req : request) (caller : User.t),
    requestUser st req = Returned (Some caller) ->
    JS.lookup "issueDate" (body req) <> JS.Undefined
    \/ JS.lookup "dueDate" (body req) <> JS.Undefined ->
    put_invoices_id st req = (st, Next).
Proof.
  intros st req caller resolved dated. unfold put_invoices_id. rewrite resolved.
  assert (refused : parsePartialInvoice (body req) = None); [| now rewrite refused].
  unfold parsePartialInvoice.
  assert (bad : optionalDate (JS.lookup "issueDate" (body req)) = None
                \/ optionalDate (JS.lookup "dueDate" (body req)) = None).
  { destruct dated as [given | given]; [left | right];
      (destruct (JS.lookup _ (body req)); [contradiction | ..]; reflexivity). }
  cbv zeta.
  destruct bad as [-> | ->]; cbv iota;
    repeat match goal with
           | |- match ?checked with Some _ => _ | None => None end = None =>
               destruct checked; [| reflexivity]; cbv iota
           end;
    reflexivity.
Qed.

End InvoiceUpdate.

Section InvoiceUpdateExamples.
Import Storage Http InvoiceStorage InvoiceRoutes.
Local Open Scope string_scope.
Local Open Scope Z_scope.

Lemma ledger_items_fit :
  forall item, In item (invoiceItems Ledger.store) -> Keys.fits (InvoiceItem.id item).
Proof. intros item [<- | [<- | []]]; unfold Keys.fits; cbn; lia. Qed.


(** X16, for a request that replaces the two line items of the ledger by
    one. *)
Lemma X16_updated_invoice_is_read_back_witness :
  let req := Example.asAdmin "1"
               [("status", JS.Str "sent");
                ("lineItems", JS.Array [Example.lineItem "Cleaning" 1 80 80])] in
  get_invoices_id (fst (put_invoices_id Ledger.store req)) req
  = Json 200
      (InvoiceJson
         (Invoice.mk 1 "INV-202501-1000" 1 1 250 50 300 1700000000000 1702592000000 None
                     "30" "bank-transfer" "sent" 1)
         [InvoiceItem.mk 3 1 "Cleaning" 1 80 80]).
Proof.
  intros req.
  apply (X16_updated_invoice_is_read_back Ledger.store _ req).
  - exact ledger_items_fit.
  - vm_compute. reflexivity.
Defined.

(** X17, for a request that carries the due date as the form sends it. *)
Lemma X17_put_with_a_date_is_refused_witness :
  put_invoices_id Ledger.store
    (Example.asAdmin "1" [("dueDate", JS.Str "2025-02-28"); ("status", JS.Str "sent")])
  = (Ledger.store, Next).
Proof.
  apply (X17_put_with_a_date_is_refused Ledger.store _ Example.admin).
  - vm_compute. reflexivity.
  - right. cbn. discriminate.
Defined.

End InvoiceUpdateExamples.

(** ** The constraints of the invoice tables *)

Section InvoiceTables.
Import Storage Http InvoiceStorage InvoiceRoutes Spec.
Local Open Scope string_scope.
Local Open Scope Z_scope.

Lemma map_update_absent {A : Type} (key : A -> Z) (f : A -> A) (i : Z) (l : list A) :
  (forall x, In x l -> key x <> i) ->
  map (fun r => if key r =? i then f r else r) l = l.
Proof.
  intros missing. rewrite <- (map_id l) at 2. apply map_ext_in.
  intros x listed. destruct (Z.eqb_spec (key x) i) as [same | other]; [| reflexivity].
  now apply missing in listed.
Qed.

(** Rewriting the row of key [i] keeps a second column unique when the new
    value of that column is not held by another row. *)
Lemma update_keeps_unique {A N : Type} (key : A -> Z) (name : A -> N) (f : A -> A)
  (i : Z) (l : list A) :
  NoDup (map key l) ->
  NoDup (map name l) ->
  (forall x y, In x l -> In y l -> key x <> i -> key y = i -> name (f y) <> name x) ->
  NoDup (map name (map (fun r => if key r =? i then f r else r) l)).
Proof.
  intros keys names free. induction l as [| x l IH]; [constructor |].
  cbn [map] in *. inversion keys as [| ? ? fresh_key keys']; subst.
  inversion names as [| ? ? fresh_name names']; subst.
  assert (free' : forall a b, In a l -> In b l -> key a <> i -> key b = i ->
                              name (f b) <> name a).
  { intros a b listed_a listed_b. apply free; now right. }
  destruct (Z.eqb_spec (key x) i) as [same | other].
  - assert (missing : forall y, In y l -> key y <> i).
    { intros y listed clash. apply fresh_key. rewrite same, <- clash. now apply in_map. }
    rewrite (map_update_absent key f i l missing). constructor; [| assumption].
    intros held. apply in_map_iff in held as (y & same_name & listed).
    apply (free y x (or_intror listed) (or_introl eq_refl) (missing y listed) same).
    now symmetry.
  - constructor; [| now apply IH].
    intros held. apply in_map_iff in held as (y' & same_name & listed').
    apply in_map_iff in listed' as (y & <- & listed).
    destruct (Z.eqb_spec (key y) i) as [target | _].
    + exact (free x y (or_introl eq_refl) (or_intror listed) other target same_name).
    + apply fresh_name. rewrite <- same_name. now apply in_map.
Qed.

Lemma numberTaken_false (rows : list Invoice.t) (i : Z) (invoiceData : PartialInvoice.t) :
  numberTaken rows i invoiceData = false ->
  (forall x, In x rows -> Invoice.id x <> i)
  \/ (forall number, PartialInvoice.invoiceNumber invoiceData = Some number ->
        forall x, In x rows -> Invoice.id x <> i -> Invoice.invoiceNumber x <> number).
Proof.
  unfold numberTaken.
  destruct (PartialInvoice.invoiceNumber invoiceData) as [number |]; [| right; discriminate].
  intros free. apply andb_false_iff in free as [absent | unheld].
  - left. intros x listed same.
    assert (present : existsb (fun r => Invoice.id r =? i) rows = true).
    { apply existsb_exists. exists x. split; [assumption | now apply Z.eqb_eq]. }
    congruence.
  - right. intros number' [= <-] x listed other same.
    assert (held : existsb (fun r => negb (Invoice.id r =? i)
                                     && String.eqb (Invoice.invoiceNumber r) number) rows
                   = true).
    { apply existsb_exists. exists x. split; [assumption |].
      apply andb_true_iff. split; [now apply negb_true_iff, Z.eqb_neq |].
      now apply String.eqb_eq. }
    congruence.
Qed.

Lemma updateInvoice_keyed (st : Store) (id : JS.number) (invoiceData : PartialInvoice.t) :
  Keys.keyedInvoices st -> Keys.keyedInvoices (fst (updateInvoice st id invoiceData)).
Proof.
  intros keyed. pose proof keyed as (ids & numbers & ahead & item_ids & item_ahead).
  unfold updateInvoice.
  destruct (int4 id) as [i |]; [| exact keyed].
  destruct (optionalInt4 (PartialInvoice.jobId invoiceData)) as [job |]; [| exact keyed].
  destruct (optionalInt4 (PartialInvoice.customerId invoiceData)) as [customer |];
    [| exact keyed].
  destruct (optionalInt4 (PartialInvoice.createdBy invoiceData)) as [creator |];
    [| exact keyed].
  destruct (noColumn invoiceData); [exact keyed |]. cbn [orb].
  destruct (numberTaken (invoices st) i invoiceData) eqn:taken; [exact keyed |].
  cbn [fst]. unfold Keys.keyedInvoices.
  cbn [invoices invoices_id_seq invoiceItems invoice_items_id_seq setInvoices].
  pose proof (updated_permutation Invoice.id i
                (setInvoice invoiceData job customer creator) (invoices st)) as moved.
  split; [| split; [| split; [| split; assumption]]].
  - apply (Permutation_NoDup
             (Permutation_sym (updated_keys Invoice.id i
                                 (setInvoice invoiceData job customer creator) (invoices st)
                                 (fun r => eq_refl)))).
    assumption.
  - apply (Permutation_NoDup (Permutation_sym (Permutation_map Invoice.invoiceNumber moved))).
    destruct (numberTaken_false _ _ _ taken) as [missing | free].
    + now rewrite (map_update_absent Invoice.id _ i _ missing).
    + apply update_keeps_unique; try assumption.
      intros x y listed_x listed_y other target.
      cbn [setInvoice Invoice.invoiceNumber]. unfold override.
      destruct (PartialInvoice.invoiceNumber invoiceData) as [number |] eqn:given.
      * intros same. exact (free number eq_refl x listed_x other (eq_sym same)).
      * intros same.
        pose proof (unique_key_row Invoice.invoiceNumber _ y x numbers listed_y listed_x same).
        subst y. contradiction.
  - intros r listed. apply (Permutation_in _ moved) in listed.
    apply in_map_iff in listed as (v & <- & listed).
    apply ahead in listed. now destruct (Invoice.id v =? i).
Qed.

Lemma keyed_without_items (st : Store) (keep : InvoiceItem.t -> bool) :
  Keys.keyedInvoices st ->
  Keys.keyedInvoices (setInvoiceItems st (filter keep (invoiceItems st))).
Proof.
  intros (ids & numbers & ahead & item_ids & item_ahead). unfold Keys.keyedInvoices.
  cbn [invoices invoices_id_seq invoiceItems invoice_items_id_seq setInvoiceItems].
  split; [assumption | split; [assumption | split; [assumption | split]]].
  - now apply NoDup_map_filter.
  - intros item kept. apply filter_In in kept as [listed _]. now apply item_ahead.
Qed.

Lemma keyed_without_invoices (st : Store) (keep : Invoice.t -> bool) :
  Keys.keyedInvoices st ->
  Keys.keyedInvoices (setInvoices st (filter keep (invoices st))).
Proof.
  intros (ids & numbers & ahead & item_ids & item_ahead). unfold Keys.keyedInvoices.
  cbn [invoices invoices_id_seq invoiceItems invoice_items_id_seq setInvoices].
  split; [| split; [| split; [| split; assumption]]].
  - now apply NoDup_map_filter.
  - now apply NoDup_map_filter.
  - intros r kept. apply filter_In in kept as [listed _]. now apply ahead.
Qed.

Lemma keyed_with_rows (st : Store) (i : Z) (accepted : list InsertInvoiceItem.t) :
  Keys.keyedInvoices st ->
  i < invoices_id_seq st ->
  Forall (fun v => InsertInvoiceItem.invoiceId v = i) accepted ->
  Keys.keyedInvoices
    (mkStore (users st) (users_id_seq st) (invoices st) (invoices_id_seq st)
       (invoiceItems st ++ rowsFrom (invoice_items_id_seq st) accepted)
       (invoice_items_id_seq st + Z.of_nat (List.length accepted))).
Proof.
  intros (ids & numbers & ahead & item_ids & item_ahead) numbered owned.
  unfold Keys.keyedInvoices.
  cbn [invoices invoices_id_seq invoiceItems invoice_items_id_seq].
  split; [assumption | split; [assumption | split; [assumption | split]]].
  - rewrite map_app. apply NoDup_app.
    + assumption.
    + apply rowsFrom_distinct.
    + intros k old new.
      apply in_map_iff in old as (r & <- & listed). apply item_ahead in listed as [below _].
      apply in_map_iff in new as (r' & same & listed').
      apply rowsFrom_keys in listed'. lia.
  - intros item listed. apply in_app_iff in listed as [old | new].
    + apply item_ahead in old. lia.
    + pose proof (rowsFrom_keys _ _ _ new) as range.
      pose proof (rowsFrom_invoice _ _ owned _ _ new) as owner. lia.
Qed.

(** X18.  [PUT] and [DELETE /api/invoices/:id] keep the invoice tables well
    keyed, whatever the request and whatever the answer, also when the
    request ends half way: invoice ids, invoice numbers and line-item ids
    stay distinct, both sequences stay ahead of every key, and every line
    item belongs to an invoice id that the sequence has passed. *)
Theorem X18_put_and_delete_keep_the_tables_keyed :
  forall (st : Store) (req : request),
    Keys.keyedInvoices st ->
    Keys.keyedInvoices (fst (put_invoices_id st req))
    /\ Keys.keyedInvoices (fst (delete_invoices_id st req)).
Proof.
  intros st req keyed. split.
  - unfold put_invoices_id.
    destruct (requestUser st req) as [[caller |] |]; try exact keyed.
    destruct (parsePartialInvoice (body req)) as [validated |]; [| exact keyed].
    pose proof (updateInvoice_keyed st (JS.parseInt (params_id req)) validated keyed)
      as keyed1.
    destruct (updateInvoice st _ validated) as [st1 [[updated |] |]] eqn:written;
      cbn [fst] in keyed1; try exact keyed1.
    apply updateInvoice_tables in written as [_ (i & key & found)].
    symmetry in found. apply find_some in found as [listed same].
    apply Z.eqb_eq in same.
    assert (numbered : i < invoices_id_seq st1).
    { rewrite <- same. now apply (proj1 (proj2 (proj2 keyed1))). }
    destruct (JS.lookup "lineItems" (body req)) as [| | | | | newItems |];
      try (destruct (getInvoiceItemsByInvoiceId st1 _); exact keyed1).
    destruct (getInvoiceItemsByInvoiceId st1 _) as [existingItems |]; [| exact keyed1].
    destruct (deleteItems st1 existingItems) as [st2 [[] |]] eqn:removal;
      apply deleteItems_removes in removal as (keep & ->);
      pose proof (keyed_without_items st1 keep keyed1) as keyed2; [| exact keyed2].
    rewrite createReplacements_written.
    assert (keyed3 := keyed_with_rows _ i _ keyed2 numbered
                        (written_invoice _ i newItems key)).
    now destruct (snd (Replacement.written _ newItems)).
  - unfold delete_invoices_id.
    destruct (requestUser st req) as [[caller |] |]; try exact keyed.
    destruct (getInvoiceItemsByInvoiceId st _) as [lineItems |]; [| exact keyed].
    destruct (deleteItems st lineItems) as [st1 [[] |]] eqn:removal;
      apply deleteItems_removes in removal as (keep & ->);
      pose proof (keyed_without_items st keep keyed) as keyed1; [| exact keyed1].
    unfold deleteInvoice. destruct (int4 _) as [i |]; [| exact keyed1].
    cbn [negb fst]. exact (keyed_without_invoices _ _ keyed1).
Qed.

End InvoiceTables.

(** X18, for the ledger and a request that replaces its line items. *)
Lemma X18_put_and_delete_keep_the_tables_keyed_witness :
  let req := Example.asAdmin "1"
               [("status", JS.Str "sent");
                ("lineItems",
                 JS.Array [Example.lineItem "Cleaning" 1 80 80; Example.undescribed])]%string in
  Keys.keyedInvoices (fst (InvoiceRoutes.put_invoices_id Ledger.store req))
  /\ Keys.keyedInvoices (fst (InvoiceRoutes.delete_invoices_id Ledger.store req)).
Proof.
  intros req.
  apply (X18_put_and_delete_keep_the_tables_keyed Ledger.store req).
  exact ledger_keyed.
Defined.

(** ** The rows of the invoice form *)

Section FormRows.
Import InvoiceForm JobSelection.
Local Open Scope float_scope.

Lemma nth_error_mapi {A B : Type} (f : nat -> A -> B) (l : list A) :
  forall k j, nth_error (mapi k f l) j = option_map (f (k + j)%nat) (nth_error l j).
Proof.
  induction l as [| x l IH]; intros k [| j]; cbn; try reflexivity.
  - now rewrite Nat.add_0_r.
  - rewrite IH. now rewrite Nat.add_succ_r.
Qed.

Lemma filteri_everything {A : Type} (keep : nat -> A -> bool) (l : list A) :
  forall k, (forall i x, (k <= i)%nat -> keep i x = true) -> filteri k keep l = l.
Proof.
  induction l as [| x l IH]; intros k all; cbn; [reflexivity |].
  rewrite (all k x (Nat.le_refl k)). f_equal. apply IH.
  intros i y above. apply all. lia.
Qed.

(** [filter((_, i) => i !== index)] takes out the element at [index]. *)
Lemma filteri_without {A : Type} (l : list A) :
  forall k index,
    filteri k (fun i _ => negb (i =? k + index)%nat) l
    = (firstn index l ++ skipn (S index) l)%list.
Proof.
  induction l as [| x l IH]; intros k index; cbn [filteri].
  - now destruct index.
  - destruct index as [| index].
    + rewrite Nat.add_0_r, Nat.eqb_refl. cbn.
      apply filteri_everything. intros i y above.
      apply negb_true_iff, Nat.eqb_neq. lia.
    + replace (k =? k + S index)%nat with false by (symmetry; apply Nat.eqb_neq; lia).
      cbn. f_equal.
      replace (k + S index)%nat with (S k + index)%nat by lia. apply IH.
Qed.

(** X19.  A change of one row of the invoice form touches that row only:
    every other row of the list is the row it was, and the row at the index
    is the changed item; an index beyond the list changes no row. *)
Theorem X19_row_change_touches_one_row :
  forall (st : State) (index : nat) (item : PartialItem.t),
    (forall j : nat,
        j <> index ->
        nth_error (lineItems (handleLineItemChange st index item)) j
        = nth_error (lineItems st) j)
    /\ nth_error (lineItems (handleLineItemChange st index item)) index
       = option_map (fun lineItem => changedItem lineItem item)
                    (nth_error (lineItems st) index)
    /\ ((List.length (lineItems st) <= index)%nat ->
        lineItems (handleLineItemChange st index item) = lineItems st).
Proof.
  intros st index item. cbn [handleLineItemChange lineItems]. split; [| split].
  - intros j other. rewrite nth_error_mapi. cbn [Nat.add].
    replace (j =? index)%nat with false by (symmetry; now apply Nat.eqb_neq).
    cbn [negb]. now destruct (nth_error (lineItems st) j).
  - rewrite nth_error_mapi. cbn [Nat.add]. now rewrite Nat.eqb_refl.
  - intros beyond. apply nth_error_ext. intros j. rewrite nth_error_mapi. cbn [Nat.add].
    destruct (nth_error (lineItems st) j) as [row |] eqn:at_j; [| reflexivity].
    assert (j < List.length (lineItems st))%nat
      by (apply nth_error_Some; congruence).
    replace (j =? index)%nat with false by (symmetry; apply Nat.eqb_neq; lia).
    reflexivity.
Qed.

(** X20.  The remove button takes out the row at its index and no other,
    and puts the placeholder when no row is left; an index beyond the list
    removes nothing.  Removing the row that the add button has just
    appended gives back the rows as they were, with their totals
    recomputed. *)
Theorem X20_remove_takes_out_the_addressed_row :
  forall (existingInvoice : option Invoice.t) (st : State) (index : nat),
    let others :=
      (firstn index (lineItems st) ++ skipn (S index) (lineItems st))%list in
    lineItems (removeLineItem existingInvoice st index)
    = match others with
      | [] => [emptyLineItem (existingId existingInvoice)]
      | _ :: _ => others
      end
    /\ (lineItems st <> [] ->
        removeLineItem existingInvoice (addLineItem existingInvoice st)
                       (List.length (lineItems st))
        = mkState (lineItems st) (recalculate (lineItems st))).
Proof.
  intros existingInvoice st index others. subst others. split.
  - cbn [removeLineItem lineItems].
    pose proof (filteri_without (lineItems st) 0 index) as taken.
    cbn [Nat.add] in taken. rewrite taken.
    now destruct (firstn index (lineItems st) ++ skipn (S index) (lineItems st))%list.
  - intros filled. unfold removeLineItem. cbn [addLineItem lineItems].
    pose proof (filteri_without (lineItems st ++ [emptyLineItem (existingId existingInvoice)])
                  0 (List.length (lineItems st))) as taken.
    cbn [Nat.add] in taken. rewrite taken.
    rewrite firstn_app, Nat.sub_diag, firstn_all. cbn [firstn].
    rewrite skipn_all2 by (rewrite length_app; cbn; lia).
    rewrite !app_nil_r.
    destruct (lineItems st) as [| row rows]; [contradiction | reflexivity].
Qed.

(** X21.  Choosing a job never recomputes the totals.  When the chosen job
    is among the loaded ones and the form shows only the placeholder row,
    the row is replaced by the service item of 150 while subtotal, tax and
    total stay what they were: 0, where the new row adds up to 150. *)
Theorem X21_choosing_a_job_leaves_the_totals_stale :
  forall (jobs : option (list Job.t)) (st : FormState) (jobId : string),
    let st' := handleJobChange jobs st jobId in
    calculations (edit st') = calculations (edit st)
    /\ (forall (loaded : list Job.t) (found : Job.t) (invoiceId : Z),
           jobs = Some loaded ->
           find (fun j => PrimFloat.eqb (JS.of_Z (Job.id j)) (JS.parseInt jobId)) loaded
           = Some found ->
           edit st = mkState [emptyLineItem invoiceId] (recalculate [emptyLineItem invoiceId]) ->
           lineItems (edit st') = [serviceLineItem]
           /\ calculations (edit st') = mkCalculations 0 0 0
           /\ subtotal (recalculate (lineItems (edit st'))) = 150).
Proof.
  intros jobs st jobId st'. subst st'. split.
  - unfold handleJobChange.
    destruct jobs as [loaded |]; [| reflexivity].
    destruct (find _ loaded) as [found |]; [| reflexivity].
    cbn [edit]. now destruct (match lineItems (edit st) with [only] => _ | _ => false end).
  - intros loaded found invoiceId -> chosen shown. unfold handleJobChange.
    rewrite chosen, shown. cbn [edit lineItems calculations].
    repeat split.
Qed.

End FormRows.

(** ** A deleted invoice *)

Section DeletedInvoice.
Import Storage Http InvoiceStorage InvoiceRoutes.
Local Open Scope string_scope.
Local Open Scope Z_scope.


(** X22.  An invoice that [DELETE /api/invoices/:id] has deleted is gone for
    [GET /api/invoices/:id]: after an answer of 204, the same id with the
    same session is answered 404, "Invoice not found". *)
Theorem X22_deleted_invoice_is_not_found :
  forall (st st' : Store) (req : request),
    delete_invoices_id st req = (st', Send 204) ->
    get_invoices_id st' req = Json 404 (Message "Invoice not found").
Proof.
  intros st st' req. unfold delete_invoices_id.
  destruct (requestUser st req) as [[caller |] |] eqn:resolved; try discriminate.
  destruct (getInvoiceItemsByInvoiceId st _) as [lineItems |]; [| discriminate].
  destruct (deleteItems st lineItems) as [st1 [[] |]] eqn:removal; [| discriminate].
  apply deleteItems_removes in removal as (keep & ->).
  unfold deleteInvoice.
  destruct (int4 (JS.parseInt (params_id req))) as [i |] eqn:key; [| discriminate].
  cbn [negb]. intros [= <-].
  unfold get_invoices_id.
  match goal with
  | |- context [requestUser ?left req] => rewrite (requestUser_users st left req eq_refl)
  end.
  rewrite resolved. destruct (bound_id_string _ _ key) as [-> ->].
  unfold getInvoice. rewrite key. cbn [invoices setInvoices setInvoiceItems].
  now rewrite (find_filtered_out (fun r => Invoice.id r =? i)).
Qed.

End DeletedInvoice.

(** X22, for the invoice of the ledger. *)
Lemma X22_deleted_invoice_is_not_found_witness :
  InvoiceRoutes.get_invoices_id
    (Storage.mkStore [Example.admin; Example.bob] 3 [] 2 [] 3) (Example.asAdmin "1" [])
  = Http.Json 404 (Http.Message "Invoice not found").
Proof.
  apply (X22_deleted_invoice_is_not_found Ledger.store _ (Example.asAdmin "1" [])).
  vm_compute. reflexivity.
Defined.

(** ** The totals of an updated invoice *)

Section UpdatedTotals.
Import Storage Http InvoiceStorage InvoiceRoutes.
Local Open Scope string_scope.
Local Open Scope Z_scope.

(** What the partial schema makes of [v ? parseFloat(v) : undefined]. *)
Lemma optionalAmount_given (v : JS.value) (given : option JS.number) :
  optionalAmount v = Some given ->
  given = if JS.truthy v then Some (JS.parseFloat (JS.toString v)) else None.
Proof.
  unfold optionalAmount. destruct (JS.truthy v); [| now intros [= <-]].
  unfold Routes.zNumber. destruct (JS.isNaN _); [discriminate | now intros [= <-]].
Qed.

Lemma parsePartialInvoice_amounts (invoiceData : list (string * JS.value))
  (validated : PartialInvoice.t) :
  parsePartialInvoice invoiceData = Some validated ->
  optionalAmount (JS.lookup "amount" invoiceData) = Some (PartialInvoice.amount validated)
  /\ optionalAmount (JS.lookup "tax" invoiceData) = Some (PartialInvoice.tax validated)
  /\ optionalAmount (JS.lookup "total" invoiceData) = Some (PartialInvoice.total validated).
Proof.
  unfold parsePartialInvoice. cbv zeta.
  repeat match goal with
         | |- match ?checked with Some _ => _ | None => None end = Some _ -> _ =>
             destruct checked eqn:?; [| discriminate]
         end.
  intros [= <-]. cbn. repeat split; assumption.
Qed.

(** X23.  The totals of an invoice that [PUT /api/invoices/:id] updated are
    client-supplied or kept, never computed: when the answer is 200, each of
    [amount], [tax] and [total] of the updated invoice is [parseFloat] of
    the field of the body when that field is truthy (as the column holds
    it: a negative zero is stored as 0), and otherwise what the stored
    invoice had.  The line items of the body do not enter the totals. *)
Theorem X23_put_totals_are_client_supplied_or_kept :
  forall (st st' : Store) (req : request) (updated : Invoice.t)
         (items : list InvoiceItem.t),
    put_invoices_id st req = (st', Json 200 (InvoiceJson updated items)) ->
    exists (i : Z) (stored : Invoice.t),
      int4 (JS.parseInt (params_id req)) = Some i
      /\ find (fun r => Invoice.id r =? i) (invoices st) = Some stored
      /\ let supplied (key : string) (kept : JS.number) :=
           if JS.truthy (JS.lookup key (body req))
           then float8 (JS.parseFloat (JS.toString (JS.lookup key (body req))))
           else kept in
         Invoice.amount updated = supplied "amount" (Invoice.amount stored)
         /\ Invoice.tax updated = supplied "tax" (Invoice.tax stored)
         /\ Invoice.total updated = supplied "total" (Invoice.total stored).
Proof.
  intros st st' req updated items answered.
  destruct (put_invoices_answered _ _ _ _ _ answered)
    as (caller & validated & st1 & _ & parsed & written).
  apply parsePartialInvoice_amounts in parsed as (amount & tax & total).
  apply optionalAmount_given in amount, tax, total.
  revert written. unfold updateInvoice.
  destruct (int4 (JS.parseInt (params_id req))) as [i |] eqn:key; [| discriminate].
  destruct (optionalInt4 (PartialInvoice.jobId validated)) as [job |]; [| discriminate].
  destruct (optionalInt4 (PartialInvoice.customerId validated)) as [customer |];
    [| discriminate].
  destruct (optionalInt4 (PartialInvoice.createdBy validated)) as [creator |];
    [| discriminate].
  destruct (noColumn validated || numberTaken (invoices st) i validated); [discriminate |].
  rewrite (find_updated Invoice.id i i _ (invoices st)) by reflexivity.
  destruct (find (fun r => Invoice.id r =? i) (invoices st)) as [stored |] eqn:found;
    [| discriminate].
  apply find_some in found as named. destruct named as [_ target].
  cbn [option_map]. rewrite target. intros [= _ <-]. exists i, stored.
  split; [reflexivity | split; [exact found |]].
  cbn [setInvoice Invoice.amount Invoice.tax Invoice.total]. rewrite amount, tax, total.
  repeat split;
    match goal with
    | |- context [JS.truthy ?v] => now destruct (JS.truthy v)
    end.
Qed.

End UpdatedTotals.

(** X23, for a request on the ledger's invoice (250, 50, 300) that carries
    the amount as the text [-0], the tax 60 and the total as the number 0:
    the amount becomes 0, the tax 60, and the total, whose field is falsy,
    stays 300. *)
Lemma X23_put_totals_are_client_supplied_or_kept_witness :
  let req := Example.asAdmin "1"
               [("amount", JS.Str "-0"); ("tax", JS.Number 60%float);
                ("total", JS.Number 0%float)]%string in
  let updated :=
    Invoice.mk 1 "INV-202501-1000" 1 1 0 60 300 1700000000000 1702592000000 None
               "30" "bank-transfer" "draft" 1 in
  InvoiceRoutes.put_invoices_id Ledger.store req
  = (Storage.mkStore [Example.admin; Example.bob] 3 [updated] 2
                     [Ledger.blasting; Ledger.travel] 3,
     Http.Json 200 (Http.InvoiceJson updated [Ledger.blasting; Ledger.travel]))
  /\ exists (i : Z) (stored : Invoice.t),
       Storage.int4 (JS.parseInt (Http.params_id req)) = Some i
       /\ find (fun r => Invoice.id r =? i) (Storage.invoices Ledger.store) = Some stored
       /\ let supplied (key : string) (kept : JS.number) :=
            if JS.truthy (JS.lookup key (Http.body req))
            then Storage.float8 (JS.parseFloat (JS.toString (JS.lookup key (Http.body req))))
            else kept in
          Invoice.amount updated = supplied "amount"%string (Invoice.amount stored)
          /\ Invoice.tax updated = supplied "tax"%string (Invoice.tax stored)
          /\ Invoice.total updated = supplied "total"%string (Invoice.total stored).
Proof.
  intros req updated.
  assert (answered :
            InvoiceRoutes.put_invoices_id Ledger.store req
            = (Storage.mkStore [Example.admin; Example.bob] 3 [updated] 2
                               [Ledger.blasting; Ledger.travel] 3,
               Http.Json 200 (Http.InvoiceJson updated [Ledger.blasting; Ledger.travel])))
    by (vm_compute; reflexivity).
  split; [exact answered |].
  exact (X23_put_totals_are_client_supplied_or_kept Ledger.store _ req updated _ answered).
Defined.
